(** * OpenOmics annotation engine: a shallow embedding

    The development follows [openomics/database/base.py] (the current join
    engine) and [openomics/database/annotation.py] (its older sibling, which
    also holds the sequence resolvers of GENCODE and MirBase).

    Layout:
    - [Py]: Python values the code manipulates: exceptions, results,
      strings ([split], [join], [strip], ...).
    - [difflib]: the part of Python's difflib behind [get_close_matches].
    - [pd]: the fragment of the pandas DataFrame API the two files call.
    - [utils_df]: [concat_uniques], whose source is not part of the tree.
    - [base], [annotation]: the two source files.
    - the theorems. *)

From Stdlib Require Import ZArith Ascii String.
From stdpp Require Import gmap strings list sorting pretty.

Local Open Scope string_scope.
Local Open Scope list_scope.
Local Open Scope nat_scope.

(* ===================================================================== *)
(** * Python values *)
(* ===================================================================== *)

Module Py.

(** The exceptions the modelled code can raise. [Exception] is the bare
    [raise Exception(...)] of the source. *)
Inductive exn : Type :=
| KeyError | IndexError | ValueError | TypeError | AttributeError
| Exception
| Unmodelled.   (* behaviour outside the modelled fragment of pandas *)

Inductive result (A : Type) : Type :=
| Ok (a : A)
| Raise (e : exn).
Arguments Ok {A} a.
Arguments Raise {A} e.

Definition is_ok {A} (r : result A) : bool :=
  match r with Ok _ => true | Raise _ => false end.

#[global] Instance result_ret : MRet result := fun A a => Ok a.
#[global] Instance result_bind : MBind result := fun A B f r =>
  match r with Ok a => f a | Raise e => Raise e end.

(** [for x in l: acc = body(acc, x)], stopping at the first exception. *)
Fixpoint for_each {A S : Type} (body : S -> A -> result S) (l : list A) (s : S)
  : result S :=
  match l with
  | [] => Ok s
  | x :: l' => s' ← body s x; for_each body l' s'
  end.

(** [l[i]] on a list. *)
Definition getitem {A} (l : list A) (i : nat) : result A :=
  match l !! i with Some x => Ok x | None => Raise IndexError end.

(** [d[k]] on a dict. *)
Definition dict_getitem {V} (d : gmap string V) (k : string) : result V :=
  match d !! k with Some v => Ok v | None => Raise KeyError end.

(** [s.split(sep)] for a one-character separator: always at least one
    piece. *)
Fixpoint split (sep : ascii) (s : string) : list string :=
  match s with
  | EmptyString => [EmptyString]
  | String c s' =>
      if Ascii.eqb c sep then EmptyString :: split sep s'
      else match split sep s' with
           | [] => [String c EmptyString]
           | piece :: pieces => String c piece :: pieces
           end
  end.

(** [sep.join(l)]. *)
Fixpoint join (sep : string) (l : list string) : string :=
  match l with
  | [] => ""
  | x :: l' => match l' with
               | [] => x
               | _ :: _ => x ++ sep ++ join sep l'
               end
  end.

(** [s.replace(a, b)] for one-character [a] and [b]. *)
Fixpoint replace (a b : ascii) (s : string) : string :=
  match s with
  | EmptyString => EmptyString
  | String c s' => String (if Ascii.eqb c a then b else c) (replace a b s')
  end.

(** [sub in s]. *)
Fixpoint contains (sub s : string) : bool :=
  String.prefix sub s ||
  match s with
  | EmptyString => false
  | String _ s' => contains sub s'
  end.

Fixpoint lstrip (c : ascii) (s : string) : string :=
  match s with
  | EmptyString => EmptyString
  | String a s' => if Ascii.eqb a c then lstrip c s' else s
  end.

Fixpoint rstrip (c : ascii) (s : string) : string :=
  match s with
  | EmptyString => EmptyString
  | String a s' =>
      match rstrip c s' with
      | EmptyString => if Ascii.eqb a c then EmptyString else String a EmptyString
      | r => String a r
      end
  end.

(** [s.strip(c)]: removes the character at both ends. *)
Definition strip (c : ascii) (s : string) : string := rstrip c (lstrip c s).

(** [s[-1]]. *)
Fixpoint last_char (s : string) : result ascii :=
  match s with
  | EmptyString => Raise IndexError
  | String a EmptyString => Ok a
  | String _ s' => last_char s'
  end.

(** [list(dict.fromkeys(l))]: the distinct elements in order of first
    appearance; also the order of [Series.unique()] and of the keys of a
    dict comprehension. *)
Fixpoint unique_from `{EqDecision A} (seen l : list A) : list A :=
  match l with
  | [] => []
  | x :: l' => if decide (x ∈ seen) then unique_from seen l'
               else x :: unique_from (x :: seen) l'
  end.

Definition unique `{EqDecision A} (l : list A) : list A := unique_from [] l.

End Py.
Import Py.

(* ===================================================================== *)
(** * difflib.get_close_matches *)
(* ===================================================================== *)

(** Python's standard [difflib], restricted to what [get_close_matches]
    uses with its defaults ([n = 3], [cutoff = 0.6], no junk predicate,
    [autojunk] on).  Strings are sequences of one-byte characters.  The
    similarity ratio [2.0 * M / T] is a float in Python; it is kept here as
    the exact fraction [2 M / T] and compared by cross multiplication, which
    agrees with the float comparison for any realistic identifier length. *)
Module difflib.

Definition chars (s : string) : list ascii := list_ascii_of_string s.

(** [count_occ]: how often [c] occurs in [b]. *)
Definition occurrences (c : ascii) (b : list ascii) : nat :=
  length (filter (fun x => x = c) b).

(** [__chain_b]: with [autojunk] and [len(b) >= 200], elements occurring
    more than [len(b) // 100 + 1] times are dropped from [b2j]. *)
Definition popular (b : list ascii) (c : ascii) : bool :=
  (200 <=? length b) && (length b / 100 + 1 <? occurrences c b).

Fixpoint indices_from (j : nat) (c : ascii) (b : list ascii) : list nat :=
  match b with
  | [] => []
  | x :: b' => if decide (x = c) then j :: indices_from (S j) c b'
               else indices_from (S j) c b'
  end.

(** [b2j.get(c, [])]: the positions of [c] in [b], ascending. *)
Definition b2j (b : list ascii) (c : ascii) : list nat :=
  if popular b c then [] else indices_from 0 c b.

Definition block : Type := nat * nat * nat.     (* besti, bestj, bestsize *)

(** The inner loop of [find_longest_match] over the positions [j] of
    [a[i]] in [b].  The positions are ascending, so the [break] at
    [j >= bhi] skips exactly the positions the filter below skips. *)
Definition flm_inner (i blo bhi : nat) (j2len : gmap nat nat)
    (st : block * gmap nat nat) (j : nat) : block * gmap nat nat :=
  let '((besti, bestj, bestsize), newj2len) := st in
  if j <? blo then st
  else if bhi <=? j then st
  else
    let k := match j with
             | O => 0
             | S j' => default 0 (j2len !! j')
             end + 1 in
    let newj2len := <[j := k]> newj2len in
    if bestsize <? k then ((i + 1 - k, j + 1 - k, k), newj2len)
    else ((besti, bestj, bestsize), newj2len).

(** [for i in range(alo, ahi)], as a loop over the elements [a[alo:ahi]]. *)
Fixpoint flm_outer (b : list ascii) (blo bhi : nat) (ai : list ascii) (i : nat)
    (best : block) (j2len : gmap nat nat) : block :=
  match ai with
  | [] => best
  | c :: ai' =>
      let '(best', newj2len) :=
        foldl (flm_inner i blo bhi j2len) (best, ∅) (b2j b c) in
      flm_outer b blo bhi ai' (S i) best' newj2len
  end.

(** [while besti > alo and bestj > blo and a[besti-1] == b[bestj-1]]. *)
Fixpoint extend_left (a b : list ascii) (alo blo : nat) (fuel : nat)
    (best : block) : block :=
  let '(besti, bestj, bestsize) := best in
  match fuel with
  | O => best
  | S fuel' =>
      if (alo <? besti) && (blo <? bestj)
         && bool_decide (a !! (besti - 1) = b !! (bestj - 1))
      then extend_left a b alo blo fuel' (besti - 1, bestj - 1, bestsize + 1)
      else best
  end.

(** [while besti+bestsize < ahi and bestj+bestsize < bhi and
    a[besti+bestsize] == b[bestj+bestsize]]. *)
Fixpoint extend_right (a b : list ascii) (ahi bhi : nat) (fuel : nat)
    (best : block) : block :=
  let '(besti, bestj, bestsize) := best in
  match fuel with
  | O => best
  | S fuel' =>
      if (besti + bestsize <? ahi) && (bestj + bestsize <? bhi)
         && bool_decide (a !! (besti + bestsize) = b !! (bestj + bestsize))
      then extend_right a b ahi bhi fuel' (besti, bestj, bestsize + 1)
      else best
  end.

(** [find_longest_match(alo, ahi, blo, bhi)].  The junk set is empty, so
    the two junk-extension loops never run. *)
Definition find_longest_match (a b : list ascii) (alo ahi blo bhi : nat) : block :=
  let best := flm_outer b blo bhi (take (ahi - alo) (drop alo a)) alo
                (alo, blo, 0) ∅ in
  let best := extend_left a b alo blo (length a) best in
  extend_right a b ahi bhi (length a) best.

(** The total size of the blocks [get_matching_blocks] collects: each
    queue entry contributes its longest match and the two ranges left and
    right of it.  Every recursive range is strictly shorter in [a], so
    [fuel = len(a) + 1] suffices. *)
Fixpoint matching_size (fuel : nat) (a b : list ascii) (alo ahi blo bhi : nat) : nat :=
  match fuel with
  | O => 0
  | S fuel' =>
      let '(i, j, k) := find_longest_match a b alo ahi blo bhi in
      if k =? 0 then 0
      else k
           + (if (alo <? i) && (blo <? j)
              then matching_size fuel' a b alo i blo j else 0)
           + (if (i + k <? ahi) && (j + k <? bhi)
              then matching_size fuel' a b (i + k) ahi (j + k) bhi else 0)
  end.

(** [ratio()] as a fraction (numerator, denominator): [2.0*M/T], and
    [1.0] when both sequences are empty. *)
Definition ratio (a b : string) : nat * nat :=
  let la := String.length a in
  let lb := String.length b in
  if la + lb =? 0 then (1, 1)
  else (2 * matching_size (S la) (chars a) (chars b) 0 la 0 lb, la + lb).

(** [r >= 0.6]. *)
Definition clears_cutoff (r : nat * nat) : bool := 3 * r.2 <=? 5 * r.1.

(** Tuple order on [(score, x)]: by score, then by the string. *)
Definition scored_lt (p q : (nat * nat) * string) : bool :=
  let '((n1, d1), x1) := p in
  let '((n2, d2), x2) := q in
  if n1 * d2 <? n2 * d1 then true
  else if n2 * d1 <? n1 * d2 then false
  else String.ltb x1 x2.

Fixpoint insert_desc (p : (nat * nat) * string) (l : list ((nat * nat) * string)) :=
  match l with
  | [] => [p]
  | q :: l' => if scored_lt p q then q :: insert_desc p l' else p :: l
  end.

(** [sorted(result, reverse=True)]. *)
Definition sort_desc (l : list ((nat * nat) * string)) :=
  foldr insert_desc [] l.

(** [get_close_matches(word, possibilities)].  The two quick ratios the
    source tests first are upper bounds of [ratio()], so the filter is
    [ratio() >= cutoff]. *)
Definition get_close_matches (word : string) (possibilities : list string)
    : list string :=
  let result :=
    omap (fun x => let r := ratio x word in
                   if clears_cutoff r then Some (r, x) else None)
         possibilities in
  (fun p => p.2) <$> take 3 (sort_desc result).

End difflib.

(* ===================================================================== *)
(** * The pandas fragment *)
(* ===================================================================== *)

(** The DataFrame operations [base.py] and [annotation.py] call, with the
    semantics pandas documents for them.  A frame is kept row by row: each
    row carries its index entry (one value per index level) and its cells
    (one value per column).  Column labels are looked up by name, first
    occurrence first.  A column has no dtype of its own here: where pandas
    goes by the dtype, it is the one pandas infers from the values. *)
Module pd.

Inductive value : Type :=
| NaN                    (* missing *)
| Str (s : string)
| Int (z : Z).

#[global] Instance value_eq_dec : EqDecision value.
Proof. solve_decision. Defined.

Definition isna (v : value) : bool :=
  match v with NaN => true | _ => false end.

(** The name of an index level; [None] is an unnamed level. *)
Definition label : Type := option string.

Record DataFrame : Type := mkDataFrame {
  multi : bool;                            (* isinstance(index, pd.MultiIndex) *)
  names : list label;                      (* index.names *)
  columns : list string;
  rows : list (list value * list value)    (* (index entry, cells) *)
}.

(** [len(df)]. *)
Definition nrows (df : DataFrame) : nat := length (rows df).

(** [df.index.name]: [None] for a MultiIndex. *)
Definition index_name (df : DataFrame) : label :=
  if multi df then None else mjoin (head (names df)).

(** The entries of the index, one per row (tuples for a MultiIndex). *)
Definition index_entries (df : DataFrame) : list (list value) :=
  fst <$> rows df.

(** The values of a single-level index. *)
Definition index_values (df : DataFrame) : list value :=
  (fun r => default NaN (head r.1)) <$> rows df.

(** Every row has one index value per level and one cell per column; a
    MultiIndex has at least two levels, a plain Index exactly one. *)
Definition wf (df : DataFrame) : Prop :=
  (if multi df then 2 <= length (names df) else length (names df) = 1)
  /\ Forall (fun r => length r.1 = length (names df)
                      /\ length r.2 = length (columns df)) (rows df).

Fixpoint position `{EqDecision A} (c : A) (cols : list A) : option nat :=
  match cols with
  | [] => None
  | x :: cols' => if decide (x = c) then Some 0 else S <$> position c cols'
  end.

(** The cell of column [c] in a row whose cells follow [cols]. *)
Definition pick (cols : list string) (c : string) (cells : list value) : value :=
  match position c cols with
  | Some p => default NaN (cells !! p)
  | None => NaN
  end.

(** The values of column [c], one per row. *)
Definition column (df : DataFrame) (c : string) : list value :=
  (fun r => pick (columns df) c r.2) <$> rows df.

Definition has_columns (df : DataFrame) (cols : list string) : bool :=
  forallb (fun c => bool_decide (c ∈ columns df)) cols.

(** [df[cols]] for a list of labels. *)
Definition getitem_columns (df : DataFrame) (cols : list string) : result DataFrame :=
  if has_columns df cols then
    Ok {| multi := multi df; names := names df; columns := cols;
          rows := (fun r => (r.1, (fun c => pick (columns df) c r.2) <$> cols))
                  <$> rows df |}
  else Raise KeyError.

(** [df.filter(items=items)]: the labels of [items] that exist, in the
    order of [items]; never raises. *)
Definition filter_items (df : DataFrame) (items : list string) : DataFrame :=
  let cols := filter (fun c => c ∈ columns df) items in
  {| multi := multi df; names := names df; columns := cols;
     rows := (fun r => (r.1, (fun c => pick (columns df) c r.2) <$> cols))
             <$> rows df |}.

(** The cells of the columns whose label satisfies [keep]. *)
Definition keep_cells (keep : string -> bool) (cols : list string)
    (cells : list value) : list value :=
  snd <$> filter (fun p => keep p.1 = true) (zip cols cells).

Definition is_key (keys : list label) (c : string) : bool :=
  bool_decide (Some c ∈ keys).

(** [df.set_index(keys)] (with [drop=True]): the key columns become the
    index and leave the columns.  A key that is not a column label
    ([None] never is) raises KeyError. *)
Definition set_index (df : DataFrame) (keys : list label) : result DataFrame :=
  match keys with
  | [] => Raise Unmodelled
  | _ :: _ =>
      if forallb (fun k => match k with
                           | Some c => bool_decide (c ∈ columns df)
                           | None => false
                           end) keys
      then
        Ok {| multi := 1 <? length keys; names := keys;
              columns := filter (fun c => is_key keys c = false) (columns df);
              rows := (fun r =>
                         ((fun k => pick (columns df) (default "" k) r.2) <$> keys,
                          keep_cells (fun c => negb (is_key keys c)) (columns df) r.2))
                      <$> rows df |}
      else Raise KeyError
  end.

(** The column labels [reset_index] gives to the index levels. *)
Definition level_labels (df : DataFrame) : list string :=
  if multi df then
    imap (fun i n => default (String.append "level_" (pretty i)) n) (names df)
  else
    default (if decide ("index" ∈ columns df) then "level_0" else "index")
      <$> names df.

(** [df.reset_index()]: the levels are inserted, last one first, at the
    front of the columns ([insert] refuses a label that exists); the new
    index is a RangeIndex. *)
Definition reset_index (df : DataFrame) : result DataFrame :=
  cols ← for_each (fun cols n => if decide (n ∈ cols) then Raise ValueError
                                 else Ok (n :: cols))
                  (reverse (level_labels df)) (columns df);
  Ok {| multi := false; names := [None]; columns := cols;
        rows := imap (fun i r => ([Int (Z.of_nat i)], r.1 ++ r.2)) (rows df) |}.

(** The per-row values of the label [key], which names either a column or
    an index level; pandas refuses a label that names both. *)
Definition resolve_key (df : DataFrame) (key : string) : result (list value) :=
  match position key (columns df), position (Some key) (names df) with
  | Some _, Some _ => Raise ValueError
  | Some p, None => Ok ((fun r => default NaN (r.2 !! p)) <$> rows df)
  | None, Some l => Ok ((fun r => default NaN (r.1 !! l)) <$> rows df)
  | None, None => Raise KeyError
  end.

(** [mapM]: apply a fallible function to each element, in order. *)
Fixpoint traverse {A B} (f : A -> result B) (l : list A) : result (list B) :=
  match l with
  | [] => Ok []
  | x :: l' => y ← f x; ys ← traverse f l'; Ok (y :: ys)
  end.

(** The order group keys are sorted in: numbers before strings. *)
Definition value_leb (a b : value) : bool :=
  match a, b with
  | NaN, _ => true
  | _, NaN => false
  | Int x, Int y => (x <=? y)%Z
  | Int _, Str _ => true
  | Str _, Int _ => false
  | Str x, Str y => String.leb x y
  end.

Definition sort_values (l : list value) : list value :=
  merge_sort (fun a b => Is_true (value_leb a b)) l.

(** The group keys of [groupby] (with its defaults [sort=True],
    [dropna=True]): the distinct non-missing key values, sorted. *)
Definition group_keys (keys : list value) : list value :=
  sort_values (unique (filter (fun k => isna k = false) keys)).

(** The values of column [c] in the rows whose key is [k], in row order. *)
Definition group_values (df : DataFrame) (keys : list value) (k : value)
    (c : string) : list value :=
  (fun p => pick (columns df) c p.2.2)
    <$> filter (fun p => p.1 = k) (zip keys (rows df)).

(** What [df.groupby(by)] reduces to, given one reducer per column: one
    row per group key, one column per reduced column; a label to reduce
    that is no column raises KeyError. *)
Definition reduce_groups (df : DataFrame) (by_ : string)
    (spec : list (string * (list value -> result value))) : result DataFrame :=
  keys ← resolve_key df by_;
  if has_columns df spec.*1 then
    rs ← traverse (fun k =>
            cells ← traverse (fun cf => cf.2 (group_values df keys k cf.1)) spec;
            Ok ([k], cells)) (group_keys keys);
    Ok {| multi := false; names := [Some by_]; columns := spec.*1; rows := rs |}
  else Raise KeyError.

(** [df.groupby(by).agg({c: f, ...})]: one row per group key, one column
    per entry of the dict.  [groupby] looks the key up first; then an
    empty dict raises ValueError (there is no column to put together),
    and a dict key that is no column raises KeyError. *)
Definition groupby_agg (df : DataFrame) (by_ : string)
    (spec : list (string * (list value -> result value))) : result DataFrame :=
  match spec with
  | [] => _ ← resolve_key df by_; Raise ValueError
  | _ :: _ => reduce_groups df by_ spec
  end.

(** [df.groupby(by).aggregate(how)] for a reduction pandas knows by name
    ([first], [last], [sum], [mean], ...): every column other than the
    key is reduced with it.  The reductions themselves are pandas's. *)
Definition groupby_aggregate
    (named_reduction : string -> option (list value -> result value))
    (df : DataFrame) (by_ : string) (how : string) : result DataFrame :=
  match named_reduction how with
  | None => Raise AttributeError
  | Some f =>
      reduce_groups df by_
        ((fun c => (c, f)) <$> filter (fun c => c ≠ by_) (columns df))
  end.

(** The dtype pandas infers for a list of keys: numbers, with or without
    missing values, make a numeric column (int64 or float64); strings,
    with or without missing values, an object column of strings. *)
Definition numeric_keys (l : list value) : bool :=
  existsb (fun v => match v with Int _ => true | _ => false end) l
  && forallb (fun v => match v with Str _ => false | _ => true end) l.

Definition string_keys (l : list value) : bool :=
  existsb (fun v => match v with Str _ => true | _ => false end) l
  && forallb (fun v => match v with Int _ => false | _ => true end) l.

(** [left.join(right, on=on, rsuffix=rsuffix)] (with [how='left']): the
    values of [on] in [left] are matched with the index of [right].  Every
    row of [left] is kept, in order, once per matching row of [right] and
    once, filled with NaN, when nothing matches.  A column label of
    [right] that [left] has too gets the suffix.  pandas refuses, with
    ValueError, to match numeric keys with keys that are strings. *)
Definition join (left right : DataFrame) (on : string) (rsuffix : string)
    : result DataFrame :=
  lkeys ← resolve_key left on;
  if multi right then Raise Unmodelled
  else if (numeric_keys lkeys && string_keys (index_values right))
          || (string_keys lkeys && numeric_keys (index_values right))
  then Raise ValueError
  else
    Ok {| multi := multi left; names := names left;
          columns := columns left ++
            ((fun c => if decide (c ∈ columns left) then String.append c rsuffix else c)
               <$> columns right);
          rows := mbind (M := list) (fun p =>
                    match filter (fun rr => default NaN (head rr.1) = p.1) (rows right) with
                    | [] => [(p.2.1, p.2.2 ++ replicate (length (columns right)) NaN)]
                    | ms => (fun rr => (p.2.1, p.2.2 ++ rr.2)) <$> ms
                    end) (zip lkeys (rows left)) |}.

(** [df[old_col].fillna(df[new_col], inplace=True)]: the missing cells of
    [old_col] take the value of [new_col] in the same row.  The two series
    share the index of [df], so they are aligned row by row, and the write
    through [df[old_col]] reaches the frame, as it does in the pandas the
    source was written for (without copy-on-write). *)
Definition fillna_from (df : DataFrame) (old_col new_col : string) : result DataFrame :=
  match position old_col (columns df), position new_col (columns df) with
  | Some p, Some q =>
      Ok {| multi := multi df; names := names df; columns := columns df;
            rows := (fun r => (r.1,
                       if isna (default NaN (r.2 !! p))
                       then <[p := default NaN (r.2 !! q)]> r.2 else r.2))
                    <$> rows df |}
  | _, _ => Raise KeyError
  end.

(** [df.drop(columns=col)]. *)
Definition drop_columns (df : DataFrame) (col : string) : result DataFrame :=
  if decide (col ∈ columns df) then
    Ok {| multi := multi df; names := names df;
          columns := filter (fun c => c ≠ col) (columns df);
          rows := (fun r => (r.1, keep_cells (fun c => negb (bool_decide (c = col)))
                                    (columns df) r.2)) <$> rows df |}
  else Raise KeyError.

(** [df.index = df.index.map(f)] on a single-level index. *)
Definition map_index (df : DataFrame) (f : value -> result value) : result DataFrame :=
  if multi df then Raise Unmodelled
  else
    rs ← traverse (fun r => v ← f (default NaN (head r.1)); Ok ([v], r.2)) (rows df);
    Ok {| multi := false; names := names df; columns := columns df; rows := rs |}.

(** [index.duplicated().sum() > 0]. *)
Definition has_duplicates (df : DataFrame) : bool :=
  negb (bool_decide (NoDup (index_entries df))).

End pd.
Import pd.

(* ===================================================================== *)
(** * openomics.utils.df *)
(* ===================================================================== *)

Module utils_df.

(** [str(v)]. *)
Definition str_of (v : value) : string :=
  match v with
  | NaN => "nan"
  | Str s => s
  | Int z => pretty z
  end.

(** Modelled from the spec: [openomics/utils/df.py], which defines the
    reducers [concat_uniques] ([base.py]) and [concat_uniques_agg]
    ([annotation.py]), is not in the tree.  The spec (4.2): the values of
    a group are collapsed to their unique string representations, in
    order of first appearance, and joined with the separator ['|']. *)
Definition concat_uniques (series : list value) : result value :=
  Ok (Str (Py.join "|" (unique (str_of <$> series)))).

Definition concat_uniques_agg := concat_uniques.

End utils_df.
Import utils_df.

(* ===================================================================== *)
(** * State of a call *)
(* ===================================================================== *)

(** What a call of [annotate_genomics] can change: the table
    [self.annotations] and the list object the caller passed as [columns]
    ([get_annotations] pops from it in place). *)
Module Run.

Record store : Type := mkStore {
  annotations : DataFrame;
  columns_arg : list string
}.

(** A computation that reads and writes the store and may raise; the
    store it leaves behind is kept on both outcomes. *)
Definition M (A : Type) : Type := store -> store * result A.

Definition ret {A} (a : A) : M A := fun s => (s, Ok a).

Definition bind {A B} (m : M A) (k : A -> M B) : M B := fun s =>
  match m s with
  | (s', Ok a) => k a s'
  | (s', Raise e) => (s', Raise e)
  end.

Definition lift {A} (r : result A) : M A := fun s => (s, r).

(** [self.annotations]. *)
Definition read : M DataFrame := fun s => (s, Ok (annotations s)).

(** [self.annotations = df]. *)
Definition write (df : DataFrame) : M unit := fun s =>
  ({| annotations := df; columns_arg := columns_arg s |}, Ok tt).

(** [self.annotations = f(self.annotations)]; nothing is assigned when [f]
    raises. *)
Definition update (f : DataFrame -> result DataFrame) : M unit :=
  bind read (fun df => bind (lift (f df)) write).

(** [for x in l: body(x)]. *)
Fixpoint for_ {A} (l : list A) (body : A -> M unit) : M unit :=
  match l with
  | [] => ret tt
  | x :: l' => bind (body x) (fun _ => for_ l' body)
  end.

End Run.

Notation "x <~ m ;; k" := (Run.bind m (fun x => k))
  (at level 100, m at next level, right associativity, only parsing).
Notation "m ;;; k" := (Run.bind m (fun _ => k))
  (at level 100, right associativity, only parsing).

(* ===================================================================== *)
(** * openomics/database/base.py *)
(* ===================================================================== *)

Module base.

(** A [Dataset] after construction: [self.data] (whose index
    [__init__] has reset). *)
Record Dataset : Type := { data : DataFrame }.

Section WithPandasReductions.

(** pandas's reductions by name, for [agg] other than ["concat"]. *)
Variable named_reduction : string -> option (list value -> result value).

(** [Dataset.get_annotations(index, columns, agg)].  Returns the list
    object [columns] as the call leaves it, and the outcome.  The table
    is an in-memory pandas frame (the Dask branch aggregates with the
    same reducer). *)
Definition get_annotations (self : Dataset) (index : string)
    (columns : list string) (agg : string) : list string * result DataFrame :=
  if negb (has_columns (data self) columns) then (columns, Raise Exception)
  else
    (* if index in columns: columns.pop(columns.index(index)) *)
    let columns := match position index columns with
                   | Some i => delete i columns
                   | None => columns
                   end in
    (columns,
     df ← getitem_columns (data self) (columns ++ [index]);
     df ← (if bool_decide (Some index ≠ index_name (data self))
              && bool_decide (index ∈ pd.columns (data self))
           then set_index df [Some index] else Ok df);
     if decide (agg = "concat") then
       groupby_agg df index ((fun col => (col, concat_uniques)) <$> unique columns)
     else
       groupby_aggregate named_reduction df index agg).

(** [lambda x: difflib.get_close_matches(x, self.annotations.index)[0]]
    for a single-level index; a word or a candidate that is no string
    has no length. *)
Definition first_close_match (possibilities : list value) (x : value)
    : result value :=
  match x with
  | Str word =>
      ps ← traverse (fun p => match p with
                              | Str s => Ok s
                              | _ => Raise TypeError
                              end) possibilities;
      m ← getitem (difflib.get_close_matches word ps) 0;
      Ok (Str m)
  | _ => Raise TypeError
  end.

(** [[col for col in self.annotations.columns if col[-1] == "_"]]. *)
Definition duplicate_columns (df : DataFrame) : result (list string) :=
  for_each (fun acc col => c ← last_char col;
                           Ok (if Ascii.eqb c "_" then acc ++ [col] else acc))
           (pd.columns df) [].

(** [database.get_annotations(index, columns=columns, agg=agg)] on the
    caller's list (line 282). *)
Definition call_get_annotations (database : Dataset) (index agg : string)
    : Run.M DataFrame := fun s =>
  let '(columns, r) := get_annotations database index (Run.columns_arg s) agg in
  ({| Run.annotations := Run.annotations s; Run.columns_arg := columns |}, r).

(** Lines 284-286: with [fuzzy_match], every value of the index of
    [database_df] is replaced by its first close match among the values of
    the index of the annotations.  Matching against the tuples of a
    MultiIndex is outside the modelled fragment. *)
Definition fuzzy_rewrite (annotations database_df : DataFrame) : result DataFrame :=
  if multi annotations
  then match rows database_df with
       | [] => Ok database_df
       | _ :: _ => Raise Unmodelled
       end
  else map_index database_df (first_close_match (index_values annotations)).

(** Lines 288-304: the join on [index], on the index of the annotations
    when it has that name, and else through a temporary index. *)
Definition join_on (database_df : DataFrame) (index : string) : Run.M unit :=
  annotations <~ Run.read ;;
  if decide (Some index = index_name annotations) then
    Run.update (fun a => pd.join a database_df index "_")
  else
    let old_index := if multi annotations then names annotations
                     else [index_name annotations] in
    Run.update reset_index ;;;
    Run.update (fun a => set_index a [Some index]) ;;;
    Run.update (fun a => r ← pd.join a database_df index "_"; reset_index r) ;;;
    Run.update (fun a => set_index a old_index).

(** Lines 306-316: every column whose label ends in ["_"] is merged into
    the column named by the stripped label, and dropped. *)
Definition merge_duplicate_columns : Run.M unit :=
  annotations <~ Run.read ;;
  duplicate_columns <~ Run.lift (duplicate_columns annotations) ;;
  Run.for_ duplicate_columns (fun new_col =>
    let old_col := strip "_" new_col in
    Run.update (fun a => fillna_from a old_col new_col) ;;;
    Run.update (fun a => drop_columns a new_col)).

(** [Annotatable.annotate_genomics(database, index, columns, agg,
    fuzzy_match)]; [columns] is the list in the store. *)
Definition annotate_genomics (database : Dataset) (index : string)
    (agg : string) (fuzzy_match : bool) : Run.M unit :=
  database_df <~ call_get_annotations database index agg ;;
  database_df <~ (if fuzzy_match then
                    annotations <~ Run.read ;;
                    Run.lift (fuzzy_rewrite annotations database_df)
                  else Run.ret database_df) ;;
  join_on database_df index ;;;
  merge_duplicate_columns.

End WithPandasReductions.

End base.

(* ===================================================================== *)
(** * openomics/database/annotation.py *)
(* ===================================================================== *)

Module annotation.

(** A [Dataset] after construction: [self.df] as [load_data] returned it
    (its index is not reset here). *)
Record Dataset : Type := { df : DataFrame }.

(** Lines 83-85: [if df.index.duplicated().sum() > 0: raise ValueError]. *)
Definition check_index_unique (d : DataFrame) : result DataFrame :=
  if has_duplicates d then Raise ValueError else Ok d.

(** [Dataset.get_annotations(index, columns)]; [columns] may be [None].
    Returns the list object as the call leaves it, and the outcome. *)
Definition get_annotations (self : Dataset) (index : string)
    (columns : option (list string)) : option (list string) * result DataFrame :=
  match columns with
  | Some columns =>
      let '(d, columns) :=
        match position index columns with
        | Some i => (filter_items (df self) columns, delete i columns)
        | None => (filter_items (df self) (columns ++ [index]), columns)
        end in
      (Some columns,
       d ← (if bool_decide (Some index ≠ index_name (df self))
               && bool_decide (index ∈ pd.columns (df self))
            then set_index d [Some index] else Ok d);
       d ← groupby_agg d index ((fun k => (k, concat_uniques_agg)) <$> unique columns);
       check_index_unique d)
  | None => (None, Raise Exception)
  end.

(** [[col for col in self.annotations.columns if col[-1] == "_"]]. *)
Definition duplicate_columns (a : DataFrame) : result (list string) :=
  for_each (fun acc col => c ← last_char col;
                           Ok (if Ascii.eqb c "_" then acc ++ [col] else acc))
           (pd.columns a) [].

(** [database.get_annotations(index, columns)] on the caller's list. *)
Definition call_get_annotations (database : Dataset) (index : string)
    : Run.M DataFrame := fun s =>
  let '(columns, r) := get_annotations database index (Some (Run.columns_arg s)) in
  ({| Run.annotations := Run.annotations s;
      Run.columns_arg := default [] columns |}, r).

(** Lines 152-162: the join on [index]; the aggregated table is computed
    where the source calls [database.get_annotations]. *)
Definition join_on (database : Dataset) (index : string) : Run.M unit :=
  annotations <~ Run.read ;;
  if decide (Some index = index_name annotations) then
    database_df <~ call_get_annotations database index ;;
    Run.update (fun a => pd.join a database_df index "_")
  else
    let old_index := index_name annotations in
    Run.update reset_index ;;;
    Run.update (fun a => set_index a [Some index]) ;;;
    database_df <~ call_get_annotations database index ;;
    Run.update (fun a => pd.join a database_df index "_") ;;;
    Run.update reset_index ;;;
    Run.update (fun a => set_index a [old_index]).

(** Lines 164-168: every column whose label ends in ["_"] is merged into
    the column named by the stripped label; the column stays (the [drop]
    is commented out). *)
Definition merge_duplicate_columns : Run.M unit :=
  annotations <~ Run.read ;;
  duplicate_columns <~ Run.lift (duplicate_columns annotations) ;;
  Run.for_ duplicate_columns (fun col =>
    Run.update (fun a => fillna_from a (strip "_" col) col)).

(** [Annotatable.annotate_genomics(database, index, columns)], with
    [columns] a list (the one in the store). *)
Definition annotate_genomics (database : Dataset) (index : string) : Run.M unit :=
  join_on database index ;;;
  merge_duplicate_columns.

(** ** Sequence resolvers *)

(** A FASTA record as [SeqIO.parse] yields it. *)
Record SeqRecord : Type := { id : string; seq : string }.

(** A value of [seq_dict]: one sequence, or a list of them. *)
Inductive entry : Type :=
| One (s : string)
| Many (l : list string).

(** [len(seq_dict[key])]. *)
Definition len (e : entry) : nat :=
  match e with
  | One s => String.length s
  | Many l => length l
  end.

(** [self.file_resources] maps a logical file name to the records parsed
    from that file. *)
Record GENCODE : Type := {
  gencode_file_resources : gmap string (list SeqRecord);
  gencode_import_sequences : string;
  gencode_replace_U2T : bool
}.

(** The key of a record in the requested identifier space. *)
Definition GENCODE_key (index : string) (record_id : string) : result string :=
  if decide (index = "gene_id") then
    f ← getitem (split "|" record_id) 1; getitem (split "." f) 0
  else if decide (index = "gene_name") then
    getitem (split "|" record_id) 5
  else if decide (index = "transcript_id") then
    f ← getitem (split "|" record_id) 0; getitem (split "." f) 0
  else if decide (index = "transcript_name") then
    getitem (split "|" record_id) 4
  else Raise Exception.

(** The body of the loop over the records of [GENCODE.get_sequences]. *)
Definition GENCODE_record (self : GENCODE) (index : string)
    (seq_dict : gmap string entry) (record : SeqRecord)
    : result (gmap string entry) :=
  key ← GENCODE_key index (id record);
  let sequence_str := seq record in
  let sequence_str := if gencode_replace_U2T self
                      then replace "U" "T" sequence_str else sequence_str in
  if contains "gene" index && bool_decide (gencode_import_sequences self = "shortest") then
    match seq_dict !! key with
    | None => Ok (<[key := One sequence_str]> seq_dict)
    | Some e => if String.length sequence_str <? len e
                then Ok (<[key := One sequence_str]> seq_dict)
                else Ok seq_dict
    end
  else if contains "gene" index && bool_decide (gencode_import_sequences self = "longest") then
    match seq_dict !! key with
    | None => Ok (<[key := One sequence_str]> seq_dict)
    | Some e => if len e <? String.length sequence_str
                then Ok (<[key := One sequence_str]> seq_dict)
                else Ok seq_dict
    end
  else if contains "gene" index && bool_decide (gencode_import_sequences self = "all") then
    match seq_dict !! key with
    | None => Ok (<[key := Many [sequence_str]]> seq_dict)
    | Some (Many l) => Ok (<[key := Many (l ++ [sequence_str])]> seq_dict)
    | Some (One _) => Raise AttributeError      (* str has no append *)
    end
  else Ok (<[key := One sequence_str]> seq_dict).

(** [GENCODE.get_sequences(omic, index)]. *)
Definition GENCODE_get_sequences (self : GENCODE) (omic index : string)
    : result (gmap string entry) :=
  fasta_file ←
    (if decide (omic = "GE") then
       dict_getitem (gencode_file_resources self) "transcripts.fa"
     else if decide (omic = "LNC") then
       dict_getitem (gencode_file_resources self) "lncRNA_transcripts.fa"
     else Raise Exception);
  for_each (GENCODE_record self index) fasta_file ∅.

Record MirBase : Type := {
  mirbase_file_resources : gmap string (list SeqRecord);
  mirbase_import_sequences : string;
  mirbase_replace_U2T : bool
}.

(** The body of the loop over the records of [MirBase.get_sequences]. *)
Definition MirBase_record (self : MirBase)
    (seq_dict : gmap string entry) (record : SeqRecord)
    : result (gmap string entry) :=
  let gene_name := id record in
  let sequence_str := seq record in
  let sequence_str := if mirbase_replace_U2T self
                      then replace "U" "T" sequence_str else sequence_str in
  if decide (mirbase_import_sequences self = "shortest") then
    match seq_dict !! gene_name with
    | None => Ok (<[gene_name := One sequence_str]> seq_dict)
    | Some e => if String.length sequence_str <? len e
                then Ok (<[gene_name := One sequence_str]> seq_dict)
                else Ok seq_dict
    end
  else if decide (mirbase_import_sequences self = "longest") then
    match seq_dict !! gene_name with
    | None => Ok (<[gene_name := One sequence_str]> seq_dict)
    | Some e => if len e <? String.length sequence_str
                then Ok (<[gene_name := One sequence_str]> seq_dict)
                else Ok seq_dict
    end
  else if decide (mirbase_import_sequences self = "all") then
    match seq_dict !! gene_name with
    | None => Ok (<[gene_name := Many [sequence_str]]> seq_dict)
    | Some (Many l) => Ok (<[gene_name := Many (l ++ [sequence_str])]> seq_dict)
    | Some (One _) => Raise AttributeError
    end
  else Ok (<[gene_name := One sequence_str]> seq_dict).

(** [MirBase.get_sequences(omic, index)]: neither argument is used. *)
Definition MirBase_get_sequences (self : MirBase) (omic index : string)
    : result (gmap string entry) :=
  hairpin ← dict_getitem (mirbase_file_resources self) "hairpin.fa";
  for_each (MirBase_record self) hairpin ∅.

(** [lambda x: "|".join(x.unique())], the reducer [RNAcentral.load_data]
    and [EnsembleGenes.get_functional_annotations] apply to each group;
    joining anything but strings is a TypeError. *)
Definition join_unique (x : list value) : result value :=
  strs ← traverse (fun v => match v with
                            | Str s => Ok s
                            | _ => Raise TypeError
                            end) (unique x);
  Ok (Str (Py.join "|" strs)).

End annotation.

(* ===================================================================== *)
(** * Vocabulary of the statements *)
(* ===================================================================== *)

Module Spec.
Import annotation.

(** How the records that share an identifier are combined. *)
Inductive policy : Type := Shortest | Longest | All | LastSeen.

(** The policy [import_sequences] selects; any other string keeps the
    record seen last. *)
Definition policy_of (import_sequences : string) : policy :=
  if decide (import_sequences = "shortest") then Shortest
  else if decide (import_sequences = "longest") then Longest
  else if decide (import_sequences = "all") then All
  else LastSeen.

(** GENCODE applies the policy only when the index space mentions
    ["gene"]. *)
Definition GENCODE_policy (self : GENCODE) (index : string) : policy :=
  if contains "gene" index then policy_of (gencode_import_sequences self)
  else LastSeen.

(** One update of the entry of a key by a new sequence. *)
Definition select (p : policy) (old : option entry) (s : string) : result entry :=
  match p, old with
  | Shortest, None | Longest, None | LastSeen, _ => Ok (One s)
  | Shortest, Some e => Ok (if String.length s <? len e then One s else e)
  | Longest, Some e => Ok (if len e <? String.length s then One s else e)
  | All, None => Ok (Many [s])
  | All, Some (Many l) => Ok (Many (l ++ [s]))
  | All, Some (One _) => Raise AttributeError
  end.

(** The loop body both resolvers share, once the key and the normalised
    sequence of a record are known. *)
Definition record_step (p : policy) (key_of : SeqRecord -> result string)
    (norm : string -> string) (seq_dict : gmap string entry) (record : SeqRecord)
    : result (gmap string entry) :=
  key ← key_of record;
  e ← select p (seq_dict !! key) (norm (seq record));
  Ok (<[key := e]> seq_dict).

(** The entry of one key after its sequences [l] went through the loop. *)
Fixpoint fold_select (p : policy) (old : option entry) (l : list string)
    : result (option entry) :=
  match l with
  | [] => Ok old
  | s :: l' => e ← select p old s; fold_select p (Some e) l'
  end.

(** The normalised sequences of the records whose key is [k], in stream
    order. *)
Definition seqs_for (key_of : SeqRecord -> result string) (norm : string -> string)
    (k : string) (records : list SeqRecord) : list string :=
  omap (fun r => match key_of r with
                 | Ok k' => if decide (k' = k) then Some (norm (seq r)) else None
                 | Raise _ => None
                 end) records.

Definition normalise (replace_U2T : bool) (s : string) : string :=
  if replace_U2T then replace "U" "T" s else s.

(** [s] is the first sequence of minimal length in [l]. *)
Definition first_shortest (s : string) (l : list string) : Prop :=
  exists l1 l2, l = l1 ++ s :: l2
    /\ Forall (fun t => String.length s < String.length t) l1
    /\ Forall (fun t => String.length s <= String.length t) l2.

(** [s] is the first sequence of maximal length in [l]. *)
Definition first_longest (s : string) (l : list string) : Prop :=
  exists l1 l2, l = l1 ++ s :: l2
    /\ Forall (fun t => String.length t < String.length s) l1
    /\ Forall (fun t => String.length t <= String.length s) l2.

(** What the spec promises for the identifier [k], given the sequences
    [seqs] of its records: the entry [e] of the returned mapping follows
    the selection policy named [import_sequences]. *)
Definition follows_policy (import_sequences : string) (seqs : list string)
    (e : option entry) : Prop :=
  (import_sequences = "shortest" ->
     exists s, e = Some (One s) /\ first_shortest s seqs)
  /\ (import_sequences = "longest" ->
     exists s, e = Some (One s) /\ first_longest s seqs)
  /\ (import_sequences = "all" -> e = Some (Many seqs)).

(** The mapping [d] gives every identifier of the stream the entry the
    policy selects, and nothing else. *)
Definition resolved_by_policy (import_sequences : string)
    (key_of : SeqRecord -> result string) (norm : string -> string)
    (records : list SeqRecord) (d : gmap string entry) : Prop :=
  forall k, let seqs := seqs_for key_of norm k records in
    (seqs = [] -> d !! k = None)
    /\ (seqs <> [] -> follows_policy import_sequences seqs (d !! k)).

(** The mapping [d] gives every identifier the sequence of its last record. *)
Definition resolved_by_last
    (key_of : SeqRecord -> result string) (norm : string -> string)
    (records : list SeqRecord) (d : gmap string entry) : Prop :=
  forall k, d !! k = One <$> last (seqs_for key_of norm k records).

(** The values of the key [key] of a table, row by row: those of the column
    [key] when there is one, and else those of the index level [key]. *)
Definition key_values (df : DataFrame) (key : string) : list value :=
  match position key (columns df), position (Some key) (names df) with
  | Some _, _ => column df key
  | None, Some l => (fun r => default NaN (r.1 !! l)) <$> rows df
  | None, None => []
  end.

(** The frame [annotation.get_annotations] groups, and the list it leaves. *)
Definition annotation_selected (self : annotation.Dataset) (index : string)
    (columns : list string) : DataFrame * list string :=
  match position index columns with
  | Some i => (filter_items (annotation.df self) columns, delete i columns)
  | None => (filter_items (annotation.df self) (columns ++ [index]), columns)
  end.

(** [pieces] lists the distinct elements of [l] in the order of their first
    appearance: no duplicate, the same elements, and whatever stands before
    the first [x] in [l] stands before [x] in [pieces]. *)
Definition first_occurrences {A} (l pieces : list A) : Prop :=
  NoDup pieces
  /\ (forall x, x ∈ pieces <-> x ∈ l)
  /\ (forall p1 x p2, pieces = p1 ++ x :: p2 ->
       exists l1 l2, l = l1 ++ x :: l2 /\ (x ∉ l1) /\ forall y, y ∈ l1 -> y ∈ p1).

(** The values of column [c] in the rows of [df] whose column [key] holds
    [k], in row order. *)
Definition group_of (df : DataFrame) (key : string) (k : value) (c : string)
    : list value :=
  (fun r => pick (columns df) c r.2)
    <$> filter (fun r => pick (columns df) key r.2 = k) (rows df).

(** The reducer [base.get_annotations] applies to the groups of a column:
    [concat_uniques] for "concat", and else the reduction pandas knows by
    the name [agg]. *)
Definition reducer (named_reduction : string -> option (list value -> result value))
    (agg : string) : option (list value -> result value) :=
  if decide (agg = "concat") then Some concat_uniques else named_reduction agg.

(** A computation leaves the number of rows of the annotations as it was,
    whatever its outcome. *)
Definition keeps_rows {A} (m : Run.M A) : Prop :=
  forall s, nrows (Run.annotations (m s).1) = nrows (Run.annotations s).

(** A computation leaves the annotations as they were. *)
Definition keeps_annotations {A} (m : Run.M A) : Prop :=
  forall s, Run.annotations (m s).1 = Run.annotations s.

(** One call of [annotate_genomics] of [base.py], with its arguments. *)
Record base_call : Type := {
  call_database : base.Dataset;
  call_index : string;
  call_columns : list string;
  call_agg : string;
  call_fuzzy_match : bool
}.

(** The annotations after a call (returned or raised) on [a]. *)
Definition after_base_call
    (named_reduction : string -> option (list value -> result value))
    (a : DataFrame) (c : base_call) : DataFrame :=
  Run.annotations
    (base.annotate_genomics named_reduction (call_database c) (call_index c)
       (call_agg c) (call_fuzzy_match c)
       {| Run.annotations := a; Run.columns_arg := call_columns c |}).1.

(** One call of [annotate_genomics] of [annotation.py]. *)
Record annotation_call : Type := {
  acall_database : annotation.Dataset;
  acall_index : string;
  acall_columns : list string
}.

Definition after_annotation_call (a : DataFrame) (c : annotation_call) : DataFrame :=
  Run.annotations
    (annotation.annotate_genomics (acall_database c) (acall_index c)
       {| Run.annotations := a; Run.columns_arg := acall_columns c |}).1.

(** The value a row holds under the label [n]: the cell of the column [n]
    when there is one, and else the value of the index level [n]. *)
Definition labelled (df : DataFrame) (r : list value * list value) (n : string)
    : value :=
  match position n (columns df) with
  | Some p => default NaN (r.2 !! p)
  | None => match position (Some n) (names df) with
            | Some l => default NaN (r.1 !! l)
            | None => NaN
            end
  end.

(** Every row has one value per index level and one cell per column. *)
Definition wf_rows (df : DataFrame) : Prop :=
  Forall (fun r => length r.1 = length (names df)
                   /\ length r.2 = length (columns df)) (rows df).

(** A column label that is not empty and has no underscore at either end. *)
Definition clean (c : string) : Prop :=
  c <> EmptyString /\ lstrip "_" c = c /\ rstrip "_" c = c.

(** The label ends with the marker ["_"]. *)
Definition marked (c : string) : Prop := last_char c = Ok "_"%char.

(** The value the aggregated table [right] holds in column [c] for the key
    [k]: that of its first row indexed by [k], and NaN when it has none. *)
Definition incoming (right : DataFrame) (k : value) (c : string) : value :=
  match filter (fun rr => default NaN (head rr.1) = k) (rows right) with
  | [] => NaN
  | rr :: _ => pick (columns right) c rr.2
  end.

(** [fillna]: the old value, or the new one where the old one is missing. *)
Definition filled (old new : value) : value := if isna old then new else old.

(** Row by row, [df'] holds under every label of [S] what [df] holds. *)
Definition aligned (S : string -> Prop) (df df' : DataFrame) : Prop :=
  Forall2 (fun r r' => forall n, S n -> labelled df' r' n = labelled df r n)
          (rows df) (rows df').

(** Row by row, [df'] has the index entry of [df]. *)
Definition same_entries (df df' : DataFrame) : Prop :=
  Forall2 (fun r r' => r'.1 = r.1) (rows df) (rows df').

(** [a'] is [a] left-joined with the aggregated table [right] on [index]:
    the index of [a] is back, row by row; a column of [a'] is a column of
    [a] or one of [right], marked or not; and for every label [X] both
    tables have as a column, [a'] holds the old values under [X] and the
    incoming ones under the marked label. *)
Definition joined (a right : DataFrame) (index : string) (a' : DataFrame) : Prop :=
  multi a' = multi a /\ names a' = names a /\ wf_rows a'
  /\ same_entries a a'
  /\ (forall n, n ∈ columns a' ->
        n ∈ columns a
        \/ exists c, c ∈ columns right /\ (n = c \/ n = String.append c "_"))
  /\ (forall X, X ∈ columns a -> X ∈ columns right ->
        X ∈ columns a' /\ String.append X "_" ∈ columns a')
  /\ Forall2 (fun r r' =>
        forall X, X ∈ columns a -> X ∈ columns right ->
          labelled a' r' X = labelled a r X
          /\ labelled a' r' (String.append X "_")
             = incoming right (labelled a r index) X)
       (rows a) (rows a').

(** What [annotation.get_annotations] has aggregated when it reaches its
    check of the index. *)
Definition annotation_aggregated (self : annotation.Dataset) (index : string)
    (columns : list string) : result DataFrame :=
  d ← (if bool_decide (Some index ≠ index_name (annotation.df self))
          && bool_decide (index ∈ pd.columns (annotation.df self))
       then set_index (annotation_selected self index columns).1 [Some index]
       else Ok (annotation_selected self index columns).1);
  groupby_agg d index
    ((fun k => (k, concat_uniques_agg)) <$> unique (annotation_selected self index columns).2).

(** The number of distinct non-missing values among [keys]. *)
Definition distinct_non_null (keys : list value) : nat :=
  length (remove_dups (filter (fun k => isna k = false) keys)).

(** The index of [out] has no duplicate, and holds exactly the distinct
    non-missing values of [keys], one row each. *)
Definition indexed_by_distinct (keys : list value) (out : DataFrame) : Prop :=
  NoDup (index_entries out)
  /\ NoDup (index_values out)
  /\ nrows out = distinct_non_null keys
  /\ (forall v, v ∈ index_values out <-> v ∈ keys /\ v <> NaN).

(** [after] is [before] without the first occurrence of [x], when there is
    one, and [before] itself otherwise. *)
Definition popped (x : string) (before after : list string) : Prop :=
  (x ∈ before ->
     length before = S (length after)
     /\ exists l1 l2, before = l1 ++ x :: l2 /\ (x ∉ l1) /\ after = l1 ++ l2)
  /\ (x ∉ before -> after = before).

(** While the marked columns of the joined frame [aj] are merged away,
    the current frame [cur] keeps its index, its index entries and a part
    of its columns. *)
Definition reshaped (aj cur : DataFrame) : Prop :=
  wf_rows cur /\ names cur = names aj /\ multi cur = multi aj
  /\ (forall n, n ∈ columns cur -> n ∈ columns aj)
  /\ same_entries aj cur.


(** The index of [a'] is that of [a]: same kind, same names, and row by
    row the same entries. *)
Definition same_index (a a' : DataFrame) : Prop :=
  multi a' = multi a /\ names a' = names a /\ same_entries a a'.


End Spec.

(* ===================================================================== *)
(** * Concrete inputs *)
(* ===================================================================== *)

Module Examples.
Import annotation.

(** Three transcripts of one gene, of lengths 5, 8 and 3; the last two are
    versions of one transcript. *)
Definition transcripts : list SeqRecord :=
  [ {| id := "ENST01.1|ENSG7.2|OTT1|OTT2|G7-201|G7|5|"; seq := "ACGUA" |};
    {| id := "ENST02.1|ENSG7.2|OTT1|OTT3|G7-202|G7|8|"; seq := "ACGUACGU" |};
    {| id := "ENST02.2|ENSG7.2|OTT1|OTT3|G7-202|G7|3|"; seq := "ACG" |} ].

(** A resource table with two rows for G1, and no named reduction. *)
Definition go_table : DataFrame :=
  {| multi := false; names := [None]; columns := ["gene_id"; "go_id"];
     rows := [ ([Int 0], [Str "G1"; Str "GO:1"]);
               ([Int 1], [Str "G1"; Str "GO:2"]);
               ([Int 2], [Str "G2"; Str "GO:3"]) ] |}.

Definition no_reduction : string -> option (list value -> result value) :=
  fun _ => None.

(** Annotations of three genes, keyed by name, with their ids and a partly
    filled [go_id] column. *)
Definition named_genes : DataFrame :=
  {| multi := false; names := [Some "gene_name"]; columns := ["gene_id"; "go_id"];
     rows := [ ([Str "A"], [Str "G1"; NaN]);
               ([Str "B"], [Str "G2"; Str "old"]);
               ([Str "C"], [Str "G3"; NaN]) ] |}.


(** Annotations and a resource that share a column whose label starts
    with an underscore. *)
Definition underscored_genes : DataFrame :=
  {| multi := false; names := [Some "gene_name"];
     columns := ["gene_id"; "go"; "_go"];
     rows := [ ([Str "A"], [Str "G1"; NaN; NaN]) ] |}.

Definition underscored_table : DataFrame :=
  {| multi := false; names := [None]; columns := ["gene_id"; "_go"];
     rows := [ ([Int 0], [Str "G1"; Str "GO:1"]) ] |}.

(** Annotations under a composite index. *)
Definition transcripts_of_genes : DataFrame :=
  {| multi := true; names := [Some "gene_id"; Some "transcript_id"];
     columns := ["gene_name"];
     rows := [ ([Str "G1"; Str "T1"], [Str "A"]);
               ([Str "G2"; Str "T2"], [Str "B"]) ] |}.

Definition names_table : DataFrame :=
  {| multi := false; names := [None]; columns := ["gene_name"; "go_id"];
     rows := [ ([Int 0], [Str "A"; Str "GO:1"]) ] |}.

Definition transcript_table : DataFrame :=
  {| multi := false; names := [None]; columns := ["transcript_id"; "go_id"];
     rows := [ ([Int 0], [Str "T1"; Str "GO:1"]) ] |}.

(** One microRNA under annotation, and two resources: one spells its name
    in two ways, the other knows another gene only. *)
Definition mir_annotations : DataFrame :=
  {| multi := false; names := [Some "gene_name"]; columns := [];
     rows := [ ([Str "MIR21"], []) ] |}.

Definition mir_table : DataFrame :=
  {| multi := false; names := [None]; columns := ["gene_name"; "family"];
     rows := [ ([Int 0], [Str "MIR21"; Str "mir-21"]);
               ([Int 1], [Str "MIR-21"; Str "mir-21"]) ] |}.

Definition let7_table : DataFrame :=
  {| multi := false; names := [None]; columns := ["gene_name"; "family"];
     rows := [ ([Int 0], [Str "LET7A"; Str "let-7"]) ] |}.

(** The store of a call on the annotations [a] with the list [columns]. *)
Definition on (a : DataFrame) (columns : list string) : Run.store :=
  {| Run.annotations := a; Run.columns_arg := columns |}.

Definition gencode (import_sequences : string) : GENCODE :=
  {| gencode_file_resources := {[ "transcripts.fa" := transcripts ]};
     gencode_import_sequences := import_sequences;
     gencode_replace_U2T := true |}.

End Examples.

(* ===================================================================== *)
(** * The other functions of the two files *)
(* ===================================================================== *)

(** The pandas operations the remaining methods of [base.py] and
    [annotation.py] call, on the frames of [pd]. *)
Module pd_more.

#[global] Instance value_countable : Countable value.
Proof.
  refine (inj_countable'
            (fun v => match v with
                      | NaN => inl tt
                      | Str s => inr (inl s)
                      | Int z => inr (inr z)
                      end)
            (fun x => match x with
                      | inl _ => NaN
                      | inr (inl s) => Str s
                      | inr (inr z) => Int z
                      end) _).
  by intros [].
Defined.

(** [pd.DataFrame(index=labels)], with the name given to its index. *)
Definition empty_frame (labels : list value) (name : label) : DataFrame :=
  {| multi := false; names := [name]; columns := [];
     rows := (fun g => ([g], [])) <$> labels |}.

(** [index.map(d)] for a dict [d]: the value of each key, NaN for a key
    the dict does not have. *)
Definition map_values (d : gmap value value) (keys : list value) : list value :=
  (fun k => default NaN (d !! k)) <$> keys.

(** [index.get_level_values(name)]. *)
Definition get_level_values (df : DataFrame) (name : string) : result (list value) :=
  match position (Some name) (names df) with
  | Some l => Ok ((fun r => default NaN (r.1 !! l)) <$> rows df)
  | None => Raise KeyError
  end.

(** [df[c] = vals] for an array of values: they replace the cells of the
    column [c], or become a new last column when there is no such
    column; an array of another length than the frame is refused. *)
Definition setitem_column (df : DataFrame) (c : string) (vals : list value)
    : result DataFrame :=
  if decide (length vals = nrows df) then
    Ok {| multi := multi df; names := names df;
          columns := if decide (c ∈ columns df) then columns df else columns df ++ [c];
          rows := zip_with (fun r v =>
                    (r.1, if decide (c ∈ columns df)
                          then (fun p => if decide (p.1 = c) then v else p.2)
                                 <$> zip (columns df) r.2
                          else r.2 ++ [v]))
                  (rows df) vals |}
  else Raise ValueError.


(** [df[df[c].notnull()]]: the rows whose cell in column [c] is not
    missing. *)
Definition notnull_rows (df : DataFrame) (c : string) : result DataFrame :=
  match position c (columns df) with
  | Some p =>
      Ok {| multi := multi df; names := names df; columns := columns df;
            rows := filter (fun r => isna (default NaN (r.2 !! p)) = false) (rows df) |}
  | None => Raise KeyError
  end.

(** [df[c].fillna(df.index.to_series(), inplace=True)] on a single-level
    index: the missing cells of [c] take the index value of their row. *)
Definition fillna_from_index (df : DataFrame) (c : string) : result DataFrame :=
  match position c (columns df) with
  | Some p =>
      if multi df then Raise Unmodelled
      else
        Ok {| multi := multi df; names := names df; columns := columns df;
              rows := (fun r => (r.1,
                         if isna (default NaN (r.2 !! p))
                         then <[p := default NaN (head r.1)]> r.2 else r.2))
                      <$> rows df |}
  | None => Raise KeyError
  end.

(** [pd.Series(vals, index=keys).to_dict()]: the pairs are inserted in
    row order, so the last value of a key stays.  What the dict holds for
    a missing key depends on the dtype of the index and is not modelled. *)
Definition to_dict (keys vals : list value) : result (gmap value value) :=
  if bool_decide (NaN ∈ keys) then Raise Unmodelled
  else Ok (foldl (fun d kv => <[kv.1 := kv.2]> d) ∅ (zip keys vals)).

(** [re.sub("[.].*", "", s)]: on every line, what starts at the first dot
    is removed ([.] does not match a newline).  [inside] tells whether a
    dot has been met on the current line. *)
Fixpoint sub_version (inside : bool) (s : string) : string :=
  match s with
  | EmptyString => EmptyString
  | String c s' =>
      if Ascii.eqb c "010" then String c (sub_version false s')
      else if inside then sub_version true s'
      else if Ascii.eqb c "." then sub_version true s'
      else String c (sub_version false s')
  end.

(** [df[c] = df[c].str.replace("[.].*", "")], the pattern being a regular
    expression (the default of the pandas the source was written for).  A
    missing cell stays missing.  What the [str] accessor answers on a
    column without any string, or on a number, depends on the dtype of the
    column and is not modelled. *)
Definition str_replace_version (df : DataFrame) (c : string) : result DataFrame :=
  match position c (columns df) with
  | Some p =>
      let cells := (fun r => default NaN (r.2 !! p)) <$> rows df in
      if existsb (fun v => match v with Str _ => true | _ => false end) cells then
        vals ← traverse (fun v => match v with
                                  | Str s => Ok (Str (sub_version false s))
                                  | NaN => Ok NaN
                                  | Int _ => Raise Unmodelled
                                  end) cells;
        setitem_column df c vals
      else Raise Unmodelled
  | None => Raise KeyError
  end.

End pd_more.

(** ** [base.py]: the rest of [Dataset] *)

Module Dataset.


(** [Dataset.get_expressions(index)]: [self.data.groupby(index).median()]
    on a table whose columns other than [index] are numbers (what pandas
    does with another column depends on its version); the median of a
    group of cells is pandas's. *)
Definition get_expressions (median : list value -> result value)
    (self : base.Dataset) (index : string) : result DataFrame :=
  reduce_groups (base.data self) index
    ((fun c => (c, median)) <$> filter (fun c => c ≠ index) (columns (base.data self))).

End Dataset.

(** ** [base.py]: the rest of [Annotatable] *)

Module Annotatable.

Section Mixin.

(** [get_genes_list] and [name] are methods of the classes that mix
    [Annotatable] in; none of them is in the tree. *)
Variable get_genes_list : list value.
Variable name : string.

(** [initialize_annotations(gene_list, index)]. *)
Definition initialize_annotations (gene_list : option (list value)) (index : string)
    : Run.M unit :=
  let gene_list := default get_genes_list gene_list in
  Run.write (pd_more.empty_frame gene_list (Some index)).

(** [annotate_sequences(database, index, agg_sequences, omic)];
    [get_sequences] is the method of [database], a mapping from
    identifiers to sequences. *)
Definition annotate_sequences
    (get_sequences : string -> string -> string -> result (gmap value value))
    (index agg_sequences : string) (omic : option string) : Run.M unit :=
  let omic := default name omic in
  sequences_entries <~ Run.lift (get_sequences index omic agg_sequences) ;;
  Run.update (fun a =>
    keys ← (if multi a then pd_more.get_level_values a index
            else Ok (index_values a));
    pd_more.setitem_column a "sequence" (pd_more.map_values sequences_entries keys)).

(** [annotate_diseases(database, index)]; mapping the tuples of a
    MultiIndex is outside the modelled fragment. *)
Definition annotate_diseases
    (get_disease_assocs : string -> result (gmap value value))
    (index : string) : Run.M unit :=
  disease_assocs <~ Run.lift (get_disease_assocs index) ;;
  Run.update (fun a =>
    if multi a then Raise Unmodelled
    else pd_more.setitem_column a "disease_associations"
           (pd_more.map_values disease_assocs (index_values a))).

End Mixin.

(** [get_annotation_expressions()]: the attribute, [None] before it is
    first assigned. *)
Definition get_annotation_expressions (annotation_expressions : option DataFrame)
    : result DataFrame :=
  match annotation_expressions with
  | Some df => Ok df
  | None => Raise Exception
  end.

(** [annotate_expressions(database, index)] on the annotations [a]: what
    the attribute [annotation_expressions] holds afterwards, and the
    outcome.  The attribute is assigned before [index] is looked at. *)
Definition annotate_expressions (median : list value -> result value)
    (database : base.Dataset) (index : string) (a : DataFrame)
    : option DataFrame * result unit :=
  let annotation_expressions :=
    {| multi := multi a; names := names a; columns := [];
       rows := (fun r => (r.1, [])) <$> rows a |} in
  if decide (index_name a = Some index) then
    match (expressions ← Dataset.get_expressions median database index;
           pd.join annotation_expressions expressions index "") with
    | Ok joined => (Some joined, Ok tt)
    | Raise e => (Some annotation_expressions, Raise e)
    end
  else (Some annotation_expressions, Raise Exception).

(** [set_index(new_index)]: the column is completed with the index, in
    place, and becomes the index. *)
Definition set_index (new_index : string) : Run.M unit :=
  Run.update (fun a => pd_more.fillna_from_index a new_index) ;;;
  Run.update (fun a => r ← reset_index a; pd.set_index r [Some new_index]).

(** [get_rename_dict(from_index, to_index)] on the annotations [a]. *)
Definition get_rename_dict (from_index to_index : string) (a : DataFrame)
    : result (gmap value value) :=
  dataframe ← reset_index a;
  dataframe ← pd_more.notnull_rows dataframe to_index;
  if decide (from_index ∈ columns dataframe) then
    pd_more.to_dict (column dataframe from_index) (column dataframe to_index)
  else Raise KeyError.

End Annotatable.

(** ** [annotation.py]: the rest *)

Module annotation_more.
Import annotation.

(** [Dataset.get_sequences], the method the databases implement. *)
Class Database (D : Type) : Type :=
  get_sequences : D -> string -> string -> result (gmap string entry).

#[global] Instance GENCODE_Database : Database GENCODE := GENCODE_get_sequences.
#[global] Instance MirBase_Database : Database MirBase := MirBase_get_sequences.

(** A cell of the annotations once [annotate_sequences] has run: a value
    as in the other frames, or the list of sequences [index.map] took
    from the dict. *)
Inductive cell : Type :=
| Plain (v : value)
| Sequences (l : list string).

(** A frame with such cells. *)
Record Frame : Type := {
  frame_multi : bool;
  frame_names : list label;
  frame_columns : list string;
  frame_rows : list (list value * list cell)
}.

(** The cell of column [c] in a row whose cells follow [cols]. *)
Definition cell_at (cols : list string) (c : string) (cells : list cell) : cell :=
  match position c cols with
  | Some p => default (Plain NaN) (cells !! p)
  | None => Plain NaN
  end.

(** [df[c] = cells]: as [setitem_column], for cells that can be lists. *)
Definition setitem_cells (df : DataFrame) (c : string) (cells : list cell)
    : result Frame :=
  if decide (length cells = nrows df) then
    Ok {| frame_multi := multi df; frame_names := names df;
          frame_columns := if decide (c ∈ columns df) then columns df
                           else columns df ++ [c];
          frame_rows := zip_with (fun r v =>
                    (r.1, if decide (c ∈ columns df)
                          then (fun p => if decide (p.1 = c) then v else Plain p.2)
                                 <$> zip (columns df) r.2
                          else (Plain <$> r.2) ++ [v]))
                  (rows df) cells |}
  else Raise ValueError.

(** The cell [index.map(seq_dict)] gives to an index value: the entry of
    the dict, a string or a list, and NaN for a value the dict does not
    have (its keys are strings). *)
Definition sequence_cell (seq_dict : gmap string entry) (k : value) : cell :=
  match k with
  | Str g => match seq_dict !! g with
             | Some (One s) => Plain (Str s)
             | Some (Many l) => Sequences l
             | None => Plain NaN
             end
  | _ => Plain NaN
  end.

(** [Annotatable.annotate_sequences(database, index, omic)], from the
    annotations before the call to the annotations after it.  Mapping
    the tuples of a MultiIndex is outside the modelled fragment. *)
Definition annotate_sequences `{Database D} (database : D) (index omic : string)
    (annotations : DataFrame) : result Frame :=
  seq_dict ← get_sequences database omic index;
  if multi annotations then Raise Unmodelled
  else setitem_cells annotations "Transcript sequence"
         (sequence_cell seq_dict <$> index_values annotations).

(** [GENCODE.load_data] from the frame [GTF.dataframe] parses (the parser
    is not in the tree): the version suffix of the gene and transcript
    identifiers is removed. *)
Definition GENCODE_load_data (gtf : DataFrame) : result DataFrame :=
  df ← pd_more.str_replace_version gtf "gene_id";
  pd_more.str_replace_version df "transcript_id".

(** [GENCODE.get_rename_dict(from_index, to_index)]: the arguments are
    not used. *)
Definition GENCODE_get_rename_dict (df : DataFrame) (from_index to_index : string)
    : result (gmap value value) :=
  if decide ("gene_name" ∈ columns df) then
    if decide ("gene_id" ∈ columns df) then
      pd_more.to_dict (column df "gene_id") (column df "gene_name")
    else Raise KeyError
  else Raise KeyError.

(** [EnsembleGenes.get_functional_annotations(omic, index)]. *)
Definition get_functional_annotations (df : DataFrame) (omic index : string)
    : result (gmap value value) :=
  d ← pd_more.notnull_rows df "go_id";
  keys ← resolve_key d index;
  vals ← traverse (fun k => join_unique (group_values d keys k "go_id"))
           (group_keys keys);
  pd_more.to_dict (group_keys keys) vals.

End annotation_more.

(** ** Vocabulary of their statements *)

Module Behaviour.
Import annotation.

(** The sequences an entry of [seq_dict] holds. *)
Definition sequences (e : entry) : list string :=
  match e with
  | One s => [s]
  | Many l => l
  end.

(** The string has no letter U. *)
Definition without_U (s : string) : Prop := "U"%char ∉ list_ascii_of_string s.

(** The identifier spaces [GENCODE.get_sequences] knows. *)
Definition GENCODE_spaces : list string :=
  ["gene_id"; "gene_name"; "transcript_id"; "transcript_name"].

(** The string has no line break. *)
Definition one_line (s : string) : Prop := "010"%char ∉ list_ascii_of_string s.

(** What [str.replace("[.].*", "")] makes of a cell. *)
Definition unversioned (v : value) : value :=
  match v with
  | Str s => Str (pd_more.sub_version false s)
  | _ => NaN
  end.

(** The values the rows of [df] whose label [key] holds [k] have under the
    label [val], the missing ones left out, in row order. *)
Definition lookups (df : DataFrame) (key val : string) (k : value) : list value :=
  omap (fun r => if decide (Spec.labelled df r key = k /\ Spec.labelled df r val <> NaN)
                 then Some (Spec.labelled df r val) else None)
       (rows df).


(** Every value is a string. *)
Definition strings (l : list value) : Prop :=
  forall v, v ∈ l -> exists s, v = Str s.


(** The cell [annotate_sequences] gives to an identifier whose records
    hold the sequences [seqs]: missing when there is none; else, in a
    gene space, the one the policy selects, or all of them as a list; and
    the last one in a transcript space or under another policy name. *)
Definition selected (import_sequences : string) (gene_space : bool)
    (seqs : list string) (v : annotation_more.cell) : Prop :=
  match seqs with
  | [] => v = annotation_more.Plain NaN
  | _ :: _ =>
      if gene_space then
        (import_sequences = "shortest" ->
           exists s, v = annotation_more.Plain (Str s) /\ Spec.first_shortest s seqs)
        /\ (import_sequences = "longest" ->
           exists s, v = annotation_more.Plain (Str s) /\ Spec.first_longest s seqs)
        /\ (import_sequences = "all" -> v = annotation_more.Sequences seqs)
        /\ (import_sequences <> "shortest" -> import_sequences <> "longest" ->
            import_sequences <> "all" ->
            exists s, v = annotation_more.Plain (Str s) /\ last seqs = Some s)
      else exists s, v = annotation_more.Plain (Str s) /\ last seqs = Some s
  end.

End Behaviour.

(** ** Concrete inputs for them *)

Module Inputs.

(** Two lines of a GENCODE annotation: a gene and one of its transcripts. *)
Definition gtf : DataFrame :=
  {| multi := false; names := [None];
     columns := ["gene_id"; "transcript_id"; "gene_name"];
     rows := [ ([Int 0], [Str "ENSG7.2"; NaN; Str "G7"]);
               ([Int 1], [Str "ENSG7.2"; Str "ENST01.1"; Str "G7"]) ] |}.

(** Annotations of two genes under their Ensembl identifiers. *)
Definition ensembl_genes : DataFrame :=
  {| multi := false; names := [Some "gene_id"]; columns := ["gene_name"];
     rows := [ ([Str "ENSG7"], [Str "G7"]);
               ([Str "ENSG9"], [Str "G9"]) ] |}.

(** A mapping from gene names to a disease. *)
Definition disease_assocs : gmap value value := {[ Str "A" := Str "cancer" ]}.

(** A reduction that finds nothing. *)
Definition no_median : list value -> result value := fun _ => Ok NaN.

End Inputs.

(* ===================================================================== *)
(** * Properties *)
(* ===================================================================== *)

Arguments set_index : simpl never.
Arguments reset_index : simpl never.
Arguments getitem_columns : simpl never.
Arguments filter_items : simpl never.
Arguments groupby_agg : simpl never.
Arguments reduce_groups : simpl never.
Arguments groupby_aggregate : simpl never.
Arguments pd.join : simpl never.
Arguments fillna_from : simpl never.
Arguments drop_columns : simpl never.
Arguments map_index : simpl never.
Arguments resolve_key : simpl never.

(** ** Sequence resolvers *)

Section Sequences.
Import annotation Spec.

Lemma bind_ok {A B} (r : result A) (f : A -> result B) (b : B) :
  r ≫= f = Ok b -> exists a, r = Ok a /\ f a = Ok b.
Proof. destruct r as [a|e]; simpl; [eauto | discriminate]. Qed.

Lemma GENCODE_record_step (self : GENCODE) (index : string) d r :
  GENCODE_record self index d r
  = record_step (GENCODE_policy self index) (fun r => GENCODE_key index (id r))
      (normalise (gencode_replace_U2T self)) d r.
Proof.
  unfold GENCODE_record, record_step, GENCODE_policy, policy_of, normalise.
  destruct (GENCODE_key index (id r)) as [key|err]; simpl; [|reflexivity].
  destruct (contains "gene" index); simpl.
  - destruct (decide (gencode_import_sequences self = "shortest")) as [->|H1].
    { simpl. destruct (d !! key) as [e|] eqn:E; simpl; [|reflexivity].
      destruct (_ <? _); [reflexivity|]. by rewrite insert_id. }
    rewrite (bool_decide_eq_false_2 _ H1).
    destruct (decide (gencode_import_sequences self = "longest")) as [->|H2].
    { simpl. destruct (d !! key) as [e|] eqn:E; simpl; [|reflexivity].
      destruct (_ <? _); [reflexivity|]. by rewrite insert_id. }
    rewrite (bool_decide_eq_false_2 _ H2).
    destruct (decide (gencode_import_sequences self = "all")) as [->|H3].
    { simpl. destruct (d !! key) as [[s|l]|] eqn:E; reflexivity. }
    rewrite (bool_decide_eq_false_2 _ H3). reflexivity.
  - reflexivity.
Qed.

Lemma MirBase_record_step (self : MirBase) d r :
  MirBase_record self d r
  = record_step (policy_of (mirbase_import_sequences self)) (fun r => Ok (id r))
      (normalise (mirbase_replace_U2T self)) d r.
Proof.
  unfold MirBase_record, record_step, policy_of, normalise. simpl.
  destruct (decide (mirbase_import_sequences self = "shortest")) as [Hs|Hs].
  { destruct (d !! id r) as [e|] eqn:E; simpl; [|reflexivity].
    destruct (_ <? _); [reflexivity|]. by rewrite insert_id. }
  destruct (decide (mirbase_import_sequences self = "longest")) as [Hl|Hl].
  { destruct (d !! id r) as [e|] eqn:E; simpl; [|reflexivity].
    destruct (_ <? _); [reflexivity|]. by rewrite insert_id. }
  destruct (decide (mirbase_import_sequences self = "all")) as [Ha|Ha].
  { destruct (d !! id r) as [[s|l]|] eqn:E; reflexivity. }
  reflexivity.
Qed.

Lemma for_each_ext {A S} (f g : S -> A -> result S) l s :
  (forall s x, f s x = g s x) -> for_each f l s = for_each g l s.
Proof.
  intros H. revert s. induction l as [|x l IH]; intros s; simpl; [reflexivity|].
  rewrite H. destruct (g s x); simpl; auto.
Qed.

Section Loop.
Variables (p : policy) (key_of : SeqRecord -> result string)
          (norm : string -> string).

(** The entry of [k] after the loop depends only on the records of [k]. *)
Lemma loop_lookup records : forall d0 d k,
  for_each (record_step p key_of norm) records d0 = Ok d ->
  fold_select p (d0 !! k) (seqs_for key_of norm k records) = Ok (d !! k).
Proof.
  induction records as [|r records IH]; intros d0 d k H; simpl in *.
  - by inversion H.
  - apply bind_ok in H as (d1 & Hstep & Hrest).
    unfold record_step in Hstep.
    apply bind_ok in Hstep as (key & Hkey & Hstep).
    apply bind_ok in Hstep as (e & He & Hd1). inversion Hd1; subst d1; clear Hd1.
    rewrite Hkey. specialize (IH _ _ k Hrest).
    destruct (decide (key = k)) as [->|Hne]; simpl.
    + rewrite He. simpl. by rewrite lookup_insert_eq in IH.
    + by rewrite lookup_insert_ne in IH.
Qed.

(** The loop raises nothing when every record has a key and, under
    [All], the dict holds lists only. *)
Lemma loop_ok records : forall d0,
  Forall (fun r => is_ok (key_of r) = true) records ->
  (p = All -> forall k e, d0 !! k = Some e -> exists l, e = Many l) ->
  exists d, for_each (record_step p key_of norm) records d0 = Ok d.
Proof.
  induction records as [|r records IH]; intros d0 Hkeys Hinv; simpl.
  - eauto.
  - inversion Hkeys as [|? ? Hr Hrs]; subst.
    destruct (key_of r) as [key|] eqn:Hkey; [|discriminate].
    assert (exists e, select p (d0 !! key) (norm (seq r)) = Ok e
                      /\ (p = All -> exists l, e = Many l)) as (e & He & HeAll).
    { destruct p; simpl; eauto; try (destruct (d0 !! key); eauto; fail);
        try (destruct (d0 !! key); eexists; split; eauto; discriminate).
      destruct (d0 !! key) as [e0|] eqn:E; [|eauto].
      destruct (Hinv eq_refl _ _ E) as [l ->]. eauto. }
    assert (record_step p key_of norm d0 r = Ok (<[key := e]> d0)) as ->.
    { unfold record_step. rewrite Hkey. simpl. by rewrite He. }
    simpl. apply IH; [assumption|].
    intros HAll k e' Hk. destruct (decide (key = k)) as [->|Hne].
    + rewrite lookup_insert_eq in Hk. inversion Hk; subst. auto.
    + rewrite lookup_insert_ne in Hk by assumption. eauto.
Qed.
End Loop.

Lemma first_shortest_snoc m pre s :
  first_shortest m pre ->
  first_shortest (if String.length s <? String.length m then s else m) (pre ++ [s]).
Proof.
  intros (l1 & l2 & -> & H1 & H2).
  destruct (String.length s <? String.length m) eqn:E.
  - apply Nat.ltb_lt in E. exists (l1 ++ m :: l2), []. split; [reflexivity|].
    split; [|constructor].
    apply Forall_app; split; [|constructor; [assumption|]];
      eapply Forall_impl; eauto; simpl; intros; lia.
  - apply Nat.ltb_ge in E. exists l1, (l2 ++ [s]).
    split; [by rewrite <- app_assoc|]. split; [assumption|].
    apply Forall_app; split; [assumption|]. by repeat constructor.
Qed.

Lemma first_longest_snoc m pre s :
  first_longest m pre ->
  first_longest (if String.length m <? String.length s then s else m) (pre ++ [s]).
Proof.
  intros (l1 & l2 & -> & H1 & H2).
  destruct (String.length m <? String.length s) eqn:E.
  - apply Nat.ltb_lt in E. exists (l1 ++ m :: l2), []. split; [reflexivity|].
    split; [|constructor].
    apply Forall_app; split; [|constructor; [assumption|]];
      eapply Forall_impl; eauto; simpl; intros; lia.
  - apply Nat.ltb_ge in E. exists l1, (l2 ++ [s]).
    split; [by rewrite <- app_assoc|]. split; [assumption|].
    apply Forall_app; split; [assumption|]. by repeat constructor.
Qed.

Lemma fold_shortest l : forall pre m,
  first_shortest m pre ->
  exists m', fold_select Shortest (Some (One m)) l = Ok (Some (One m'))
             /\ first_shortest m' (pre ++ l).
Proof.
  induction l as [|s l IH]; intros pre m Hm; simpl.
  - rewrite app_nil_r. eauto.
  - pose proof (first_shortest_snoc _ _ s Hm) as Hs.
    destruct (String.length s <? String.length m);
      destruct (IH _ _ Hs) as (m' & -> & Hm'); exists m';
      (split; [reflexivity|]); by rewrite <- app_assoc in Hm'.
Qed.

Lemma fold_longest l : forall pre m,
  first_longest m pre ->
  exists m', fold_select Longest (Some (One m)) l = Ok (Some (One m'))
             /\ first_longest m' (pre ++ l).
Proof.
  induction l as [|s l IH]; intros pre m Hm; simpl.
  - rewrite app_nil_r. eauto.
  - pose proof (first_longest_snoc _ _ s Hm) as Hs.
    destruct (String.length m <? String.length s);
      destruct (IH _ _ Hs) as (m' & -> & Hm'); exists m';
      (split; [reflexivity|]); by rewrite <- app_assoc in Hm'.
Qed.

Lemma fold_all l : forall pre,
  fold_select All (Some (Many pre)) l = Ok (Some (Many (pre ++ l))).
Proof.
  induction l as [|s l IH]; intros pre; simpl.
  - by rewrite app_nil_r.
  - rewrite IH. by rewrite <- app_assoc.
Qed.

Lemma fold_last l : forall o,
  fold_select LastSeen o l = Ok (match last l with Some s => Some (One s) | None => o end).
Proof.
  induction l as [|s l IH]; intros o; simpl; [reflexivity|].
  rewrite IH, (last_cons s). by destruct (last l).
Qed.

(** From the empty dict, the entry of a key follows the policy. *)
Lemma fold_follows_policy (import_sequences : string) seqs e :
  seqs <> [] ->
  fold_select (policy_of import_sequences) None seqs = Ok e ->
  follows_policy import_sequences seqs e.
Proof.
  intros Hne H. destruct seqs as [|s l]; [done|]. clear Hne.
  unfold follows_policy, policy_of in *.
  repeat split; intros ->; simpl in H.
  - assert (first_shortest s [s]) as H0 by (exists [], []; repeat constructor).
    destruct (fold_shortest l _ _ H0) as (m & Hm & Hfs).
    rewrite Hm in H. inversion H; subst. eauto.
  - assert (first_longest s [s]) as H0 by (exists [], []; repeat constructor).
    destruct (fold_longest l _ _ H0) as (m & Hm & Hfs).
    rewrite Hm in H. inversion H; subst. eauto.
  - rewrite fold_all in H. by inversion H.
Qed.

Lemma fold_select_nil p e : fold_select p None [] = Ok e -> e = None.
Proof. simpl. by inversion 1. Qed.

Lemma loop_resolved_by_policy (import_sequences : string) key_of norm records d :
  for_each (record_step (policy_of import_sequences) key_of norm) records ∅ = Ok d ->
  resolved_by_policy import_sequences key_of norm records d.
Proof.
  intros H k. pose proof (loop_lookup _ _ _ _ _ _ k H) as Hk.
  rewrite lookup_empty in Hk. cbv zeta. split.
  - intros E. rewrite E in Hk. by apply (fold_select_nil _ _ Hk).
  - intros Hne. by apply fold_follows_policy.
Qed.

Lemma loop_resolved_by_last key_of norm records d :
  for_each (record_step LastSeen key_of norm) records ∅ = Ok d ->
  resolved_by_last key_of norm records d.
Proof.
  intros H k. pose proof (loop_lookup _ _ _ _ _ _ k H) as Hk.
  rewrite lookup_empty, fold_last in Hk. injection Hk as Hd. rewrite <- Hd.
  by destruct (last _).
Qed.

Lemma GENCODE_get_sequences_ok (self : GENCODE) omic index records :
  (omic = "GE" /\ gencode_file_resources self !! "transcripts.fa" = Some records
   \/ omic = "LNC" /\ gencode_file_resources self !! "lncRNA_transcripts.fa" = Some records) ->
  GENCODE_get_sequences self omic index
  = for_each (record_step (GENCODE_policy self index) (fun r => GENCODE_key index (id r))
                (normalise (gencode_replace_U2T self))) records ∅.
Proof.
  intros H. unfold GENCODE_get_sequences, dict_getitem.
  destruct H as [[-> ->]|[-> ->]]; simpl;
    apply for_each_ext; intros; apply GENCODE_record_step.
Qed.

End Sequences.

(** C9 (as amended).  For a stream in which several records collapse to one
    identifier, both resolvers return a mapping.  [MirBase.get_sequences],
    for any identifier space, and [GENCODE.get_sequences], when the
    identifier space mentions "gene" ([gene_id], [gene_name]), give each
    identifier: under "shortest" the first sequence of minimal length, under
    "longest" the first sequence of maximal length, under "all" the list of
    all its sequences in stream order.  For the other identifier spaces
    ([transcript_id], [transcript_name]) GENCODE keeps the sequence of the
    record seen last, whatever the policy. *)
Theorem get_sequences_selection_policy :
  (forall (self : annotation.GENCODE) (omic index : string)
          (records : list annotation.SeqRecord),
      (omic = "GE"
         /\ annotation.gencode_file_resources self !! "transcripts.fa" = Some records
       \/ omic = "LNC"
         /\ annotation.gencode_file_resources self !! "lncRNA_transcripts.fa" = Some records) ->
      Forall (fun r => is_ok (annotation.GENCODE_key index (annotation.id r)) = true) records ->
      exists d, annotation.GENCODE_get_sequences self omic index = Ok d
        /\ (contains "gene" index = true ->
              Spec.resolved_by_policy (annotation.gencode_import_sequences self)
                (fun r => annotation.GENCODE_key index (annotation.id r))
                (Spec.normalise (annotation.gencode_replace_U2T self)) records d)
        /\ (contains "gene" index = false ->
              Spec.resolved_by_last
                (fun r => annotation.GENCODE_key index (annotation.id r))
                (Spec.normalise (annotation.gencode_replace_U2T self)) records d))
  /\ (forall (self : annotation.MirBase) (omic index : string)
             (records : list annotation.SeqRecord),
      annotation.mirbase_file_resources self !! "hairpin.fa" = Some records ->
      exists d, annotation.MirBase_get_sequences self omic index = Ok d
        /\ Spec.resolved_by_policy (annotation.mirbase_import_sequences self)
              (fun r => Ok (annotation.id r))
              (Spec.normalise (annotation.mirbase_replace_U2T self)) records d).
Proof.
  split.
  - intros self omic index records Hfile Hkeys.
    rewrite (GENCODE_get_sequences_ok _ _ _ _ Hfile).
    destruct (loop_ok (Spec.GENCODE_policy self index)
                (fun r => annotation.GENCODE_key index (annotation.id r))
                (Spec.normalise (annotation.gencode_replace_U2T self)) records ∅ Hkeys)
      as [d Hd].
    { intros _ k e. by rewrite lookup_empty. }
    exists d. split; [assumption|]. unfold Spec.GENCODE_policy in Hd.
    split; intros Hgene; rewrite Hgene in Hd.
    + by apply loop_resolved_by_policy.
    + by apply loop_resolved_by_last.
  - intros self omic index records Hfile.
    unfold annotation.MirBase_get_sequences, dict_getitem. rewrite Hfile. simpl.
    rewrite (for_each_ext _ _ _ _ (MirBase_record_step self)).
    destruct (loop_ok (Spec.policy_of (annotation.mirbase_import_sequences self))
                (fun r => Ok (annotation.id r))
                (Spec.normalise (annotation.mirbase_replace_U2T self)) records ∅)
      as [d Hd].
    { by apply Forall_forall. }
    { intros _ k e. by rewrite lookup_empty. }
    exists d. split; [assumption|]. by apply loop_resolved_by_policy.
Qed.

Lemma get_sequences_selection_policy_witness :
  exists d, annotation.GENCODE_get_sequences (Examples.gencode "shortest") "GE" "gene_id" = Ok d
    /\ (contains "gene" "gene_id" = true ->
          Spec.resolved_by_policy "shortest"
            (fun r => annotation.GENCODE_key "gene_id" (annotation.id r))
            (Spec.normalise true) Examples.transcripts d)
    /\ (contains "gene" "gene_id" = false ->
          Spec.resolved_by_last
            (fun r => annotation.GENCODE_key "gene_id" (annotation.id r))
            (Spec.normalise true) Examples.transcripts d).
Proof.
  apply (proj1 get_sequences_selection_policy (Examples.gencode "shortest")
           "GE" "gene_id" Examples.transcripts).
  - left. split; reflexivity.
  - repeat constructor.
Defined.

(** C9 as stated fails: with the identifier space [transcript_id] and the
    policy "shortest", the two versions of ENST02 arrive with lengths 3 and
    8, and GENCODE keeps the one seen last, of length 8. *)
Lemma GENCODE_transcript_space_ignores_policy :
  let records := [ {| annotation.id := "ENST02.2|ENSG7.2|OTT1|OTT3|G7-202|G7|3|";
                      annotation.seq := "ACG" |};
                   {| annotation.id := "ENST02.1|ENSG7.2|OTT1|OTT3|G7-202|G7|8|";
                      annotation.seq := "ACGTACGT" |} ] in
  let self := {| annotation.gencode_file_resources := {[ "transcripts.fa" := records ]};
                 annotation.gencode_import_sequences := "shortest";
                 annotation.gencode_replace_U2T := true |} in
  exists d, annotation.GENCODE_get_sequences self "GE" "transcript_id" = Ok d
    /\ d !! "ENST02" = Some (annotation.One "ACGTACGT")
    /\ ~ Spec.resolved_by_policy "shortest"
          (fun r => annotation.GENCODE_key "transcript_id" (annotation.id r))
          (Spec.normalise true) records d.
Proof.
  intros records self. eexists. split; [vm_compute; reflexivity|].
  split; [vm_compute; reflexivity|].
  intros H. destruct (H "ENST02") as [_ Hp].
  destruct Hp as [Hs _]; [discriminate|].
  destruct (Hs eq_refl) as (s & Hd & (l1 & l2 & Hl & H1 & _)).
  vm_compute in Hd. injection Hd as <-.
  vm_compute in Hl.
  destruct l1 as [|a l1]; [discriminate|].
  injection Hl as <- Hl.
  inversion H1 as [|? ? Hlt _]; subst. vm_compute in Hlt. lia.
Qed.

(** ** Lists, positions and traversals *)

Section Lists.

Lemma position_Some `{EqDecision A} (x : A) (l : list A) (i : nat) :
  position x l = Some i ->
  exists l1 l2, l = l1 ++ x :: l2 /\ (x ∉ l1) /\ length l1 = i.
Proof.
  revert i. induction l as [|y l IH]; intros i H; simpl in H; [discriminate|].
  destruct (decide (y = x)) as [->|Hne].
  - injection H as <-. exists [], l. repeat split. apply not_elem_of_nil.
  - destruct (position x l) as [j|] eqn:E; [|discriminate].
    injection H as <-. destruct (IH j eq_refl) as (l1 & l2 & -> & Hni & Hlen).
    exists (y :: l1), l2. repeat split; [|simpl; congruence].
    intros Hin. apply elem_of_cons in Hin as [?|?]; congruence.
Qed.

Lemma position_None `{EqDecision A} (x : A) (l : list A) :
  position x l = None <-> x ∉ l.
Proof.
  induction l as [|y l IH]; simpl.
  - split; [intros _; apply not_elem_of_nil | reflexivity].
  - destruct (decide (y = x)) as [->|Hne].
    + split; [discriminate|]. intros H. exfalso. apply H. left.
    + destruct (position x l) eqn:E; simpl.
      * split; [discriminate|]. intros H. exfalso.
        assert (x ∉ l) as Hni by (intros ?; apply H; by right).
        apply IH in Hni. discriminate.
      * split; [|reflexivity]. intros _ Hin.
        apply elem_of_cons in Hin as [?|Hin]; [congruence|].
        by apply (proj1 IH).
Qed.

Lemma position_is_Some `{EqDecision A} (x : A) (l : list A) :
  x ∈ l -> exists i, position x l = Some i /\ l !! i = Some x.
Proof.
  intros Hin. destruct (position x l) as [i|] eqn:E.
  - exists i. split; [reflexivity|].
    destruct (position_Some _ _ _ E) as (l1 & l2 & -> & _ & <-).
    by rewrite list_lookup_middle.
  - apply position_None in E. contradiction.
Qed.

Lemma position_delete `{EqDecision A} (x : A) (l : list A) (i : nat) :
  position x l = Some i ->
  exists l1 l2, l = l1 ++ x :: l2 /\ (x ∉ l1) /\ delete i l = l1 ++ l2.
Proof.
  intros H. destruct (position_Some _ _ _ H) as (l1 & l2 & -> & Hni & <-).
  exists l1, l2. split; [reflexivity|]. split; [assumption|].
  clear. induction l1 as [|a l1 IH]; simpl; [reflexivity|]. by f_equal.
Qed.

Lemma unique_from_elem `{EqDecision A} (l : list A) : forall seen x,
  x ∈ unique_from seen l <-> x ∈ l /\ x ∉ seen.
Proof.
  induction l as [|y l IH]; intros seen x; simpl.
  - split; [intros H; by apply elem_of_nil in H | intros [H _]; by apply elem_of_nil in H].
  - destruct (decide (y ∈ seen)) as [Hy|Hy].
    + rewrite IH. split.
      * intros [? ?]. split; [by right | assumption].
      * intros [Hin Hni]. split; [|assumption].
        apply elem_of_cons in Hin as [->|?]; [contradiction | assumption].
    + rewrite elem_of_cons, IH. split.
      * intros [->|[Hin Hni]]; [split; [left | assumption]|].
        split; [by right|]. intros ?. apply Hni. by right.
      * intros [Hin Hni]. apply elem_of_cons in Hin as [->|Hin]; [by left|].
        destruct (decide (x = y)) as [->|Hne]; [by left|]. right.
        split; [assumption|]. intros Hc.
        apply elem_of_cons in Hc as [?|?]; contradiction.
Qed.

Lemma unique_from_NoDup `{EqDecision A} (l : list A) : forall seen,
  NoDup (unique_from seen l).
Proof.
  induction l as [|y l IH]; intros seen; simpl; [constructor|].
  destruct (decide (y ∈ seen)); [apply IH|].
  constructor; [|apply IH].
  rewrite unique_from_elem. intros [_ H]. apply H. left.
Qed.

Lemma unique_elem `{EqDecision A} (l : list A) x : x ∈ unique l <-> x ∈ l.
Proof.
  unfold unique. rewrite unique_from_elem. split; [by intros [? _]|].
  intros H. split; [assumption | apply not_elem_of_nil].
Qed.

Lemma unique_NoDup `{EqDecision A} (l : list A) : NoDup (unique l).
Proof. apply unique_from_NoDup. Qed.

Lemma unique_from_id `{EqDecision A} (l : list A) : forall seen,
  NoDup l -> (forall x, x ∈ l -> x ∉ seen) -> unique_from seen l = l.
Proof.
  induction l as [|y l IH]; intros seen Hnd Hseen; simpl; [reflexivity|].
  inversion Hnd as [|? ? Hy Hl]; subst.
  destruct (decide (y ∈ seen)) as [Hin|_].
  - exfalso. apply (Hseen y); [left | assumption].
  - f_equal. apply IH; [assumption|]. intros x Hx Hc.
    apply elem_of_cons in Hc as [->|Hc]; [contradiction|].
    apply (Hseen x); [by right | assumption].
Qed.

Lemma unique_id `{EqDecision A} (l : list A) : NoDup l -> unique l = l.
Proof. intros H. apply unique_from_id; [assumption|]. intros; apply not_elem_of_nil. Qed.

Lemma traverse_Forall2 {A B} (f : A -> result B) (l : list A) (l' : list B) :
  traverse f l = Ok l' -> Forall2 (fun x y => f x = Ok y) l l'.
Proof.
  revert l'. induction l as [|x l IH]; intros l' H; simpl in H.
  - injection H as <-. constructor.
  - apply bind_ok in H as (y & Hy & H). apply bind_ok in H as (ys & Hys & H).
    injection H as <-. constructor; auto.
Qed.

Lemma traverse_total {A B} (f : A -> result B) (l : list A) :
  (forall x, x ∈ l -> exists y, f x = Ok y) -> exists l', traverse f l = Ok l'.
Proof.
  induction l as [|x l IH]; intros H; simpl; [eauto|].
  destruct (H x) as [y ->]; [left|]. simpl.
  destruct IH as [l' ->]; [intros; apply H; by right|]. simpl. eauto.
Qed.

Lemma traverse_fmap {A B C} (f : A -> result B) (g : B -> C) (h : A -> C) l l' :
  traverse f l = Ok l' -> (forall x y, f x = Ok y -> g y = h x) -> g <$> l' = h <$> l.
Proof.
  intros H Hg. apply traverse_Forall2 in H.
  induction H as [|x y l l' Hxy _ IH]; simpl; [reflexivity|].
  f_equal; auto.
Qed.

Lemma has_columns_spec (df : DataFrame) (cols : list string) :
  has_columns df cols = true <-> forall c, c ∈ cols -> c ∈ columns df.
Proof.
  unfold has_columns. rewrite forallb_forall. split.
  - intros H c Hc. apply list_elem_of_In in Hc. apply H in Hc.
    by apply bool_decide_eq_true in Hc.
  - intros H c Hc. apply list_elem_of_In in Hc. apply bool_decide_eq_true. auto.
Qed.

End Lists.

(** ** The list [columns] *)

Lemma popped_position (x : string) (l : list string) :
  Spec.popped x l (match position x l with Some i => delete i l | None => l end).
Proof.
  destruct (position x l) as [i|] eqn:E.
  - destruct (position_delete _ _ _ E) as (l1 & l2 & Hl & Hni & Hd). split.
    + intros _. split; [|eauto]. rewrite Hd, Hl, !length_app. simpl. lia.
    + intros Hni'. exfalso. apply Hni'. rewrite Hl.
      apply elem_of_app. right. left.
  - apply position_None in E. split; [contradiction | reflexivity].
Qed.

(** C10 (as amended).  A call of [Dataset.get_annotations(index, columns)]
    that passes the guard of [base.py] (every entry of [columns] is a column
    of the table), and every call of the [annotation.py] version, removes
    the first entry [index] from the caller's list in place when there is
    one (the list is one element shorter) and leaves the list as it is
    otherwise. *)
Theorem get_annotations_pops_index :
  forall (index : string) (columns : list string),
    (forall named_reduction (self : base.Dataset) (agg : string),
        has_columns (base.data self) columns = true ->
        Spec.popped index columns
          (base.get_annotations named_reduction self index columns agg).1)
    /\ (forall self : annotation.Dataset,
          exists after,
            (annotation.get_annotations self index (Some columns)).1 = Some after
            /\ Spec.popped index columns after).
Proof.
  intros index columns. split.
  - intros nr self agg Hcols. unfold base.get_annotations. rewrite Hcols. simpl.
    apply popped_position.
  - intros self. unfold annotation.get_annotations.
    pose proof (popped_position index columns) as Hp.
    destruct (position index columns); simpl; eauto.
Qed.

Lemma get_annotations_pops_index_witness :
  Spec.popped "gene_id" ["go_id"; "gene_id"]
    (base.get_annotations Examples.no_reduction {| base.data := Examples.go_table |}
       "gene_id" ["go_id"; "gene_id"] "concat").1.
Proof.
  apply (proj1 (get_annotations_pops_index "gene_id" ["go_id"; "gene_id"])).
  reflexivity.
Defined.

(** C10 as stated fails in [base.py]: when an entry of [columns] is no
    column of the table the guard raises before the pop, and the list keeps
    its entry [index]. *)
Lemma get_annotations_guard_keeps_list :
  let columns := ["gene_id"; "go_term"] in
  let call := base.get_annotations Examples.no_reduction
                {| base.data := Examples.go_table |} "gene_id" columns "concat" in
  "gene_id" ∈ columns /\ call = (columns, Raise Exception)
  /\ ~ Spec.popped "gene_id" columns call.1.
Proof.
  intros columns call. split; [left|]. split; [reflexivity|].
  intros [H _]. destruct H as [Hlen _]; [left|]. vm_compute in Hlen. lia.
Qed.

(** ** Aggregation *)

Section Aggregation.

Lemma pick_position cols c cells p :
  position c cols = Some p -> pick cols c cells = default NaN (cells !! p).
Proof. unfold pick. by intros ->. Qed.

Lemma pick_fmap cols0 cols c cells :
  c ∈ cols -> pick cols c ((fun c => pick cols0 c cells) <$> cols) = pick cols0 c cells.
Proof.
  intros Hin. destruct (position_is_Some _ _ Hin) as (p & Hp & Hl).
  rewrite (pick_position _ _ _ _ Hp), list_lookup_fmap, Hl. reflexivity.
Qed.

Lemma column_getitem df cols df' c :
  getitem_columns df cols = Ok df' -> c ∈ cols -> column df' c = column df c.
Proof.
  unfold getitem_columns. destruct (has_columns df cols); [|discriminate].
  intros H Hin. injection H as <-. unfold column. simpl.
  rewrite <- list_fmap_compose. apply list_fmap_ext. intros i r _. simpl.
  by apply pick_fmap.
Qed.

Lemma column_filter_items df items c :
  c ∈ items -> c ∈ columns df -> column (filter_items df items) c = column df c.
Proof.
  intros Hi Hc. unfold column, filter_items. simpl.
  rewrite <- list_fmap_compose. apply list_fmap_ext. intros i r _. simpl.
  apply pick_fmap. apply list_elem_of_filter. auto.
Qed.

Lemma is_key_single c x : is_key [Some c] x = bool_decide (x = c).
Proof.
  unfold is_key. apply bool_decide_ext. rewrite list_elem_of_singleton.
  split; congruence.
Qed.

Lemma set_index_single df c :
  c ∈ columns df -> exists df', set_index df [Some c] = Ok df'
    /\ multi df' = false /\ names df' = [Some c]
    /\ columns df' = filter (fun x => is_key [Some c] x = false) (columns df)
    /\ index_values df' = column df c
    /\ nrows df' = nrows df.
Proof.
  intros Hc. unfold set_index. simpl.
  rewrite (bool_decide_eq_true_2 _ Hc). simpl.
  eexists. split; [reflexivity|]. simpl. repeat split.
  - unfold index_values, column. simpl. rewrite <- list_fmap_compose.
    by apply list_fmap_ext.
  - unfold nrows. simpl. by rewrite length_fmap.
Qed.

Lemma resolve_key_level df c :
  position c (columns df) = None -> multi df = false -> names df = [Some c] ->
  resolve_key df c = Ok (index_values df).
Proof.
  intros Hp _ Hn. unfold resolve_key. rewrite Hp, Hn. simpl.
  destruct (decide (Some c = Some c)); [|congruence]. simpl.
  f_equal. unfold index_values. apply list_fmap_ext. intros i r _.
  by destruct (r.1).
Qed.

Lemma resolve_key_column df c :
  c ∈ columns df -> Some c ∉ names df -> resolve_key df c = Ok (column df c).
Proof.
  intros Hc Hn. unfold resolve_key.
  destruct (position_is_Some _ _ Hc) as (p & Hp & _). rewrite Hp.
  apply position_None in Hn. rewrite Hn. f_equal. unfold column.
  apply list_fmap_ext. intros i r _. by rewrite (pick_position _ _ _ _ Hp).
Qed.

Lemma group_keys_NoDup keys : NoDup (group_keys keys).
Proof.
  unfold group_keys, sort_values. rewrite merge_sort_Permutation.
  apply unique_NoDup.
Qed.

Lemma group_keys_elem keys v :
  v ∈ group_keys keys <-> v ∈ keys /\ v <> NaN.
Proof.
  unfold group_keys, sort_values.
  rewrite merge_sort_Permutation, unique_elem, list_elem_of_filter.
  split; intros [H1 H2]; split; try assumption.
  - by destruct v.
  - by destruct v.
Qed.

Lemma group_keys_length keys : length (group_keys keys) = Spec.distinct_non_null keys.
Proof.
  unfold Spec.distinct_non_null. apply Permutation_length, NoDup_Permutation.
  - apply group_keys_NoDup.
  - apply NoDup_remove_dups.
  - intros v. rewrite group_keys_elem, elem_of_remove_dups, list_elem_of_filter.
    split; intros [H1 H2]; split; try assumption; by destruct v.
Qed.

(** [agg] with a dict returns what the reduction of its columns returns;
    it raises on an empty dict. *)
Lemma groupby_agg_reduce df by_ spec out :
  groupby_agg df by_ spec = Ok out -> reduce_groups df by_ spec = Ok out.
Proof.
  unfold groupby_agg. destruct spec; [|done].
  intros H. apply bind_ok in H as (? & _ & H). discriminate.
Qed.

Lemma groupby_agg_some df by_ spec :
  spec <> [] -> groupby_agg df by_ spec = reduce_groups df by_ spec.
Proof. unfold groupby_agg. by destruct spec. Qed.

(** What [groupby(...).agg(...)] returns, when it returns. *)
Lemma reduce_groups_shape df by_ spec keys out :
  resolve_key df by_ = Ok keys ->
  reduce_groups df by_ spec = Ok out ->
  multi out = false /\ names out = [Some by_] /\ columns out = spec.*1
  /\ index_values out = group_keys keys
  /\ index_entries out = (fun k => [k]) <$> group_keys keys.
Proof.
  intros Hk H. unfold reduce_groups in H. rewrite Hk in H. simpl in H.
  destruct (has_columns df spec.*1); [|discriminate].
  apply bind_ok in H as (rs & Hrs & H). injection H as <-. simpl.
  repeat split.
  - unfold index_values. simpl.
    transitivity (id <$> group_keys keys); [|apply list_fmap_id].
    apply (traverse_fmap _ _ _ _ _ Hrs).
    intros k r Hr. apply bind_ok in Hr as (cells & _ & Hr). by injection Hr as <-.
  - unfold index_entries. simpl. apply (traverse_fmap _ _ _ _ _ Hrs).
    intros k r Hr. apply bind_ok in Hr as (cells & _ & Hr). by injection Hr as <-.
Qed.

Lemma groupby_agg_shape df by_ spec keys out :
  resolve_key df by_ = Ok keys ->
  groupby_agg df by_ spec = Ok out ->
  multi out = false /\ names out = [Some by_] /\ columns out = spec.*1
  /\ index_values out = group_keys keys
  /\ index_entries out = (fun k => [k]) <$> group_keys keys.
Proof. intros Hk H. apply groupby_agg_reduce in H. by eapply reduce_groups_shape. Qed.

Lemma reduce_groups_indexed df by_ spec keys out :
  resolve_key df by_ = Ok keys ->
  reduce_groups df by_ spec = Ok out ->
  Spec.indexed_by_distinct keys out.
Proof.
  intros Hk H. destruct (reduce_groups_shape _ _ _ _ _ Hk H) as (_ & _ & _ & Hv & He).
  unfold Spec.indexed_by_distinct. rewrite Hv, He.
  split; [|split; [|split]].
  - apply NoDup_fmap_2; [|apply group_keys_NoDup]. intros x y; congruence.
  - apply group_keys_NoDup.
  - unfold nrows. rewrite <- (length_fmap fst). fold (index_entries out).
    rewrite He, length_fmap. apply group_keys_length.
  - intros v. apply group_keys_elem.
Qed.

Lemma groupby_agg_indexed df by_ spec keys out :
  resolve_key df by_ = Ok keys ->
  groupby_agg df by_ spec = Ok out ->
  Spec.indexed_by_distinct keys out.
Proof. intros Hk H. apply groupby_agg_reduce in H. by eapply reduce_groups_indexed. Qed.

Lemma reduce_groups_ok df by_ spec keys :
  resolve_key df by_ = Ok keys ->
  has_columns df spec.*1 = true ->
  (forall cf l, cf ∈ spec -> is_ok (cf.2 l) = true) ->
  exists out, reduce_groups df by_ spec = Ok out.
Proof.
  intros Hk Hc Hf. unfold reduce_groups. rewrite Hk, Hc. simpl.
  destruct (traverse_total
    (fun k => cells ← traverse (fun cf => cf.2 (group_values df keys k cf.1)) spec;
              Ok ([k], cells)) (group_keys keys)) as [rs ->]; [|simpl; eauto].
  intros k _.
  destruct (traverse_total (fun cf => cf.2 (group_values df keys k cf.1)) spec)
    as [cells ->]; [|simpl; eauto].
  intros cf Hcf. specialize (Hf cf (group_values df keys k cf.1) Hcf).
  destruct (cf.2 _); [eauto | discriminate].
Qed.

Lemma groupby_agg_ok df by_ spec keys :
  spec <> [] ->
  resolve_key df by_ = Ok keys ->
  has_columns df spec.*1 = true ->
  (forall cf l, cf ∈ spec -> is_ok (cf.2 l) = true) ->
  exists out, groupby_agg df by_ spec = Ok out.
Proof. intros Hne. rewrite (groupby_agg_some _ _ _ Hne). apply reduce_groups_ok. Qed.

Lemma index_name_in_names df c : index_name df = Some c -> Some c ∈ names df.
Proof.
  unfold index_name. destruct (multi df); [discriminate|].
  destruct (names df) as [|[n|] ns]; simpl; try discriminate.
  intros H. injection H as ->. left.
Qed.

Lemma set_index_resolve_key df c :
  c ∈ columns df -> exists df', set_index df [Some c] = Ok df'
    /\ resolve_key df' c = Ok (column df c)
    /\ multi df' = false /\ names df' = [Some c]
    /\ columns df' = filter (fun x => is_key [Some c] x = false) (columns df)
    /\ nrows df' = nrows df.
Proof.
  intros Hc. destruct (set_index_single df c Hc) as (df' & H & Hm & Hn & Hcols & Hv & Hr).
  exists df'. repeat split; try assumption.
  rewrite <- Hv. apply resolve_key_level; try assumption.
  apply position_None. rewrite Hcols, list_elem_of_filter, is_key_single.
  intros [Hk _]. by rewrite bool_decide_eq_true_2 in Hk.
Qed.

Lemma groupby_aggregate_indexed nr df by_ how keys out :
  resolve_key df by_ = Ok keys ->
  groupby_aggregate nr df by_ how = Ok out ->
  Spec.indexed_by_distinct keys out /\ multi out = false /\ names out = [Some by_].
Proof.
  intros Hk H. unfold groupby_aggregate in H. destruct (nr how); [|discriminate].
  split; [by eapply reduce_groups_indexed|].
  destruct (reduce_groups_shape _ _ _ _ _ Hk H) as (? & ? & _). auto.
Qed.

(** The frame [base.get_annotations] groups: [index] has become its index,
    with the values the key column has in [self.data]. *)
Lemma base_grouped_frame (self : base.Dataset) index columns df1 :
  getitem_columns (base.data self) (columns ++ [index]) = Ok df1 ->
  (if bool_decide (Some index ≠ index_name (base.data self))
      && bool_decide (index ∈ pd.columns (base.data self))
   then exists df2, set_index df1 [Some index] = Ok df2
          /\ resolve_key df2 index = Ok (column (base.data self) index)
          /\ pd.columns df2
              = filter (fun x => is_key [Some index] x = false) (columns ++ [index])
   else resolve_key df1 index = Raise ValueError).
Proof.
  intros H1.
  assert (index ∈ pd.columns df1) as Hin1.
  { unfold getitem_columns in H1. destruct (has_columns _ _); [|discriminate].
    injection H1 as <-. simpl. apply elem_of_app. right. left. }
  assert (index ∈ pd.columns (base.data self)) as Hin0.
  { unfold getitem_columns in H1.
    destruct (has_columns _ _) eqn:E; [|discriminate].
    apply (proj1 (has_columns_spec _ _) E). apply elem_of_app. right. left. }
  assert (names df1 = names (base.data self) /\ pd.columns df1 = columns ++ [index])
    as [Hn1 Hc1].
  { unfold getitem_columns in H1. destruct (has_columns _ _); [|discriminate].
    by injection H1 as <-. }
  rewrite (bool_decide_eq_true_2 _ Hin0), andb_true_r.
  destruct (bool_decide (Some index ≠ index_name (base.data self))) eqn:E.
  - destruct (set_index_resolve_key df1 index Hin1) as (df2 & H2 & Hk & _ & _ & Hc & _).
    exists df2. split; [assumption|]. split; [|by rewrite Hc, Hc1].
    rewrite Hk. f_equal. eapply column_getitem; [eassumption|].
    apply elem_of_app. right. left.
  - apply bool_decide_eq_false in E.
    assert (index_name (base.data self) = Some index) as Hname.
    { destruct (decide (Some index = index_name (base.data self))); [done|].
      exfalso. by apply E. }
    apply index_name_in_names in Hname. rewrite <- Hn1 in Hname.
    unfold resolve_key.
    destruct (position_is_Some _ _ Hin1) as (p & -> & _).
    destruct (position_is_Some _ _ Hname) as (q & -> & _). reflexivity.
Qed.

(** Whatever [base.get_annotations] returns is indexed by the distinct
    non-missing values of the key column. *)
Lemma base_get_annotations_indexed nr (self : base.Dataset) index columns agg out :
  (base.get_annotations nr self index columns agg).2 = Ok out ->
  Spec.indexed_by_distinct (column (base.data self) index) out
  /\ multi out = false /\ names out = [Some index].
Proof.
  unfold base.get_annotations.
  destruct (negb (has_columns (base.data self) columns)); [discriminate|]. simpl.
  set (columns' := match position index columns with
                   | Some i => delete i columns | None => columns end).
  intros H. apply bind_ok in H as (df1 & H1 & H).
  apply bind_ok in H as (df2 & H2 & H).
  pose proof (base_grouped_frame self index columns' df1 H1) as Hg.
  destruct (bool_decide (Some index ≠ index_name (base.data self))
            && bool_decide (index ∈ pd.columns (base.data self))).
  - destruct Hg as (df2' & H2' & Hk & _). rewrite H2' in H2. injection H2 as <-.
    destruct (decide (agg = "concat")).
    + split; [by eapply groupby_agg_indexed|].
      destruct (groupby_agg_shape _ _ _ _ _ Hk H) as (? & ? & _). auto.
    + by eapply groupby_aggregate_indexed.
  - injection H2 as <-. exfalso.
    destruct (decide (agg = "concat")).
    + apply groupby_agg_reduce in H. unfold reduce_groups in H. by rewrite Hg in H.
    + unfold groupby_aggregate in H. destruct (nr agg); [|discriminate].
      unfold reduce_groups in H. by rewrite Hg in H.
Qed.

Lemma fmap_fst_pair {A B} (l : list A) (b : B) : ((fun a => (a, b)) <$> l).*1 = l.
Proof. rewrite <- list_fmap_compose. apply list_fmap_id. Qed.

Lemma popped_not_elem (x : string) (l : list string) :
  NoDup l -> x ∉ match position x l with Some i => delete i l | None => l end.
Proof.
  intros Hnd. destruct (position x l) as [i|] eqn:E.
  - destruct (position_delete _ _ _ E) as (l1 & l2 & -> & Hni & ->).
    apply NoDup_app in Hnd as (_ & Hd & Hnd2). inversion Hnd2; subst.
    intros Hin. apply elem_of_app in Hin as [?|?]; [contradiction | contradiction].
  - by apply position_None.
Qed.

Lemma popped_subseteq (x : string) (l : list string) c :
  c ∈ match position x l with Some i => delete i l | None => l end -> c ∈ l.
Proof.
  destruct (position x l) as [i|] eqn:E; [|done].
  destruct (position_delete _ _ _ E) as (l1 & l2 & -> & _ & ->).
  rewrite !elem_of_app, elem_of_cons. tauto.
Qed.

Lemma popped_keeps (x c : string) (l : list string) :
  c ∈ l -> c <> x ->
  c ∈ match position x l with Some i => delete i l | None => l end.
Proof.
  intros Hc Hne. destruct (position x l) as [i|] eqn:E; [|assumption].
  destruct (position_delete _ _ _ E) as (l1 & l2 & -> & _ & ->).
  rewrite elem_of_app in *. rewrite elem_of_cons in Hc. destruct Hc as [?|[?|?]]; tauto.
Qed.

Lemma fmap_unique_some {B} (f : string -> B) (c : string) (l : list string) :
  c ∈ l -> f <$> unique l <> [].
Proof.
  intros Hc Hnil. apply fmap_nil_inv in Hnil.
  apply (proj2 (unique_elem l c)) in Hc. rewrite Hnil in Hc. by apply elem_of_nil in Hc.
Qed.

(** Under its preconditions [base.get_annotations] returns a table. *)
Lemma base_get_annotations_ok nr (self : base.Dataset) index columns agg :
  has_columns (base.data self) columns = true ->
  NoDup columns ->
  (exists c, c ∈ columns /\ c <> index) ->
  index ∈ pd.columns (base.data self) ->
  Some index ≠ index_name (base.data self) ->
  (agg = "concat" \/ exists f, nr agg = Some f /\ forall l, is_ok (f l) = true) ->
  exists out, (base.get_annotations nr self index columns agg).2 = Ok out.
Proof.
  intros Hcols Hnd (c0 & Hc0 & Hne0) Hin Hname Hagg. unfold base.get_annotations.
  rewrite Hcols. cbn [negb snd].
  set (columns' := match position index columns with
                   | Some i => delete i columns | None => columns end).
  assert (index ∉ columns') as Hni by (by apply popped_not_elem).
  assert (forall c, c ∈ columns' -> c ∈ pd.columns (base.data self)) as Hsub.
  { intros c Hc. apply (proj1 (has_columns_spec _ _) Hcols).
    by eapply popped_subseteq. }
  assert (exists df1, getitem_columns (base.data self) (columns' ++ [index]) = Ok df1)
    as [df1 H1].
  { unfold getitem_columns.
    rewrite (proj2 (has_columns_spec _ (columns' ++ [index]))); [eauto|].
    intros c Hc. apply elem_of_app in Hc as [Hc|Hc]; [auto|].
    apply list_elem_of_singleton in Hc. by subst. }
  rewrite H1. cbn [mbind result_bind].
  pose proof (base_grouped_frame self index columns' df1 H1) as Hg.
  rewrite (bool_decide_eq_true_2 _ Hname), (bool_decide_eq_true_2 _ Hin) in Hg |- *.
  cbn [andb] in Hg |- *. destruct Hg as (df2 & -> & Hk & Hc2). cbn [mbind result_bind].
  destruct (decide (agg = "concat")) as [Hconcat|Hother].
  - eapply groupby_agg_ok; [|eassumption| |].
    + apply (fmap_unique_some _ c0). by apply popped_keeps.
    + rewrite fmap_fst_pair. apply has_columns_spec. intros c Hc.
      rewrite unique_elem in Hc. rewrite Hc2, list_elem_of_filter, is_key_single.
      split.
      * apply bool_decide_eq_false. by intros ->.
      * rewrite elem_of_app. left. exact Hc.
    + intros cf l Hcf. apply list_elem_of_fmap in Hcf as (c & -> & _). reflexivity.
  - destruct Hagg as [?|(f & Hf & Htot)]; [contradiction|].
    unfold groupby_aggregate. rewrite Hf.
    eapply reduce_groups_ok; [eassumption| |].
    + rewrite fmap_fst_pair. apply has_columns_spec. intros c Hc.
      by apply list_elem_of_filter in Hc as [_ ?].
    + intros cf l Hcf. apply list_elem_of_fmap in Hcf as (c & -> & _). apply Htot.
Qed.

Lemma resolve_key_key_values df key keys :
  resolve_key df key = Ok keys -> keys = Spec.key_values df key.
Proof.
  unfold resolve_key, Spec.key_values.
  destruct (position key (columns df)) as [p|] eqn:Ep;
    destruct (position (Some key) (names df)) as [l|] eqn:El; try discriminate.
  - intros H. injection H as <-. unfold column. apply list_fmap_ext.
    intros i r _. by rewrite (pick_position _ _ _ _ Ep).
  - intros H. by injection H as <-.
Qed.

Lemma has_duplicates_false df : NoDup (index_entries df) -> has_duplicates df = false.
Proof. intros H. unfold has_duplicates. by rewrite (bool_decide_eq_true_2 _ H). Qed.

Lemma has_duplicates_true df : ~ NoDup (index_entries df) -> has_duplicates df = true.
Proof. intros H. unfold has_duplicates. by rewrite (bool_decide_eq_false_2 _ H). Qed.

Lemma annotation_selected_facts (self : annotation.Dataset) index columns :
  let d1 := (Spec.annotation_selected self index columns).1 in
  names d1 = names (annotation.df self)
  /\ (index ∈ pd.columns (annotation.df self) ->
        index ∈ pd.columns d1 /\ column d1 index = column (annotation.df self) index)
  /\ (forall c, c ∈ pd.columns d1 -> c ∈ pd.columns (annotation.df self))
  /\ (forall c, c ∈ columns -> c ∈ pd.columns (annotation.df self) -> c ∈ pd.columns d1)
  /\ (fst <$> rows d1) = (fst <$> rows (annotation.df self)).
Proof.
  unfold Spec.annotation_selected.
  assert (exists items, index ∈ items /\ (forall c, c ∈ columns -> c ∈ items)
            /\ (match position index columns with
                | Some i => (filter_items (annotation.df self) columns, delete i columns)
                | None => (filter_items (annotation.df self) (columns ++ [index]), columns)
                end).1 = filter_items (annotation.df self) items)
    as (items & Hidx & Hsub & ->).
  { destruct (position index columns) as [i|] eqn:E.
    - exists columns. repeat split; [|done].
      destruct (position_Some _ _ _ E) as (l1 & l2 & -> & _).
      rewrite elem_of_app. right. left.
    - exists (columns ++ [index]). repeat split.
      + rewrite elem_of_app. right. left.
      + intros c Hc. rewrite elem_of_app. by left. }
  cbv zeta. split; [reflexivity|]. split; [|split; [|split]].
  - intros Hin. split; [|by apply column_filter_items].
    unfold filter_items. simpl. by apply list_elem_of_filter.
  - intros c. unfold filter_items. simpl. rewrite list_elem_of_filter. tauto.
  - intros c Hc Hdf. unfold filter_items. simpl. apply list_elem_of_filter. auto.
  - unfold filter_items. simpl. rewrite <- list_fmap_compose. by apply list_fmap_ext.
Qed.

Lemma annotation_get_annotations_unfold (self : annotation.Dataset) index columns :
  annotation.get_annotations self index (Some columns)
  = (Some (Spec.annotation_selected self index columns).2,
     d ← (if bool_decide (Some index ≠ index_name (annotation.df self))
             && bool_decide (index ∈ pd.columns (annotation.df self))
          then set_index (Spec.annotation_selected self index columns).1 [Some index]
          else Ok (Spec.annotation_selected self index columns).1);
     d ← groupby_agg d index
           ((fun k => (k, concat_uniques_agg))
              <$> unique (Spec.annotation_selected self index columns).2);
     annotation.check_index_unique d).
Proof.
  unfold annotation.get_annotations, Spec.annotation_selected.
  by destruct (position index columns).
Qed.

Lemma resolve_key_same_index d1 d0 key :
  position key (pd.columns d1) = None -> position key (pd.columns d0) = None ->
  names d1 = names d0 -> (fst <$> rows d1) = (fst <$> rows d0) ->
  resolve_key d1 key = match position (Some key) (names d0) with
                       | Some _ => Ok (Spec.key_values d0 key)
                       | None => Raise KeyError
                       end.
Proof.
  intros H1 H0 Hn Hr. unfold resolve_key, Spec.key_values. rewrite H1, H0, Hn.
  destruct (position (Some key) (names d0)) as [l|]; [|reflexivity].
  f_equal.
  change (fun r : list value * list value => default NaN (r.1 !! l))
    with ((fun e : list value => default NaN (e !! l)) ∘ (@fst (list value) (list value))).
  by rewrite !list_fmap_compose, Hr.
Qed.

(** Whatever [annotation.get_annotations] returns is indexed by the
    distinct non-missing key values. *)
Lemma annotation_get_annotations_indexed (self : annotation.Dataset) index columns out :
  (annotation.get_annotations self index (Some columns)).2 = Ok out ->
  Spec.indexed_by_distinct (Spec.key_values (annotation.df self) index) out
  /\ multi out = false /\ names out = [Some index].
Proof.
  rewrite annotation_get_annotations_unfold. cbn [snd].
  destruct (annotation_selected_facts self index columns) as (Hn & Hin & Hsub & _ & Hr).
  cbv zeta in *. set (d1 := (Spec.annotation_selected self index columns).1) in *.
  intros H. apply bind_ok in H as (d & Hd & H). apply bind_ok in H as (d2 & H2 & H).
  unfold annotation.check_index_unique in H.
  destruct (has_duplicates d2); [discriminate|]. injection H as <-.
  assert (exists keys, resolve_key d index = Ok keys
                       /\ keys = Spec.key_values (annotation.df self) index)
    as (keys & Hk & ->).
  { destruct (decide (index ∈ pd.columns (annotation.df self))) as [Hc|Hc].
    - rewrite (bool_decide_eq_true_2 _ Hc), andb_true_r in Hd.
      destruct (Hin Hc) as [Hc1 Hcol].
      destruct (position_is_Some _ _ Hc) as (p & Hp & _).
      unfold Spec.key_values. rewrite Hp.
      destruct (bool_decide (Some index ≠ index_name (annotation.df self))) eqn:E.
      + destruct (set_index_resolve_key d1 index Hc1) as (d' & Hs & Hk & _).
        rewrite Hs in Hd. injection Hd as <-. exists (column d1 index).
        by rewrite Hk, Hcol.
      + injection Hd as <-. exfalso.
        apply bool_decide_eq_false in E.
        assert (index_name (annotation.df self) = Some index) as Hname.
        { destruct (decide (Some index = index_name (annotation.df self))); [done|].
          exfalso. by apply E. }
        apply index_name_in_names in Hname. rewrite <- Hn in Hname.
        apply groupby_agg_reduce in H2. unfold reduce_groups, resolve_key in H2.
        destruct (position_is_Some _ _ Hc1) as (p1 & Hp1 & _).
        destruct (position_is_Some _ _ Hname) as (q & Hq & _).
        by rewrite Hp1, Hq in H2.
    - rewrite (bool_decide_eq_false_2 _ Hc), andb_false_r in Hd. injection Hd as <-.
      assert (position index (pd.columns d1) = None) as Hp1.
      { apply position_None. intros ?. apply Hc. auto. }
      apply position_None in Hc.
      pose proof (resolve_key_same_index d1 _ index Hp1 Hc Hn Hr) as Hk.
      destruct (position (Some index) (names (annotation.df self))); [eauto|].
      apply groupby_agg_reduce in H2. unfold reduce_groups in H2. by rewrite Hk in H2. }
  split; [by eapply groupby_agg_indexed|].
  destruct (groupby_agg_shape _ _ _ _ _ Hk H2) as (? & ? & _). auto.
Qed.

(** Under its preconditions [annotation.get_annotations] returns a table. *)
Lemma annotation_get_annotations_ok (self : annotation.Dataset) index columns keys :
  has_columns (annotation.df self) columns = true ->
  NoDup columns ->
  (exists c, c ∈ columns /\ c <> index) ->
  resolve_key (annotation.df self) index = Ok keys ->
  exists out, (annotation.get_annotations self index (Some columns)).2 = Ok out.
Proof.
  intros Hcols Hnd (c0 & Hc0 & Hne0) Hkeys.
  rewrite annotation_get_annotations_unfold. cbn [snd].
  destruct (annotation_selected_facts self index columns) as (Hn & Hin & Hsub & Hsup & Hr).
  cbv zeta in *. set (d1 := (Spec.annotation_selected self index columns).1) in *.
  assert ((Spec.annotation_selected self index columns).2
          = match position index columns with Some i => delete i columns | None => columns end)
    as Hcols'.
  { unfold Spec.annotation_selected. by destruct (position index columns). }
  rewrite Hcols'.
  set (columns' := match position index columns with
                   | Some i => delete i columns | None => columns end).
  assert (index ∉ columns') as Hni by (by apply popped_not_elem).
  assert (forall c, c ∈ columns' -> c ∈ pd.columns d1) as Hc1.
  { intros c Hc. apply popped_subseteq in Hc. apply Hsup; [assumption|].
    by apply (proj1 (has_columns_spec _ _) Hcols). }
  assert (exists d keys', (if bool_decide (Some index ≠ index_name (annotation.df self))
                              && bool_decide (index ∈ pd.columns (annotation.df self))
                           then set_index d1 [Some index] else Ok d1) = Ok d
            /\ resolve_key d index = Ok keys'
            /\ forall c, c ∈ columns' -> c ∈ pd.columns d)
    as (d & keys' & -> & Hk & Hcd).
  { unfold resolve_key in Hkeys.
    destruct (position index (pd.columns (annotation.df self))) as [p|] eqn:Ep;
      destruct (position (Some index) (names (annotation.df self))) as [l|] eqn:El;
      try discriminate.
    - assert (index ∈ pd.columns (annotation.df self)) as Hc.
      { destruct (position_Some _ _ _ Ep) as (l1 & l2 & -> & _).
        rewrite elem_of_app. right. left. }
      apply position_None in El.
      assert (Some index ≠ index_name (annotation.df self)) as Hname.
      { intros Heq. apply El. by apply index_name_in_names. }
      rewrite (bool_decide_eq_true_2 _ Hname), (bool_decide_eq_true_2 _ Hc). simpl.
      destruct (Hin Hc) as [Hc1' _].
      destruct (set_index_resolve_key d1 index Hc1') as (d' & Hs & Hk & _ & _ & Hcs & _).
      exists d', (column d1 index). repeat split; try assumption.
      intros c Hc'. rewrite Hcs, list_elem_of_filter, is_key_single. split; [|auto].
      apply bool_decide_eq_false. by intros ->.
    - pose proof Ep as Ep'. apply position_None in Ep'.
      rewrite (bool_decide_eq_false_2 _ Ep'), andb_false_r.
      assert (position index (pd.columns d1) = None) as Hp1.
      { apply position_None. intros ?. apply Ep'. auto. }
      pose proof (resolve_key_same_index d1 _ index Hp1 Ep Hn Hr) as Hk.
      rewrite El in Hk. eauto. }
  cbn [mbind result_bind].
  destruct (groupby_agg_ok d index
              ((fun k => (k, concat_uniques_agg)) <$> unique columns') keys'
              (fmap_unique_some _ c0 _ (popped_keeps _ _ _ Hc0 Hne0)) Hk)
    as [out Hout].
  { rewrite fmap_fst_pair. apply has_columns_spec. intros c Hc.
    rewrite unique_elem in Hc. auto. }
  { intros cf l Hcf. apply list_elem_of_fmap in Hcf as (c & -> & _). reflexivity. }
  rewrite Hout. cbn [mbind result_bind].
  destruct (groupby_agg_indexed _ _ _ _ _ Hk Hout) as (Hnd' & _).
  unfold annotation.check_index_unique. rewrite (has_duplicates_false _ Hnd'). eauto.
Qed.

End Aggregation.

(** C1.  Under the preconditions of aggregation (the labels of the table
    are distinct, the requested columns are distinct columns of it, one
    of them at least is not the key, and the key is a column of the table
    or, in [annotation.py], its index) [Dataset.get_annotations] returns
    a table whose index has no duplicate, with one row for each distinct
    non-missing value of the key column; rows with a missing key are left
    out. *)
Theorem get_annotations_unique_index :
  (forall named_reduction (self : base.Dataset) (index : string)
          (columns : list string) (agg : string),
      NoDup (pd.columns (base.data self)) ->
      has_columns (base.data self) columns = true ->
      NoDup columns ->
      (exists c, c ∈ columns /\ c <> index) ->
      index ∈ pd.columns (base.data self) ->
      Some index ≠ index_name (base.data self) ->
      (agg = "concat"
       \/ exists f, named_reduction agg = Some f /\ forall l, is_ok (f l) = true) ->
      exists out,
        (base.get_annotations named_reduction self index columns agg).2 = Ok out
        /\ Spec.indexed_by_distinct (column (base.data self) index) out)
  /\ (forall (self : annotation.Dataset) (index : string) (columns : list string)
            (keys : list value),
      NoDup (pd.columns (annotation.df self)) ->
      has_columns (annotation.df self) columns = true ->
      NoDup columns ->
      (exists c, c ∈ columns /\ c <> index) ->
      resolve_key (annotation.df self) index = Ok keys ->
      exists out,
        (annotation.get_annotations self index (Some columns)).2 = Ok out
        /\ Spec.indexed_by_distinct keys out).
Proof.
  split.
  - intros nr self index columns agg _ Hcols Hnd Hval Hin Hname Hagg.
    destruct (base_get_annotations_ok nr self index columns agg
                Hcols Hnd Hval Hin Hname Hagg) as [out Hout].
    exists out. split; [assumption|].
    by apply (base_get_annotations_indexed _ _ _ _ _ _ Hout).
  - intros self index columns keys _ Hcols Hnd Hval Hkeys.
    destruct (annotation_get_annotations_ok self index columns keys
                Hcols Hnd Hval Hkeys) as [out Hout].
    exists out. split; [assumption|].
    rewrite (resolve_key_key_values _ _ _ Hkeys).
    by apply (annotation_get_annotations_indexed _ _ _ _ Hout).
Qed.

Lemma get_annotations_unique_index_witness :
  exists out,
    (base.get_annotations Examples.no_reduction {| base.data := Examples.go_table |}
       "gene_id" ["go_id"] "concat").2 = Ok out
    /\ Spec.indexed_by_distinct
         (column (base.data {| base.data := Examples.go_table |}) "gene_id") out.
Proof.
  apply (proj1 get_annotations_unique_index Examples.no_reduction
           {| base.data := Examples.go_table |} "gene_id" ["go_id"] "concat").
  - apply (bool_decide_unpack _). vm_compute. exact I.
  - reflexivity.
  - apply NoDup_singleton.
  - exists "go_id". split; [left | discriminate].
  - vm_compute. apply list_elem_of_In. left. reflexivity.
  - discriminate.
  - left. reflexivity.
Defined.

(** ** Cells *)

Section Cells.

Lemma filter_fmap_comm {A B} (f : A -> B) (P : B -> Prop) `{!forall x, Decision (P x)}
    (l : list A) :
  filter P (f <$> l) = f <$> filter (fun x => P (f x)) l.
Proof.
  induction l as [|x l IH]; [reflexivity|]. rewrite fmap_cons, !filter_cons.
  destruct (decide (P (f x))); rewrite IH; reflexivity.
Qed.

Lemma zip_fmap_diag {A B C} (f : A -> B) (g : A -> C) (l : list A) :
  zip (f <$> l) (g <$> l) = (fun x => (f x, g x)) <$> l.
Proof.
  induction l as [|x l IH]; [reflexivity|].
  rewrite !fmap_cons. cbn [zip zip_with]. f_equal. apply IH.
Qed.

Lemma pick_cons_eq cols c v cells : pick (c :: cols) c (v :: cells) = v.
Proof. unfold pick. simpl. by rewrite decide_True. Qed.

Lemma pick_cons_ne cols x c v cells :
  x <> c -> pick (x :: cols) c (v :: cells) = pick cols c cells.
Proof.
  intros Hne. unfold pick. simpl. rewrite decide_False by assumption.
  by destruct (position c cols).
Qed.

Lemma pick_missing cols c cells : c ∉ cols -> pick cols c cells = NaN.
Proof. intros H. apply position_None in H. unfold pick. by rewrite H. Qed.

(** Dropping columns leaves the cells of the others where their labels say. *)
Lemma pick_keep_cells (P : string -> Prop) `{!forall x, Decision (P x)}
    (keep : string -> bool) c :
  (forall x, P x <-> keep x = true) -> keep c = true ->
  forall cols cells, length cells = length cols ->
  pick (filter P cols) c (keep_cells keep cols cells) = pick cols c cells.
Proof.
  intros HP Hc. induction cols as [|x cols IH]; intros cells Hlen.
  - reflexivity.
  - destruct cells as [|v cells]; [discriminate|]. simpl in Hlen.
    unfold keep_cells. simpl zip. rewrite !filter_cons. simpl.
    destruct (decide (keep x = true)) as [Hx|Hx].
    + rewrite decide_True by (by apply HP). rewrite fmap_cons. simpl.
      destruct (decide (x = c)) as [->|Hne].
      * by rewrite !pick_cons_eq.
      * rewrite !pick_cons_ne by assumption. apply IH. lia.
    + rewrite decide_False by (by rewrite HP).
      rewrite pick_cons_ne by (intros ->; contradiction). apply IH. lia.
Qed.

Lemma length_keep_cells (P : string -> Prop) `{!forall x, Decision (P x)}
    (keep : string -> bool) :
  (forall x, P x <-> keep x = true) ->
  forall cols cells, length cells = length cols ->
  length (keep_cells keep cols cells) = length (filter P cols).
Proof.
  intros HP. induction cols as [|x cols IH]; intros cells Hlen.
  - reflexivity.
  - destruct cells as [|v cells]; [discriminate|]. simpl in Hlen.
    unfold keep_cells. simpl zip. rewrite !filter_cons. simpl.
    destruct (decide (keep x = true)) as [Hx|Hx].
    + rewrite decide_True by (by apply HP). rewrite fmap_cons. simpl.
      f_equal. apply IH. lia.
    + rewrite decide_False by (by rewrite HP). apply IH. lia.
Qed.

Lemma is_key_keep keys x :
  is_key keys x = false <-> negb (is_key keys x) = true.
Proof. by destruct (is_key keys x). Qed.

(** [set_index], unfolded. *)
Lemma set_index_Ok df keys df' :
  set_index df keys = Ok df' ->
  keys <> []
  /\ (forall k, k ∈ keys -> exists c, k = Some c /\ c ∈ columns df)
  /\ df' = {| multi := 1 <? length keys; names := keys;
              columns := filter (fun c => is_key keys c = false) (columns df);
              rows := (fun r =>
                         ((fun k => pick (columns df) (default EmptyString k) r.2) <$> keys,
                          keep_cells (fun c => negb (is_key keys c)) (columns df) r.2))
                      <$> rows df |}.
Proof.
  unfold set_index. destruct keys as [|k0 keys]; [discriminate|].
  destruct (forallb _ _) eqn:E; [|discriminate].
  intros H. injection H as <-. split; [discriminate|]. split; [|reflexivity].
  intros k Hk. rewrite forallb_forall in E. apply list_elem_of_In in Hk.
  specialize (E k Hk). destruct k as [c|]; [|discriminate].
  apply bool_decide_eq_true in E. eauto.
Qed.

Lemma set_index_total df keys :
  keys <> [] -> (forall k, k ∈ keys -> exists c, k = Some c /\ c ∈ columns df) ->
  exists df', set_index df keys = Ok df'.
Proof.
  intros Hne Hk. unfold set_index. destruct keys as [|k0 keys]; [done|].
  rewrite (proj2 (forallb_forall _ _)); [eauto|].
  intros k Hin. apply list_elem_of_In in Hin.
  destruct (Hk k Hin) as (c & -> & Hc). by apply bool_decide_eq_true.
Qed.

(** [getitem_columns], unfolded. *)
Lemma getitem_columns_Ok df cols df' :
  getitem_columns df cols = Ok df' ->
  (forall c, c ∈ cols -> c ∈ columns df)
  /\ df' = {| multi := multi df; names := names df; columns := cols;
              rows := (fun r => (r.1, (fun c => pick (columns df) c r.2) <$> cols))
                      <$> rows df |}.
Proof.
  unfold getitem_columns. destruct (has_columns df cols) eqn:E; [|discriminate].
  intros H. injection H as <-. split; [|reflexivity]. by apply has_columns_spec.
Qed.

(** The groups [base.get_annotations] reduces are the groups of the key
    column of [self.data]. *)
Lemma group_values_selected df0 cols1 df1 key df2 k c :
  getitem_columns df0 cols1 = Ok df1 ->
  set_index df1 [Some key] = Ok df2 ->
  key ∈ cols1 -> c ∈ cols1 -> c <> key ->
  group_values df2 (column df0 key) k c = Spec.group_of df0 key k c.
Proof.
  intros H1 H2 Hkey Hc Hne.
  apply getitem_columns_Ok in H1 as [_ ->].
  apply set_index_Ok in H2 as (_ & _ & ->).
  unfold group_values, Spec.group_of, column. cbn [rows columns snd fst].
  rewrite <- !list_fmap_compose, zip_fmap_diag, filter_fmap_comm, <- list_fmap_compose.
  apply list_fmap_ext. intros i r _. cbn.
  rewrite (pick_keep_cells _ (fun c => negb (is_key [Some key] c))).
  - by apply pick_fmap.
  - intros x. apply is_key_keep.
  - rewrite is_key_single. by rewrite bool_decide_eq_false_2.
  - by rewrite length_fmap.
Qed.

End Cells.

(** ** The concat reducer *)

Section Concat.

Lemma unique_from_first_occurrences `{EqDecision A} (l : list A) :
  forall seen p1 x p2, unique_from seen l = p1 ++ x :: p2 ->
  exists l1 l2, l = l1 ++ x :: l2 /\ (x ∉ l1)
                /\ forall y, y ∈ l1 -> y ∈ p1 \/ y ∈ seen.
Proof.
  induction l as [|y l IH]; intros seen p1 x p2 H; simpl in H.
  - by destruct p1.
  - assert (x ∈ unique_from seen (y :: l)) as Hx.
    { simpl. rewrite H, elem_of_app. right. left. }
    apply unique_from_elem in Hx as [_ Hxs].
    destruct (decide (y ∈ seen)) as [Hy|Hy].
    + destruct (IH _ _ _ _ H) as (l1 & l2 & -> & Hni & Hbefore).
      exists (y :: l1), l2. split; [reflexivity|]. split.
      * intros Hin. apply elem_of_cons in Hin as [->|?]; contradiction.
      * intros z Hz. apply elem_of_cons in Hz as [->|Hz]; auto.
    + destruct p1 as [|p p1]; simpl in H; injection H as -> H.
      * exists [], l. split; [reflexivity|]. split; [apply not_elem_of_nil|].
        intros z Hz. by apply elem_of_nil in Hz.
      * destruct (IH _ _ _ _ H) as (l1 & l2 & -> & Hni & Hbefore).
        exists (p :: l1), l2. split; [reflexivity|]. split.
        -- intros Hin. apply elem_of_cons in Hin as [->|?]; [|contradiction].
           assert (p ∈ unique_from (p :: seen) (l1 ++ p :: l2)) as Hp.
           { rewrite H, elem_of_app. right. left. }
           apply unique_from_elem in Hp as [_ Hp]. apply Hp. left.
        -- intros z Hz. apply elem_of_cons in Hz as [->|Hz]; [left; left|].
           destruct (Hbefore z Hz) as [?|Hs]; [left; by right|].
           apply elem_of_cons in Hs as [->|?]; [left; left | by right].
Qed.

Lemma unique_first_occurrences `{EqDecision A} (l : list A) :
  Spec.first_occurrences l (unique l).
Proof.
  split; [apply unique_NoDup|]. split; [apply unique_elem|].
  intros p1 x p2 H.
  destruct (unique_from_first_occurrences l [] p1 x p2 H) as (l1 & l2 & -> & Hni & Hb).
  exists l1, l2. repeat split; [assumption|].
  intros y Hy. destruct (Hb y Hy) as [?|Hn]; [assumption|]. by apply elem_of_nil in Hn.
Qed.

Lemma unique_from_fmap_inj `{EqDecision A, EqDecision B} (f : A -> B) `{!Inj (=) (=) f}
    (l : list A) : forall seen,
  unique_from (f <$> seen) (f <$> l) = f <$> unique_from seen l.
Proof.
  induction l as [|x l IH]; intros seen; [reflexivity|]. rewrite fmap_cons. simpl.
  destruct (decide (x ∈ seen)) as [Hx|Hx].
  - rewrite decide_True by (by apply list_elem_of_fmap_2). apply IH.
  - rewrite decide_False by (by rewrite (list_elem_of_fmap_inj f)).
    rewrite fmap_cons. f_equal. apply (IH (x :: seen)).
Qed.

Lemma traverse_Str (l : list string) :
  traverse (fun v => match v with Str s => Ok s | _ => Raise TypeError end) (Str <$> l)
  = Ok l.
Proof. induction l as [|s l IH]; [reflexivity|]. rewrite fmap_cons. simpl. by rewrite IH. Qed.

Lemma join_unique_strings (l : list string) :
  annotation.join_unique (Str <$> l) = Ok (Str (Py.join "|" (unique l))).
Proof.
  unfold annotation.join_unique, unique.
  assert (Inj (=) (=) Str) by (intros x y; congruence).
  rewrite (unique_from_fmap_inj Str l []), traverse_Str. reflexivity.
Qed.

(** The rows [groupby(...).agg(...)] builds. *)
Lemma reduce_groups_rows df by_ spec keys out :
  resolve_key df by_ = Ok keys ->
  reduce_groups df by_ spec = Ok out ->
  has_columns df spec.*1 = true
  /\ forall e cells, (e, cells) ∈ rows out ->
       exists k, k ∈ group_keys keys /\ e = [k]
         /\ Forall2 (fun cf v => cf.2 (group_values df keys k cf.1) = Ok v) spec cells.
Proof.
  intros Hk H. unfold reduce_groups in H. rewrite Hk in H. cbn [mbind result_bind] in H.
  destruct (has_columns df spec.*1); [|discriminate]. split; [reflexivity|].
  apply bind_ok in H as (rs & Hrs & H). injection H as <-. cbn [rows].
  apply traverse_Forall2 in Hrs. intros e cells Hin.
  apply list_elem_of_lookup in Hin as [i Hi].
  destruct (Forall2_lookup_r _ _ _ _ _ Hrs Hi) as (k & Hki & Hrow).
  apply bind_ok in Hrow as (cells' & Hcells & Hrow). injection Hrow as <- <-.
  exists k. split; [by eapply list_elem_of_lookup_2|]. split; [reflexivity|].
  by apply traverse_Forall2.
Qed.

Lemma Forall2_pick {F} (R : string * F -> value -> Prop) spec cells c :
  Forall2 R spec cells -> c ∈ spec.*1 ->
  exists f, (c, f) ∈ spec /\ R (c, f) (pick spec.*1 c cells).
Proof.
  induction 1 as [|[c0 f0] v spec cells Hr HF IH]; intros Hc.
  - by apply elem_of_nil in Hc.
  - rewrite fmap_cons in *. simpl in *. destruct (decide (c0 = c)) as [->|Hne].
    + exists f0. rewrite pick_cons_eq. split; [left | assumption].
    + apply elem_of_cons in Hc as [?|Hc]; [congruence|].
      destruct (IH Hc) as (f & Hin & HR). exists f.
      rewrite pick_cons_ne by assumption. split; [by right | assumption].
Qed.

Lemma popped_NoDup (x : string) (l : list string) :
  NoDup l -> NoDup (match position x l with Some i => delete i l | None => l end).
Proof.
  intros Hnd. destruct (position x l) as [i|] eqn:E; [|assumption].
  destruct (position_delete _ _ _ E) as (l1 & l2 & Hl & _ & ->).
  rewrite Hl in Hnd. apply NoDup_app in Hnd as (H1 & H2 & H3).
  apply NoDup_cons in H3 as [_ H3]. apply NoDup_app. split; [assumption|].
  split; [|assumption]. intros y Hy Hy2. apply (H2 y Hy). by right.
Qed.

Lemma filter_all {A} (P : A -> Prop) `{!forall x, Decision (P x)} (l : list A) :
  (forall x, x ∈ l -> P x) -> filter P l = l.
Proof.
  induction l as [|x l IH]; intros Hall; [reflexivity|].
  rewrite filter_cons, decide_True by (apply Hall; left).
  f_equal. apply IH. intros y Hy. apply Hall. by right.
Qed.

Lemma filter_key_popped (index : string) (l : list string) :
  index ∉ l -> filter (fun x => is_key [Some index] x = false) (l ++ [index]) = l.
Proof.
  intros Hni. rewrite filter_app, filter_cons, filter_nil, is_key_single.
  rewrite decide_False by (by rewrite bool_decide_eq_true_2).
  rewrite app_nil_r. apply filter_all. intros x Hx.
  rewrite is_key_single. apply bool_decide_eq_false. by intros ->.
Qed.

(** Every cell of the table [base.get_annotations] returns is what the
    reducer makes of the values of a group: those the rows of [self.data]
    with the key of the row have in the column of the cell. *)
Lemma base_get_annotations_reduced nr (self : base.Dataset) index columns agg out :
  (base.get_annotations nr self index columns agg).2 = Ok out ->
  exists f, Spec.reducer nr agg = Some f
    /\ forall e cells c, (e, cells) ∈ rows out -> c ∈ pd.columns out ->
         exists k, e = [k]
           /\ f (Spec.group_of (base.data self) index k c)
              = Ok (pick (pd.columns out) c cells).
Proof.
  unfold base.get_annotations, Spec.reducer.
  destruct (negb (has_columns (base.data self) columns)); [discriminate|]. cbn [snd].
  set (columns' := match position index columns with
                   | Some i => delete i columns | None => columns end).
  intros H.
  apply bind_ok in H as (df1 & H1 & H). apply bind_ok in H as (df2 & H2 & H).
  pose proof (base_grouped_frame self index columns' df1 H1) as Hg.
  destruct (bool_decide (Some index ≠ index_name (base.data self))
            && bool_decide (index ∈ pd.columns (base.data self))).
  - destruct Hg as (df2' & H2' & Hk & Hc2). rewrite H2' in H2. injection H2 as <-.
    assert (exists f cols,
               (if decide (agg = "concat") then Some concat_uniques else nr agg) = Some f
               /\ reduce_groups df2' index ((fun c => (c, f)) <$> cols) = Ok out)
      as (f & cols & Hf & Hred).
    { destruct (decide (agg = "concat")).
      - exists concat_uniques, (unique columns'). split; [reflexivity|].
        by apply groupby_agg_reduce.
      - unfold groupby_aggregate in H. destruct (nr agg) as [f|]; [|discriminate].
        eauto. }
    exists f. split; [assumption|]. intros e cells c Hrow Hc.
    destruct (reduce_groups_shape _ _ _ _ _ Hk Hred) as (_ & _ & Hcols & _).
    destruct (reduce_groups_rows _ _ _ _ _ Hk Hred) as (Hhas & Hrows).
    destruct (Hrows e cells Hrow) as (k & _ & -> & HF).
    rewrite Hcols in Hc |- *.
    destruct (Forall2_pick _ _ _ c HF Hc) as (f' & Hf' & Hv).
    apply list_elem_of_fmap in Hf' as (c' & Heq & Hc'). injection Heq as <- ->.
    cbn [fst snd] in Hv. exists k. split; [reflexivity|]. rewrite <- Hv. f_equal.
    rewrite fmap_fst_pair in Hhas.
    pose proof (proj1 (has_columns_spec _ _) Hhas c Hc') as Hin.
    rewrite Hc2, list_elem_of_filter, is_key_single in Hin. destruct Hin as [Hb Hin].
    apply bool_decide_eq_false in Hb.
    symmetry. apply (group_values_selected _ _ _ _ _ k c H1 H2'); [|assumption..].
    rewrite elem_of_app. right. left.
  - injection H2 as <-. exfalso. destruct (decide (agg = "concat")).
    + apply groupby_agg_reduce in H. unfold reduce_groups in H. by rewrite Hg in H.
    + unfold groupby_aggregate in H. destruct (nr agg); [|discriminate].
      unfold reduce_groups in H. by rewrite Hg in H.
Qed.

(** Its columns are the requested columns other than the key, in the
    order of the request. *)
Lemma base_get_annotations_value_columns nr (self : base.Dataset) index columns agg out :
  NoDup columns ->
  (base.get_annotations nr self index columns agg).2 = Ok out ->
  pd.columns out
  = match position index columns with Some i => delete i columns | None => columns end.
Proof.
  intros Hnd. unfold base.get_annotations.
  destruct (negb (has_columns (base.data self) columns)); [discriminate|]. cbn [snd].
  pose proof (popped_not_elem index columns Hnd) as Hni.
  pose proof (popped_NoDup index columns Hnd) as Hnd'.
  set (columns' := match position index columns with
                   | Some i => delete i columns | None => columns end) in *.
  intros H.
  apply bind_ok in H as (df1 & H1 & H). apply bind_ok in H as (df2 & H2 & H).
  pose proof (base_grouped_frame self index columns' df1 H1) as Hg.
  destruct (bool_decide (Some index ≠ index_name (base.data self))
            && bool_decide (index ∈ pd.columns (base.data self))).
  - destruct Hg as (df2' & H2' & Hk & Hc2). rewrite H2' in H2. injection H2 as <-.
    rewrite (filter_key_popped _ _ Hni) in Hc2.
    destruct (decide (agg = "concat")).
    + destruct (groupby_agg_shape _ _ _ _ _ Hk H) as (_ & _ & Hcols & _).
      by rewrite Hcols, fmap_fst_pair, unique_id.
    + unfold groupby_aggregate in H. destruct (nr agg); [|discriminate].
      destruct (reduce_groups_shape _ _ _ _ _ Hk H) as (_ & _ & Hcols & _).
      rewrite Hcols, fmap_fst_pair, Hc2. apply filter_all. by intros x Hx ->.
  - injection H2 as <-. exfalso. destruct (decide (agg = "concat")).
    + apply groupby_agg_reduce in H. unfold reduce_groups in H. by rewrite Hg in H.
    + unfold groupby_aggregate in H. destruct (nr agg); [|discriminate].
      unfold reduce_groups in H. by rewrite Hg in H.
Qed.

Lemma popped_elem (x c : string) (l : list string) :
  NoDup l ->
  c ∈ match position x l with Some i => delete i l | None => l end <-> c ∈ l /\ c <> x.
Proof.
  intros Hnd. split.
  - intros Hc. split; [by eapply popped_subseteq|].
    intros ->. by apply (popped_not_elem x l Hnd).
  - intros [Hc Hne]. by apply popped_keeps.
Qed.

End Concat.

(** C5.  Under the preconditions of the aggregation (distinct labels of
    the table, distinct requested columns of it, one of them at least not
    the key, and the key a column), "concat" makes
    [get_annotations] return a table with one row for every group of rows
    sharing one key value and one column for every requested value column;
    the cell of a group in a column is the string made of the unique
    string representations of the group's values, in order of first
    appearance, joined with '|'.  The reducer [RNAcentral.load_data]
    applies does the same on strings; the values a, b, a, c give
    "a|b|c". *)
Theorem concat_reducer_joins_first_occurrences :
  (forall named_reduction (self : base.Dataset) (index : string)
          (columns : list string),
      NoDup (pd.columns (base.data self)) ->
      has_columns (base.data self) columns = true ->
      NoDup columns ->
      (exists c, c ∈ columns /\ c <> index) ->
      index ∈ pd.columns (base.data self) ->
      Some index ≠ index_name (base.data self) ->
      exists out,
        (base.get_annotations named_reduction self index columns "concat").2 = Ok out
        /\ NoDup (index_entries out)
        /\ (forall e cells, (e, cells) ∈ rows out ->
              exists k, e = [k] /\ k ∈ column (base.data self) index /\ k <> NaN)
        /\ (forall c, c ∈ pd.columns out <-> c ∈ columns /\ c <> index)
        /\ (forall k c,
              k ∈ column (base.data self) index -> k <> NaN ->
              c ∈ columns -> c <> index ->
              exists cells pieces,
                ([k], cells) ∈ rows out
                /\ pick (pd.columns out) c cells = Str (Py.join "|" pieces)
                /\ Spec.first_occurrences
                     (str_of <$> Spec.group_of (base.data self) index k c) pieces))
  /\ (forall l : list string,
        exists pieces, annotation.join_unique (Str <$> l) = Ok (Str (Py.join "|" pieces))
                       /\ Spec.first_occurrences l pieces)
  /\ concat_uniques [Str "a"; Str "b"; Str "a"; Str "c"] = Ok (Str "a|b|c")
  /\ annotation.join_unique [Str "a"; Str "b"; Str "a"; Str "c"] = Ok (Str "a|b|c").
Proof.
  split; [|split; [|split; reflexivity]].
  - intros nr self index columns _ Hcols Hnd Hval Hin Hname.
    destruct (base_get_annotations_ok nr self index columns "concat"
                Hcols Hnd Hval Hin Hname ltac:(by left)) as [out Hout].
    destruct (base_get_annotations_indexed _ _ _ _ _ _ Hout)
      as ((Hnde & _ & _ & Hkeys) & _ & _).
    pose proof (base_get_annotations_value_columns _ _ _ _ _ _ Hnd Hout) as Hco.
    destruct (base_get_annotations_reduced _ _ _ _ _ _ Hout) as (f & Hf & Hcells).
    unfold Spec.reducer in Hf. rewrite decide_True in Hf by reflexivity.
    injection Hf as <-.
    assert (forall c, c ∈ pd.columns out <-> c ∈ columns /\ c <> index) as Hiff.
    { intros c. rewrite Hco. by apply popped_elem. }
    exists out. split; [assumption|]. split; [assumption|].
    split; [|split; [assumption|]].
    + intros e cells Hrow. destruct Hval as (c0 & Hc0 & Hne0).
      destruct (Hcells e cells c0 Hrow) as (k & -> & _); [by apply Hiff|].
      exists k. split; [reflexivity|]. apply Hkeys. unfold index_values.
      apply list_elem_of_fmap. exists ([k], cells). split; [reflexivity|assumption].
    + intros k c Hk Hnan Hc Hne.
      assert (k ∈ index_values out) as Hki by (by apply Hkeys).
      unfold index_values in Hki. apply list_elem_of_fmap in Hki as ([e cells] & Hhead & Hrow).
      assert (c ∈ pd.columns out) as Hcin by (by apply Hiff).
      destruct (Hcells e cells c Hrow Hcin) as (k' & -> & Hv).
      cbn in Hhead. subst k'.
      unfold concat_uniques in Hv. injection Hv as Hv.
      exists cells, (unique (str_of <$> Spec.group_of (base.data self) index k c)).
      split; [assumption|]. split; [by rewrite <- Hv|].
      apply unique_first_occurrences.
  - intros l. exists (unique l). split; [apply join_unique_strings|].
    apply unique_first_occurrences.
Qed.

Lemma concat_reducer_joins_first_occurrences_witness :
  exists out,
    (base.get_annotations Examples.no_reduction {| base.data := Examples.go_table |}
       "gene_id" ["go_id"] "concat").2 = Ok out
    /\ NoDup (index_entries out)
    /\ (forall e cells, (e, cells) ∈ rows out ->
          exists k, e = [k] /\ k ∈ column Examples.go_table "gene_id" /\ k <> NaN)
    /\ (forall c, c ∈ pd.columns out <-> c ∈ ["go_id"] /\ c <> "gene_id")
    /\ (forall k c,
          k ∈ column Examples.go_table "gene_id" -> k <> NaN ->
          c ∈ ["go_id"] -> c <> "gene_id" ->
          exists cells pieces,
            ([k], cells) ∈ rows out
            /\ pick (pd.columns out) c cells = Str (Py.join "|" pieces)
            /\ Spec.first_occurrences
                 (str_of <$> Spec.group_of Examples.go_table "gene_id" k c) pieces).
Proof.
  apply (proj1 concat_reducer_joins_first_occurrences Examples.no_reduction
           {| base.data := Examples.go_table |} "gene_id" ["go_id"]).
  - apply (bool_decide_unpack _). vm_compute. exact I.
  - reflexivity.
  - apply NoDup_singleton.
  - exists "go_id". split; [left | discriminate].
  - vm_compute. apply list_elem_of_In. left. reflexivity.
  - discriminate.
Defined.

(** ** Row counts *)

Section Rows.

Lemma keeps_rows_ret {A} (a : A) : Spec.keeps_rows (Run.ret a).
Proof. by intros s. Qed.

Lemma keeps_rows_lift {A} (r : result A) : Spec.keeps_rows (Run.lift r).
Proof. by intros s. Qed.

Lemma keeps_rows_read : Spec.keeps_rows Run.read.
Proof. by intros s. Qed.

(** Sequencing, when the continuation keeps the rows on every value the
    first part can return. *)
Lemma keeps_rows_bind {A B} (m : Run.M A) (k : A -> Run.M B) (P : A -> Prop) :
  Spec.keeps_rows m ->
  (forall s s' a, m s = (s', Ok a) -> P a) ->
  (forall a, P a -> Spec.keeps_rows (k a)) ->
  Spec.keeps_rows (Run.bind m k).
Proof.
  intros Hm HP Hk s. unfold Run.bind. specialize (Hm s).
  destruct (m s) as [s' [a|e]] eqn:E; simpl in Hm |- *; [|assumption].
  rewrite (Hk a (HP _ _ _ E)). assumption.
Qed.

Lemma keeps_rows_seq {A B} (m : Run.M A) (k : A -> Run.M B) :
  Spec.keeps_rows m -> (forall a, Spec.keeps_rows (k a)) ->
  Spec.keeps_rows (Run.bind m k).
Proof. intros Hm Hk. apply (keeps_rows_bind m k (fun _ => True)); auto. Qed.

Lemma keeps_rows_update (f : DataFrame -> result DataFrame) :
  (forall df df', f df = Ok df' -> nrows df' = nrows df) ->
  Spec.keeps_rows (Run.update f).
Proof.
  intros Hf s. unfold Run.update, Run.bind, Run.read, Run.lift, Run.write.
  destruct (f (Run.annotations s)) as [df'|e] eqn:E; simpl; [|reflexivity].
  by apply Hf.
Qed.

Lemma keeps_rows_for {A} (l : list A) (body : A -> Run.M unit) :
  (forall x, Spec.keeps_rows (body x)) -> Spec.keeps_rows (Run.for_ l body).
Proof.
  intros Hb. induction l as [|x l IH]; simpl.
  - apply keeps_rows_ret.
  - apply keeps_rows_seq; auto.
Qed.

Lemma reset_index_Ok df df' :
  reset_index df = Ok df' ->
  exists cols,
    for_each (fun cols n => if decide (n ∈ cols) then Raise ValueError else Ok (n :: cols))
      (reverse (level_labels df)) (columns df) = Ok cols
    /\ df' = {| multi := false; names := [None]; columns := cols;
                rows := imap (fun i r => ([Int (Z.of_nat i)], r.1 ++ r.2)) (rows df) |}.
Proof.
  unfold reset_index. intros H. apply bind_ok in H as (cols & Hc & H).
  injection H as <-. eauto.
Qed.

Lemma reset_index_nrows df df' : reset_index df = Ok df' -> nrows df' = nrows df.
Proof.
  intros H. apply reset_index_Ok in H as (cols & _ & ->).
  unfold nrows. simpl. apply length_imap.
Qed.

Lemma set_index_nrows df keys df' : set_index df keys = Ok df' -> nrows df' = nrows df.
Proof.
  intros H. apply set_index_Ok in H as (_ & _ & ->).
  unfold nrows. simpl. apply length_fmap.
Qed.

Lemma fillna_from_nrows df a b df' : fillna_from df a b = Ok df' -> nrows df' = nrows df.
Proof.
  unfold fillna_from. destruct (position a _); [|discriminate].
  destruct (position b _); [|discriminate].
  intros H. injection H as <-. unfold nrows. simpl. apply length_fmap.
Qed.

Lemma drop_columns_nrows df c df' : drop_columns df c = Ok df' -> nrows df' = nrows df.
Proof.
  unfold drop_columns. destruct (decide _); [|discriminate].
  intros H. injection H as <-. unfold nrows. simpl. apply length_fmap.
Qed.

Lemma resolve_key_length df key keys :
  resolve_key df key = Ok keys -> length keys = nrows df.
Proof.
  unfold resolve_key.
  destruct (position key (columns df)), (position (Some key) (names df));
    try discriminate; intros H; injection H as <-; apply length_fmap.
Qed.

Lemma filter_NoDup_key {A B} `{EqDecision B} (g : A -> B) (k : B) (l : list A) :
  NoDup (g <$> l) -> length (filter (fun x => g x = k) l) <= 1.
Proof.
  induction l as [|x l IH]; intros Hnd; [simpl; lia|].
  rewrite fmap_cons in Hnd. inversion Hnd as [|? ? Hx Hl]; subst.
  rewrite filter_cons. destruct (decide (g x = k)) as [Hk|Hk]; [|auto].
  simpl. assert (filter (fun y => g y = k) l = []) as ->; [|simpl; lia].
  destruct (filter (fun y => g y = k) l) as [|y ys] eqn:E; [reflexivity|].
  exfalso. apply Hx.
  assert (y ∈ filter (fun y => g y = k) l) as Hy by (rewrite E; left).
  apply list_elem_of_filter in Hy as [Hgy Hy]. rewrite Hk, <- Hgy.
  by apply list_elem_of_fmap_2.
Qed.

Lemma length_bind_singletons {A B} (f : A -> list B) (l : list A) :
  (forall x, x ∈ l -> length (f x) = 1) -> length (l ≫= f) = length l.
Proof.
  induction l as [|x l IH]; intros H; [reflexivity|].
  rewrite bind_cons, length_app, H by left. simpl. f_equal.
  apply IH. intros y Hy. apply H. by right.
Qed.

(** [join], unfolded. *)
Lemma join_Ok left right on rsuffix df' :
  pd.join left right on rsuffix = Ok df' ->
  exists lkeys, resolve_key left on = Ok lkeys /\ multi right = false
    /\ df' = {| multi := multi left; names := names left;
                columns := columns left ++
                  ((fun c => if decide (c ∈ columns left)
                             then String.append c rsuffix else c) <$> columns right);
                rows := mbind (M := list) (fun p =>
                  match filter (fun rr => default NaN (head rr.1) = p.1) (rows right) with
                  | [] => [(p.2.1, p.2.2 ++ replicate (length (columns right)) NaN)]
                  | ms => (fun rr => (p.2.1, p.2.2 ++ rr.2)) <$> ms
                  end) (zip lkeys (rows left)) |}.
Proof.
  unfold pd.join. intros H. apply bind_ok in H as (lkeys & Hk & H).
  destruct (multi right); [discriminate|].
  destruct (_ || _); [discriminate|]. injection H as <-. eauto.
Qed.

(** A left join with a table whose index has no duplicate keeps the number
    of rows. *)
Lemma join_nrows left right on rsuffix df' :
  NoDup (index_values right) ->
  pd.join left right on rsuffix = Ok df' -> nrows df' = nrows left.
Proof.
  intros Hnd H. apply join_Ok in H as (lkeys & Hk & _ & ->).
  apply resolve_key_length in Hk. unfold nrows in *. cbn [rows].
  rewrite length_bind_singletons.
  - rewrite length_zip_with. lia.
  - intros p _.
    pose proof (filter_NoDup_key (fun rr : list value * list value => default NaN (head rr.1))
                  p.1 (rows right) Hnd) as Hle.
    destruct (filter _ (rows right)) as [|m ms]; [reflexivity|].
    rewrite length_fmap. simpl in *. lia.
Qed.

Lemma bind_nrows (f g : DataFrame -> result DataFrame) :
  (forall df df', f df = Ok df' -> nrows df' = nrows df) ->
  (forall df df', g df = Ok df' -> nrows df' = nrows df) ->
  forall df df', (r ← f df; g r) = Ok df' -> nrows df' = nrows df.
Proof.
  intros Hf Hg df df' H. apply bind_ok in H as (r & Hr & H).
  rewrite (Hg _ _ H). eauto.
Qed.

Lemma base_join_on_keeps_rows database_df index :
  NoDup (index_values database_df) ->
  Spec.keeps_rows (base.join_on database_df index).
Proof.
  intros Hnd. unfold base.join_on.
  apply keeps_rows_seq; [apply keeps_rows_read|]. intros a.
  destruct (decide (Some index = index_name a)).
  - apply keeps_rows_update. intros df df'. by apply join_nrows.
  - repeat (apply keeps_rows_seq; [|intros _]); apply keeps_rows_update.
    + apply reset_index_nrows.
    + intros df df'. apply set_index_nrows.
    + apply bind_nrows; [|apply reset_index_nrows]. intros df df'. by apply join_nrows.
    + intros df df'. apply set_index_nrows.
Qed.

Lemma base_merge_keeps_rows : Spec.keeps_rows base.merge_duplicate_columns.
Proof.
  unfold base.merge_duplicate_columns.
  apply keeps_rows_seq; [apply keeps_rows_read|]. intros a.
  apply keeps_rows_seq; [apply keeps_rows_lift|]. intros cols.
  apply keeps_rows_for. intros c.
  apply keeps_rows_seq; [|intros _]; apply keeps_rows_update.
  - intros df df'. apply fillna_from_nrows.
  - intros df df'. apply drop_columns_nrows.
Qed.

Lemma base_call_get_annotations_keeps nr database index agg :
  Spec.keeps_annotations (base.call_get_annotations nr database index agg).
Proof.
  intros s. unfold base.call_get_annotations.
  by destruct (base.get_annotations _ _ _ _ _).
Qed.

Lemma base_call_get_annotations_indexed nr database index agg s s' out :
  base.call_get_annotations nr database index agg s = (s', Ok out) ->
  NoDup (index_values out) /\ multi out = false /\ names out = [Some index].
Proof.
  unfold base.call_get_annotations.
  destruct (base.get_annotations nr database index (Run.columns_arg s) agg)
    as [cols r] eqn:E.
  intros H. injection H as _ ->.
  assert ((base.get_annotations nr database index (Run.columns_arg s) agg).2 = Ok out)
    as Hout by (by rewrite E).
  destruct (base_get_annotations_indexed _ _ _ _ _ _ Hout) as ((_ & Hnd & _) & ? & ?).
  auto.
Qed.

(** Without fuzzy matching a call of [base.py]'s [annotate_genomics] leaves
    the number of rows of the annotations as it was, returned or raised. *)
Lemma base_annotate_genomics_keeps_rows nr database index agg :
  Spec.keeps_rows (base.annotate_genomics nr database index agg false).
Proof.
  unfold base.annotate_genomics.
  apply (keeps_rows_bind _ _ (fun out => NoDup (index_values out))).
  - intros s. by rewrite base_call_get_annotations_keeps.
  - intros s s' out H. by apply base_call_get_annotations_indexed in H as [? _].
  - intros out Hnd.
    apply (keeps_rows_bind _ _ (fun out => NoDup (index_values out))).
    + apply keeps_rows_ret.
    + intros s s' a H. injection H as _ <-. assumption.
    + intros out' Hnd'. apply keeps_rows_seq; [by apply base_join_on_keeps_rows|].
      intros _. apply base_merge_keeps_rows.
Qed.

Lemma annotation_call_get_annotations_keeps database index :
  Spec.keeps_annotations (annotation.call_get_annotations database index).
Proof.
  intros s. unfold annotation.call_get_annotations.
  by destruct (annotation.get_annotations _ _ _).
Qed.

Lemma annotation_call_get_annotations_indexed database index s s' out :
  annotation.call_get_annotations database index s = (s', Ok out) ->
  NoDup (index_values out) /\ multi out = false /\ names out = [Some index].
Proof.
  unfold annotation.call_get_annotations.
  destruct (annotation.get_annotations database index (Some (Run.columns_arg s)))
    as [cols r] eqn:E.
  intros H. injection H as _ ->.
  assert ((annotation.get_annotations database index (Some (Run.columns_arg s))).2 = Ok out)
    as Hout by (by rewrite E).
  destruct (annotation_get_annotations_indexed _ _ _ _ Hout) as ((_ & Hnd & _) & ? & ?).
  auto.
Qed.

(** A call of [annotation.py]'s [annotate_genomics] leaves the number of
    rows of the annotations as it was, returned or raised. *)
Lemma annotation_annotate_genomics_keeps_rows database index :
  Spec.keeps_rows (annotation.annotate_genomics database index).
Proof.
  assert (forall A (m : Run.M A), Spec.keeps_annotations m -> Spec.keeps_rows m) as Hka.
  { intros A m H s. by rewrite H. }
  unfold annotation.annotate_genomics.
  apply keeps_rows_seq.
  - unfold annotation.join_on.
    apply keeps_rows_seq; [apply keeps_rows_read|]. intros a.
    destruct (decide (Some index = index_name a)).
    + apply (keeps_rows_bind _ _ (fun out => NoDup (index_values out))).
      * apply Hka, annotation_call_get_annotations_keeps.
      * intros s s' out H.
        by apply annotation_call_get_annotations_indexed in H as [? _].
      * intros out Hnd. apply keeps_rows_update. intros df df'. by apply join_nrows.
    + apply keeps_rows_seq; [apply keeps_rows_update, reset_index_nrows|]. intros _.
      apply keeps_rows_seq;
        [apply keeps_rows_update; intros df df'; apply set_index_nrows|]. intros _.
      apply (keeps_rows_bind _ _ (fun out => NoDup (index_values out))).
      * apply Hka, annotation_call_get_annotations_keeps.
      * intros s s' out H.
        by apply annotation_call_get_annotations_indexed in H as [? _].
      * intros out Hnd.
        apply keeps_rows_seq;
          [apply keeps_rows_update; intros df df'; by apply join_nrows|]. intros _.
        apply keeps_rows_seq; [apply keeps_rows_update, reset_index_nrows|]. intros _.
        apply keeps_rows_update. intros df df'. apply set_index_nrows.
  - intros _. unfold annotation.merge_duplicate_columns.
    apply keeps_rows_seq; [apply keeps_rows_read|]. intros a.
    apply keeps_rows_seq; [apply keeps_rows_lift|]. intros cols.
    apply keeps_rows_for. intros c.
    apply keeps_rows_update. intros df df'. apply fillna_from_nrows.
Qed.

End Rows.

(** C2 (as amended).  Whatever the resource, the key, the columns and the
    aggregation mode, a call of [annotate_genomics] made without fuzzy
    matching leaves the annotations with the rows it found, whether it
    returns or raises: after any finite sequence of such calls on an
    annotations table of N rows, the table has N rows.  This holds for
    [base.py] with [fuzzy_match=False] and for [annotation.py]. *)
Theorem join_keeps_row_count :
  forall (a : DataFrame),
    (forall named_reduction (calls : list Spec.base_call),
        Forall (fun c => Spec.call_fuzzy_match c = false) calls ->
        nrows (foldl (Spec.after_base_call named_reduction) a calls) = nrows a)
    /\ (forall calls : list Spec.annotation_call,
          nrows (foldl Spec.after_annotation_call a calls) = nrows a).
Proof.
  intros a. split.
  - intros nr calls. revert a.
    induction calls as [|c calls IH]; intros a Hf; [reflexivity|].
    inversion Hf as [|? ? Hc Hcs]; subst. simpl. rewrite IH by assumption.
    unfold Spec.after_base_call. rewrite Hc.
    apply (base_annotate_genomics_keeps_rows nr (Spec.call_database c)
             (Spec.call_index c) (Spec.call_agg c)
             {| Run.annotations := a; Run.columns_arg := Spec.call_columns c |}).
  - intros calls. revert a.
    induction calls as [|c calls IH]; intros a; [reflexivity|].
    simpl. rewrite IH. unfold Spec.after_annotation_call.
    apply (annotation_annotate_genomics_keeps_rows (Spec.acall_database c)
             (Spec.acall_index c)
             {| Run.annotations := a; Run.columns_arg := Spec.acall_columns c |}).
Qed.

Lemma join_keeps_row_count_witness :
  nrows (foldl (Spec.after_base_call Examples.no_reduction) Examples.named_genes
           [ {| Spec.call_database := {| base.data := Examples.go_table |};
                Spec.call_index := "gene_id"; Spec.call_columns := ["go_id"];
                Spec.call_agg := "concat"; Spec.call_fuzzy_match := false |};
             {| Spec.call_database := {| base.data := Examples.names_table |};
                Spec.call_index := "gene_name"; Spec.call_columns := ["go_id"];
                Spec.call_agg := "concat"; Spec.call_fuzzy_match := false |} ])
  = nrows Examples.named_genes.
Proof.
  apply (proj1 (join_keeps_row_count Examples.named_genes) Examples.no_reduction).
  repeat constructor.
Defined.

(** C2 as stated fails with [fuzzy_match]: the resource spells one gene as
    MIR21 and as MIR-21, both are rewritten to the annotated MIR21, and the
    left join returns that row twice. *)
Lemma fuzzy_match_duplicates_rows :
  let s := base.annotate_genomics Examples.no_reduction
             {| base.data := Examples.mir_table |} "gene_name" "concat" true
             (Examples.on Examples.mir_annotations ["family"]) in
  s.2 = Ok tt
  /\ nrows Examples.mir_annotations = 1
  /\ nrows (Run.annotations s.1) = 2.
Proof. vm_compute. repeat split. Qed.

(** ** Fuzzy matching *)

Section Fuzzy.

Lemma insert_desc_elem p l q :
  q ∈ difflib.insert_desc p l <-> q = p \/ q ∈ l.
Proof.
  induction l as [|x l IH]; simpl.
  - rewrite list_elem_of_singleton. split; [auto|]. intros [?|H]; [done|].
    by apply elem_of_nil in H.
  - destruct (difflib.scored_lt p x); rewrite !elem_of_cons; [rewrite IH|]; tauto.
Qed.

Lemma sort_desc_elem l q : q ∈ difflib.sort_desc l <-> q ∈ l.
Proof.
  unfold difflib.sort_desc. induction l as [|x l IH]; simpl; [done|].
  rewrite insert_desc_elem, IH, elem_of_cons. tauto.
Qed.

(** Every close match is one of the possibilities. *)
Lemma get_close_matches_elem word possibilities m :
  m ∈ difflib.get_close_matches word possibilities -> m ∈ possibilities.
Proof.
  unfold difflib.get_close_matches. intros H.
  apply list_elem_of_fmap in H as ([r x] & -> & H). simpl.
  apply elem_of_take in H as (i & H & _).
  apply list_elem_of_lookup_2, sort_desc_elem, list_elem_of_omap in H
    as (y & Hy & H).
  destruct (difflib.clears_cutoff _); [|discriminate]. by injection H as _ <-.
Qed.

Lemma traverse_strings (l : list value) (ps : list string) :
  traverse (fun p => match p with Str s => Ok s | _ => Raise TypeError end) l = Ok ps
  <-> l = Str <$> ps.
Proof.
  split.
  - revert ps. induction l as [|v l IH]; intros ps H; simpl in H.
    + by injection H as <-.
    + destruct v as [|s|z]; try discriminate. simpl in H.
      apply bind_ok in H as (ps' & Hps & H). injection H as <-.
      rewrite fmap_cons. f_equal. auto.
  - intros ->. apply traverse_Str.
Qed.

(** The rewriting of one index value of the resource. *)
Lemma first_close_match_strings (ps : list string) (word : string) :
  base.first_close_match (Str <$> ps) (Str word)
  = match difflib.get_close_matches word ps with
    | m :: _ => Ok (Str m)
    | [] => Raise IndexError
    end.
Proof.
  unfold base.first_close_match. rewrite traverse_Str. simpl.
  unfold getitem. by destruct (difflib.get_close_matches word ps).
Qed.

Lemma map_index_Ok df f out :
  map_index df f = Ok out ->
  multi df = false
  /\ names out = names df /\ pd.columns out = pd.columns df /\ multi out = false
  /\ Forall2 (fun r r' => exists v, f (default NaN (head r.1)) = Ok v /\ r' = ([v], r.2))
        (rows df) (rows out).
Proof.
  unfold map_index. destruct (multi df); [discriminate|]. intros H.
  apply bind_ok in H as (rs & Hrs & H). injection H as <-. simpl.
  repeat split. apply traverse_Forall2 in Hrs.
  eapply Forall2_impl; [eassumption|]. simpl. intros r r' Hr.
  apply bind_ok in Hr as (v & Hv & Hr). injection Hr as <-. eauto.
Qed.

Lemma traverse_raise {A B} (f : A -> result B) (l : list A) (e : exn) :
  (forall x, x ∈ l -> f x = Raise e \/ exists y, f x = Ok y) ->
  (exists x, x ∈ l /\ f x = Raise e) ->
  traverse f l = Raise e.
Proof.
  induction l as [|x l IH]; intros Hall (x0 & Hin & Hx0).
  - by apply elem_of_nil in Hin.
  - simpl. destruct (Hall x) as [->|[y Hy]]; [left | reflexivity |].
    rewrite Hy. simpl. rewrite IH; [reflexivity | |].
    + intros z Hz. apply Hall. by right.
    + apply elem_of_cons in Hin as [->|Hin]; [congruence | eauto].
Qed.

Lemma fmap_eq_Forall2 {A B C} (f : A -> C) (g : B -> C) l k :
  f <$> l = g <$> k -> Forall2 (fun x y => f x = g y) l k.
Proof.
  intros H. apply list_eq_Forall2 in H.
  exact (proj1 (Forall2_fmap f g eq l k) H).
Qed.

Lemma Forall2_compose {A B C} (P : A -> B -> Prop) (Q : A -> C -> Prop) l k k' :
  Forall2 P l k -> Forall2 Q l k' -> Forall2 (fun y z => exists x, P x y /\ Q x z) k k'.
Proof.
  intros H. revert k'. induction H as [|x y l k HP _ IH]; intros k' HQ;
    inversion HQ; subst; constructor; eauto.
Qed.

(** When every key of the resource has a close match among the annotated
    identifiers, the rewriting returns and puts the first match of each. *)
Lemma fuzzy_rewrite_matched (a df : DataFrame) (ps words : list string) :
  multi a = false -> multi df = false ->
  index_values a = Str <$> ps ->
  index_values df = Str <$> words ->
  (forall w, w ∈ words -> difflib.get_close_matches w ps <> []) ->
  exists out, base.fuzzy_rewrite a df = Ok out
    /\ Forall2 (fun w v => exists m, head (difflib.get_close_matches w ps) = Some m
                                     /\ v = Str m) words (index_values out)
    /\ (forall v, v ∈ index_values out -> v ∈ index_values a)
    /\ nrows out = nrows df.
Proof.
  intros Ha Hdf Hps Hwords Hall. unfold base.fuzzy_rewrite. rewrite Ha, Hps.
  apply fmap_eq_Forall2 in Hwords.
  assert (exists out, map_index df (base.first_close_match (Str <$> ps)) = Ok out)
    as [out Hout].
  { unfold map_index. rewrite Hdf.
    destruct (traverse_total
      (fun r => v ← base.first_close_match (Str <$> ps) (default NaN (head r.1));
                Ok ([v], r.2)) (rows df)) as [rs ->]; [|simpl; eauto].
    intros r Hr. apply list_elem_of_lookup in Hr as [i Hi].
    destruct (Forall2_lookup_l _ _ _ _ _ Hwords Hi) as (w & Hw & ->).
    rewrite first_close_match_strings.
    pose proof (Hall w (list_elem_of_lookup_2 _ _ _ Hw)) as Hne.
    destruct (difflib.get_close_matches w ps); [done|]. simpl. eauto. }
  exists out. split; [assumption|].
  apply map_index_Ok in Hout as (_ & _ & _ & _ & Hrows).
  pose proof (Forall2_compose _ _ _ _ _ Hwords Hrows) as Hc.
  assert (Forall2 (fun w v => exists m, head (difflib.get_close_matches w ps) = Some m
                                         /\ v = Str m) words (index_values out)) as HF.
  { unfold index_values. apply Forall2_fmap_r.
    eapply Forall2_impl; [eassumption|]. simpl.
    intros w r' (r & Hr & v & Hv & ->). rewrite Hr, first_close_match_strings in Hv.
    destruct (difflib.get_close_matches w ps) as [|m ms]; [discriminate|].
    injection Hv as <-. simpl. eauto. }
  split; [assumption|]. split.
  - intros v Hv. apply list_elem_of_lookup in Hv as [i Hi].
    destruct (Forall2_lookup_r _ _ _ _ _ HF Hi) as (w & _ & m & Hm & ->).
    apply list_elem_of_fmap_2. apply (get_close_matches_elem w).
    destruct (difflib.get_close_matches w ps); [discriminate|].
    injection Hm as ->. left.
  - unfold nrows. symmetry. by eapply Forall2_length.
Qed.

(** When some key of the resource has no close match, the rewriting raises
    IndexError. *)
Lemma fuzzy_rewrite_unmatched (a df : DataFrame) (ps words : list string) :
  multi a = false -> multi df = false ->
  index_values a = Str <$> ps ->
  index_values df = Str <$> words ->
  (exists w, w ∈ words /\ difflib.get_close_matches w ps = []) ->
  base.fuzzy_rewrite a df = Raise IndexError.
Proof.
  intros Ha Hdf Hps Hwords (w & Hw & Hnone). unfold base.fuzzy_rewrite.
  rewrite Ha, Hps. apply fmap_eq_Forall2 in Hwords.
  unfold map_index. rewrite Hdf.
  rewrite (traverse_raise _ _ IndexError); [reflexivity| |].
  - intros r Hr. apply list_elem_of_lookup in Hr as [i Hi].
    destruct (Forall2_lookup_l _ _ _ _ _ Hwords Hi) as (w' & _ & ->).
    rewrite first_close_match_strings.
    destruct (difflib.get_close_matches w' ps); simpl; eauto.
  - apply list_elem_of_lookup in Hw as [i Hi].
    destruct (Forall2_lookup_r _ _ _ _ _ Hwords Hi) as (r & Hr & Hrw).
    exists r. split; [by eapply list_elem_of_lookup_2|].
    by rewrite Hrw, first_close_match_strings, Hnone.
Qed.

End Fuzzy.

(** C6 (as amended).  When a join is invoked with fuzzy matching on
    annotations under a single-level index of strings, every value of the
    index of the aggregated table is rewritten to its best close match, one
    of the current index values of the annotations; when some value has no
    close match the call raises IndexError and leaves the annotations as
    they were: no row of the resource is dropped. *)
Theorem fuzzy_match_first_match_or_raise :
  forall named_reduction (database : base.Dataset) (index agg : string)
         (s s1 : Run.store) (database_df : DataFrame) (ps words : list string),
    base.call_get_annotations named_reduction database index agg s = (s1, Ok database_df) ->
    multi (Run.annotations s) = false ->
    index_values (Run.annotations s) = Str <$> ps ->
    index_values database_df = Str <$> words ->
    ((forall w, w ∈ words -> difflib.get_close_matches w ps <> []) ->
       exists out, base.fuzzy_rewrite (Run.annotations s) database_df = Ok out
         /\ Forall2 (fun w v => exists m, head (difflib.get_close_matches w ps) = Some m
                                          /\ v = Str m) words (index_values out)
         /\ (forall v, v ∈ index_values out -> v ∈ index_values (Run.annotations s))
         /\ nrows out = nrows database_df)
    /\ ((exists w, w ∈ words /\ difflib.get_close_matches w ps = []) ->
         base.annotate_genomics named_reduction database index agg true s
         = (s1, Raise IndexError)
         /\ Run.annotations s1 = Run.annotations s).
Proof.
  intros nr database index agg s s1 df ps words Hcall Ha Hps Hwords.
  destruct (base_call_get_annotations_indexed _ _ _ _ _ _ _ Hcall) as (_ & Hdf & _).
  pose proof (base_call_get_annotations_keeps nr database index agg s) as Hkeep.
  rewrite Hcall in Hkeep. simpl in Hkeep.
  split.
  - intros Hall. by apply (fuzzy_rewrite_matched _ _ ps words).
  - intros Hnone. split; [|assumption].
    unfold base.annotate_genomics, Run.bind at 1. rewrite Hcall.
    unfold Run.bind at 1. unfold Run.bind at 1, Run.read, Run.lift. rewrite Hkeep.
    by rewrite (fuzzy_rewrite_unmatched _ _ ps words).
Qed.

Lemma fuzzy_match_first_match_or_raise_witness :
  base.annotate_genomics Examples.no_reduction {| base.data := Examples.let7_table |}
    "gene_name" "concat" true (Examples.on Examples.mir_annotations ["family"])
  = (Examples.on Examples.mir_annotations ["family"], Raise IndexError)
  /\ Run.annotations (Examples.on Examples.mir_annotations ["family"])
     = Run.annotations (Examples.on Examples.mir_annotations ["family"]).
Proof.
  refine (proj2 (fuzzy_match_first_match_or_raise Examples.no_reduction
            {| base.data := Examples.let7_table |} "gene_name" "concat"
            (Examples.on Examples.mir_annotations ["family"])
            (Examples.on Examples.mir_annotations ["family"])
            {| multi := false; names := [Some "gene_name"]; columns := ["family"];
               rows := [([Str "LET7A"], [Str "let-7"])] |}
            ["MIR21"] ["LET7A"] _ _ _ _) _).
  - vm_compute. reflexivity.
  - reflexivity.
  - reflexivity.
  - reflexivity.
  - exists "LET7A". split; [left|]. vm_compute. reflexivity.
Defined.

(** C6 as stated fails: the resource row LET7A has no close match among
    the annotated identifiers, and the join raises IndexError instead of
    completing without that row. *)
Lemma fuzzy_match_without_match_raises :
  let s := base.annotate_genomics Examples.no_reduction
             {| base.data := Examples.let7_table |} "gene_name" "concat" true
             (Examples.on Examples.mir_annotations ["family"]) in
  difflib.get_close_matches "LET7A" ["MIR21"] = []
  /\ s.2 = Raise IndexError
  /\ s.2 <> Ok tt.
Proof. vm_compute. repeat split. discriminate. Qed.

(** ** The check of the aggregated index, and failures *)

(** C7 (as amended).  [annotation.py]'s [get_annotations] checks the index
    of what it has aggregated and raises ValueError when a value is
    duplicated; the table either version of [get_annotations] returns has
    no duplicate in its index.  ([base.py] has the check commented out and
    does not check the index it rewrites under fuzzy matching.) *)
Theorem aggregated_index_checked :
  (forall (self : annotation.Dataset) (index : string) (columns : list string),
      (annotation.get_annotations self index (Some columns)).2
      = Spec.annotation_aggregated self index columns ≫= annotation.check_index_unique)
  /\ (forall d : DataFrame,
        ~ NoDup (index_entries d) -> annotation.check_index_unique d = Raise ValueError)
  /\ (forall d : DataFrame,
        NoDup (index_entries d) -> annotation.check_index_unique d = Ok d)
  /\ (forall (self : annotation.Dataset) (index : string) (columns : list string)
             (out : DataFrame),
        (annotation.get_annotations self index (Some columns)).2 = Ok out ->
        NoDup (index_entries out))
  /\ (forall named_reduction (self : base.Dataset) (index : string)
             (columns : list string) (agg : string) (out : DataFrame),
        (base.get_annotations named_reduction self index columns agg).2 = Ok out ->
        NoDup (index_entries out)).
Proof.
  split; [|split; [|split; [|split]]].
  - intros self index columns. rewrite annotation_get_annotations_unfold.
    unfold Spec.annotation_aggregated. cbn [snd].
    destruct (if _ && _ then _ else _); reflexivity.
  - intros d H. unfold annotation.check_index_unique.
    by rewrite (has_duplicates_true _ H).
  - intros d H. unfold annotation.check_index_unique.
    by rewrite (has_duplicates_false _ H).
  - intros self index columns out H.
    by destruct (annotation_get_annotations_indexed _ _ _ _ H) as ((? & _) & _).
  - intros nr self index columns agg out H.
    by destruct (base_get_annotations_indexed _ _ _ _ _ _ H) as ((? & _) & _).
Qed.

Lemma aggregated_index_checked_witness :
  annotation.check_index_unique
    {| multi := false; names := [Some "gene_name"]; columns := [];
       rows := [([Str "MIR21"], []); ([Str "MIR21"], [])] |}
  = Raise ValueError.
Proof.
  apply (proj1 (proj2 aggregated_index_checked)).
  vm_compute. intros H. inversion H as [|? ? Hin _]; subst. apply Hin. left.
Defined.

(** C7 as stated fails in [base.py]: under fuzzy matching the table that is
    joined has MIR21 twice in its index, no check looks at it, and the call
    returns. *)
Lemma base_joins_duplicated_index_unchecked :
  let s := Examples.on Examples.mir_annotations ["family"] in
  let database := {| base.data := Examples.mir_table |} in
  exists database_df joined,
    base.call_get_annotations Examples.no_reduction database "gene_name" "concat" s
    = (s, Ok database_df)
    /\ base.fuzzy_rewrite Examples.mir_annotations database_df = Ok joined
    /\ index_values joined = [Str "MIR21"; Str "MIR21"]
    /\ has_duplicates joined = true
    /\ (base.annotate_genomics Examples.no_reduction database "gene_name" "concat" true s).2
       = Ok tt.
Proof.
  intros s database. eexists. eexists.
  split; [vm_compute; reflexivity|].
  split; [vm_compute; reflexivity|].
  vm_compute. repeat split.
Qed.

(** C8 (as amended).  A call of [base.py]'s [annotate_genomics] that raises
    while it aggregates the resource (a referenced column is missing) or
    while it matches the keys fuzzily leaves the annotations as they were on
    entry; so does a call of [annotation.py]'s when the key is the name of
    the index of the annotations and the aggregation raises. *)
Theorem failed_aggregation_keeps_annotations :
  forall (index : string) (s s1 : Run.store) (e : exn),
    (forall named_reduction (database : base.Dataset) (agg : string) (fuzzy_match : bool),
        base.call_get_annotations named_reduction database index agg s = (s1, Raise e) ->
        base.annotate_genomics named_reduction database index agg fuzzy_match s
        = (s1, Raise e)
        /\ Run.annotations s1 = Run.annotations s)
    /\ (forall named_reduction (database : base.Dataset) (agg : string)
               (database_df : DataFrame),
        base.call_get_annotations named_reduction database index agg s
        = (s1, Ok database_df) ->
        base.fuzzy_rewrite (Run.annotations s) database_df = Raise e ->
        base.annotate_genomics named_reduction database index agg true s = (s1, Raise e)
        /\ Run.annotations s1 = Run.annotations s)
    /\ (forall database : annotation.Dataset,
        Some index = index_name (Run.annotations s) ->
        annotation.call_get_annotations database index s = (s1, Raise e) ->
        annotation.annotate_genomics database index s = (s1, Raise e)
        /\ Run.annotations s1 = Run.annotations s).
Proof.
  intros index s s1 e. split; [|split].
  - intros nr database agg fuzzy Hcall.
    pose proof (base_call_get_annotations_keeps nr database index agg s) as Hkeep.
    rewrite Hcall in Hkeep. split; [|assumption].
    unfold base.annotate_genomics, Run.bind at 1. by rewrite Hcall.
  - intros nr database agg df Hcall Hfuzzy.
    pose proof (base_call_get_annotations_keeps nr database index agg s) as Hkeep.
    rewrite Hcall in Hkeep. simpl in Hkeep. split; [|assumption].
    unfold base.annotate_genomics, Run.bind at 1. rewrite Hcall.
    unfold Run.bind at 1. unfold Run.bind at 1, Run.read, Run.lift.
    by rewrite Hkeep, Hfuzzy.
  - intros database Hname Hcall.
    pose proof (annotation_call_get_annotations_keeps database index s) as Hkeep.
    rewrite Hcall in Hkeep. split; [|assumption].
    unfold annotation.annotate_genomics, Run.bind at 1.
    unfold annotation.join_on, Run.bind at 1, Run.read.
    rewrite decide_True by assumption.
    unfold Run.bind at 1. by rewrite Hcall.
Qed.

Lemma failed_aggregation_keeps_annotations_witness :
  base.annotate_genomics Examples.no_reduction {| base.data := Examples.go_table |}
    "gene_id" "concat" false (Examples.on Examples.named_genes ["go_id"; "go_name"])
  = (Examples.on Examples.named_genes ["go_id"; "go_name"], Raise Exception)
  /\ Run.annotations (Examples.on Examples.named_genes ["go_id"; "go_name"])
     = Run.annotations (Examples.on Examples.named_genes ["go_id"; "go_name"]).
Proof.
  apply (proj1 (failed_aggregation_keeps_annotations "gene_id"
                  (Examples.on Examples.named_genes ["go_id"; "go_name"])
                  (Examples.on Examples.named_genes ["go_id"; "go_name"]) Exception)).
  reflexivity.
Defined.

(** C8 as stated fails: joining on a key the annotations do not have raises
    KeyError after the index has been reset, and the table is left with a
    RangeIndex and its former index as a column. *)
Lemma failed_join_leaves_index_reset :
  let s := Examples.on Examples.named_genes ["go_id"] in
  let s' := base.annotate_genomics Examples.no_reduction
              {| base.data := Examples.transcript_table |} "transcript_id" "concat"
              false s in
  s'.2 = Raise KeyError
  /\ Run.annotations s'.1 <> Run.annotations s
  /\ names (Run.annotations s'.1) = [None]
  /\ pd.columns (Run.annotations s'.1) = ["gene_name"; "gene_id"; "go_id"].
Proof. vm_compute. repeat split. discriminate. Qed.

(** At the input on which C4 fails: annotations under the composite index
    (gene_id, transcript_id), joined on gene_name.  [annotation.py] reads
    the name of the index, which a MultiIndex does not have, and cannot set
    the index back: it raises KeyError and leaves a RangeIndex.  [base.py]
    reads the names of the levels and restores the index. *)
Lemma annotation_join_loses_composite_index :
  let s := Examples.on Examples.transcripts_of_genes ["go_id"] in
  let old := annotation.annotate_genomics {| annotation.df := Examples.names_table |}
               "gene_name" s in
  let new := base.annotate_genomics Examples.no_reduction
               {| base.data := Examples.names_table |} "gene_name" "concat" false s in
  old.2 = Raise KeyError
  /\ multi (Run.annotations old.1) = false
  /\ names (Run.annotations old.1) = [None]
  /\ index_entries (Run.annotations old.1) = [[Int 0]; [Int 1]]
  /\ new.2 = Ok tt
  /\ multi (Run.annotations new.1) = true
  /\ names (Run.annotations new.1) = names Examples.transcripts_of_genes
  /\ index_entries (Run.annotations new.1) = index_entries Examples.transcripts_of_genes.
Proof. vm_compute. repeat split. Qed.

(** ** Labels and the marker *)

Section Labels.

Lemma last_char_app_marker c : last_char (String.append c "_") = Ok "_"%char.
Proof.
  induction c as [|a c IH]; [reflexivity|]. simpl.
  destruct (String.append c "_") eqn:E; [by destruct c|]. exact IH.
Qed.

Lemma rstrip_nonempty_last c :
  c <> EmptyString -> rstrip "_" c = c -> ~ Spec.marked c.
Proof.
  unfold Spec.marked. induction c as [|a c IH]; [done|]. intros _ H. simpl in H.
  destruct c as [|b c].
  - simpl in *. destruct (Ascii.eqb a "_") eqn:E; [discriminate|].
    intros Hl. injection Hl as ->. by rewrite Ascii.eqb_refl in E.
  - change (last_char (String a (String b c))) with (last_char (String b c)).
    apply IH; [discriminate|].
    destruct (rstrip "_" (String b c)) eqn:E.
    + destruct (Ascii.eqb a "_"); discriminate.
    + congruence.
Qed.

Lemma clean_not_marked c : Spec.clean c -> ~ Spec.marked c.
Proof. intros (Hne & _ & Hr). by apply rstrip_nonempty_last. Qed.

Lemma append_marker_inj c c' :
  String.append c "_" = String.append c' "_" -> c = c'.
Proof.
  revert c'. induction c as [|a c IH]; intros [|a' c'] H; simpl in H.
  - reflexivity.
  - injection H as <- H. by destruct c'.
  - injection H as -> H. by destruct c.
  - injection H as -> H. f_equal. auto.
Qed.




Lemma clean_ne_marker c c' : Spec.clean c -> c <> String.append c' "_".
Proof.
  intros Hc ->. apply (clean_not_marked _ Hc). apply last_char_app_marker.
Qed.

End Labels.

(** ** Rows under labels *)

Section Alignment.

Lemma position_app `{EqDecision A} (x : A) (l1 l2 : list A) :
  position x (l1 ++ l2)
  = match position x l1 with
    | Some i => Some i
    | None => (fun j => length l1 + j) <$> position x l2
    end.
Proof.
  induction l1 as [|y l1 IH]; simpl.
  - by destruct (position x l2).
  - destruct (decide (y = x)); [reflexivity|]. rewrite IH.
    destruct (position x l1); [reflexivity|]. by destruct (position x l2).
Qed.

Lemma position_NoDup `{EqDecision A} (x : A) (l : list A) (k : nat) :
  NoDup l -> l !! k = Some x -> position x l = Some k.
Proof.
  intros Hnd Hk. destruct (position x l) as [i|] eqn:E.
  - destruct (position_Some _ _ _ E) as (l1 & l2 & Hl & _ & Hlen).
    f_equal. apply (NoDup_lookup l i k x); [assumption| |assumption].
    subst l i. by rewrite list_lookup_middle.
  - apply position_None in E. exfalso. apply E. by eapply list_elem_of_lookup_2.
Qed.

Lemma position_lookup `{EqDecision A} (x : A) (l : list A) (i : nat) :
  position x l = Some i -> l !! i = Some x.
Proof.
  intros E. destruct (position_Some _ _ _ E) as (l1 & l2 & -> & _ & <-).
  by rewrite list_lookup_middle.
Qed.

Lemma position_fmap_inj `{EqDecision A, EqDecision B} (f : A -> B) (x : A) (l : list A) :
  (forall y, y ∈ l -> f y = f x -> y = x) ->
  position (f x) (f <$> l) = position x l.
Proof.
  induction l as [|y l IH]; intros Hinj; [reflexivity|]. rewrite fmap_cons. simpl.
  destruct (decide (y = x)) as [->|Hne].
  - by rewrite decide_True.
  - rewrite decide_False.
    + rewrite IH; [reflexivity|]. intros z Hz. apply Hinj. by right.
    + intros Heq. apply Hne, Hinj; [left | assumption].
Qed.

Lemma labelled_column df r n :
  n ∈ columns df -> Spec.labelled df r n = pick (columns df) n r.2.
Proof.
  intros Hn. unfold Spec.labelled, pick.
  by destruct (position_is_Some _ _ Hn) as (p & -> & _).
Qed.

Lemma labelled_level df r n l :
  n ∉ columns df -> position (Some n) (names df) = Some l ->
  Spec.labelled df r n = default NaN (r.1 !! l).
Proof.
  intros Hn Hl. unfold Spec.labelled. apply position_None in Hn. by rewrite Hn, Hl.
Qed.

Lemma pick_app_l cols1 cols2 c cells1 cells2 :
  c ∈ cols1 -> length cells1 = length cols1 ->
  pick (cols1 ++ cols2) c (cells1 ++ cells2) = pick cols1 c cells1.
Proof.
  intros Hc Hlen. unfold pick. rewrite position_app.
  destruct (position_is_Some _ _ Hc) as (p & Hp & Hl). rewrite Hp.
  rewrite lookup_app_l; [reflexivity|]. rewrite Hlen. by eapply lookup_lt_Some.
Qed.

Lemma pick_app_r cols1 cols2 c cells1 cells2 :
  c ∉ cols1 -> length cells1 = length cols1 ->
  pick (cols1 ++ cols2) c (cells1 ++ cells2) = pick cols2 c cells2.
Proof.
  intros Hc Hlen. unfold pick. rewrite position_app.
  apply position_None in Hc. rewrite Hc.
  destruct (position c cols2) as [p|]; [|reflexivity]. simpl.
  rewrite lookup_app_r by lia. f_equal. f_equal. lia.
Qed.

Lemma resolve_key_labelled df key keys :
  resolve_key df key = Ok keys ->
  keys = (fun r => Spec.labelled df r key) <$> rows df
  /\ (key ∈ columns df \/ Some key ∈ names df).
Proof.
  unfold resolve_key, Spec.labelled.
  destruct (position key (columns df)) as [p|] eqn:Ep;
    destruct (position (Some key) (names df)) as [l|] eqn:El; try discriminate;
    intros H; injection H as <-; (split; [reflexivity|]).
  - left. by eapply list_elem_of_lookup_2, position_lookup.
  - right. by eapply list_elem_of_lookup_2, position_lookup.
Qed.

Lemma aligned_trans (S : string -> Prop) df1 df2 df3 :
  Spec.aligned S df1 df2 -> Spec.aligned S df2 df3 -> Spec.aligned S df1 df3.
Proof.
  unfold Spec.aligned. generalize (rows df1), (rows df2), (rows df3).
  intros l1 l2 l3 H12. revert l3.
  induction H12 as [|r1 r2 l1 l2 H _ IH]; intros l3 H23; inversion H23; subst.
  - constructor.
  - constructor; [|by apply IH]. intros n Hn. rewrite <- H by assumption. auto.
Qed.

Lemma aligned_weaken (S S' : string -> Prop) df df' :
  (forall n, S' n -> S n) -> Spec.aligned S df df' -> Spec.aligned S' df df'.
Proof.
  intros HS H. unfold Spec.aligned in *.
  eapply Forall2_impl; [exact H|]. simpl. intros r r' Hr n Hn. auto.
Qed.

Lemma Forall2_fmap_self {A B} (P : A -> B -> Prop) (f : A -> B) (l : list A) :
  (forall x, x ∈ l -> P x (f x)) -> Forall2 P l (f <$> l).
Proof.
  induction l as [|x l IH]; intros H; [constructor|]. rewrite fmap_cons.
  constructor; [apply H; left|]. apply IH. intros y Hy. apply H. by right.
Qed.

Lemma Forall2_imap_self {A B} (P : A -> B -> Prop) (f : nat -> A -> B) (l : list A) :
  (forall i x, x ∈ l -> P x (f i x)) -> Forall2 P l (imap f l).
Proof.
  revert f. induction l as [|x l IH]; intros f H; [constructor|]. simpl.
  constructor; [apply H; left|]. apply IH. intros i y Hy. apply H. by right.
Qed.

Lemma Forall2_bind_singletons {A B} (P : A -> B -> Prop) (f : A -> list B) (l : list A) :
  (forall x, x ∈ l -> exists y, f x = [y] /\ P x y) -> Forall2 P l (l ≫= f).
Proof.
  induction l as [|x l IH]; intros H; [constructor|]. rewrite bind_cons.
  destruct (H x) as (y & -> & Hy); [left|]. simpl. constructor; [assumption|].
  apply IH. intros z Hz. apply H. by right.
Qed.

Lemma Forall2_trans_rel {A B C} (P : A -> B -> Prop) (Q : B -> C -> Prop)
    (R : A -> C -> Prop) l1 l2 l3 :
  (forall x y z, P x y -> Q y z -> R x z) ->
  Forall2 P l1 l2 -> Forall2 Q l2 l3 -> Forall2 R l1 l3.
Proof.
  intros HR H12. revert l3.
  induction H12 as [|x y l1 l2 H _ IH]; intros l3 H23; inversion H23; subst;
    constructor; eauto.
Qed.

Lemma Forall2_chain {A B C} (P : A -> B -> Prop) (Q : B -> C -> Prop) l1 l2 l3 :
  Forall2 P l1 l2 -> Forall2 Q l2 l3 ->
  Forall2 (fun x z => exists y, P x y /\ Q y z) l1 l3.
Proof.
  intros H12. revert l3.
  induction H12 as [|x y l1 l2 H _ IH]; intros l3 H23; inversion H23; subst;
    constructor; eauto.
Qed.

Lemma Forall2_and {A B} (P Q : A -> B -> Prop) l k :
  Forall2 P l k -> Forall2 Q l k -> Forall2 (fun x y => P x y /\ Q x y) l k.
Proof.
  intros HP. induction HP as [|x y l k Hxy _ IH]; intros HQ; inversion HQ; subst;
    constructor; auto.
Qed.

Lemma Forall2_Forall_and {A B} (P : A -> B -> Prop) (Q : A -> Prop) l k :
  Forall Q l -> Forall2 P l k -> Forall2 (fun x y => Q x /\ P x y) l k.
Proof.
  intros HQ H. induction H as [|x y l k Hxy _ IH]; [constructor|].
  inversion HQ; subst. constructor; auto.
Qed.

(** Inversion of the steps of a run. *)
Lemma run_bind_Ok {A B} (m : Run.M A) (k : A -> Run.M B) s s' b :
  Run.bind m k s = (s', Ok b) ->
  exists s1 a, m s = (s1, Ok a) /\ k a s1 = (s', Ok b).
Proof.
  unfold Run.bind. destruct (m s) as [s1 [a|e]]; [eauto|]. intros H. by injection H.
Qed.

Lemma run_update_Ok f s s' u :
  Run.update f s = (s', Ok u) ->
  exists df', f (Run.annotations s) = Ok df'
    /\ s' = {| Run.annotations := df'; Run.columns_arg := Run.columns_arg s |}.
Proof.
  unfold Run.update, Run.bind, Run.read, Run.lift, Run.write.
  destruct (f (Run.annotations s)) as [df'|e]; intros H; [|by injection H].
  injection H as <- _. eauto.
Qed.

End Alignment.

(** ** The steps of a join, row by row *)

Section Steps.

Lemma insert_levels (l : list string) : forall cols cols',
  for_each (fun cols n => if decide (n ∈ cols) then Raise ValueError else Ok (n :: cols))
    l cols = Ok cols' ->
  cols' = reverse l ++ cols /\ NoDup l /\ forall n, n ∈ l -> n ∉ cols.
Proof.
  induction l as [|x l IH]; intros cols cols' H; simpl in H.
  - injection H as <-. split; [reflexivity|]. split; [constructor|].
    intros n Hn. by apply elem_of_nil in Hn.
  - destruct (decide (x ∈ cols)) as [|Hx]; [discriminate|]. simpl in H.
    destruct (IH _ _ H) as (-> & Hnd & Hdis). split; [|split].
    + rewrite reverse_cons, <- app_assoc. reflexivity.
    + constructor; [|assumption]. intros Hin. apply (Hdis x Hin). left.
    + intros n Hn. apply elem_of_cons in Hn as [->|Hn]; [assumption|].
      intros Hc. apply (Hdis n Hn). by right.
Qed.

Lemma reset_index_columns df df' :
  reset_index df = Ok df' ->
  columns df' = level_labels df ++ columns df
  /\ NoDup (level_labels df)
  /\ (forall n, n ∈ level_labels df -> n ∉ columns df)
  /\ names df' = [None] /\ multi df' = false
  /\ rows df' = imap (fun i r => ([Int (Z.of_nat i)], r.1 ++ r.2)) (rows df).
Proof.
  intros H. apply reset_index_Ok in H as (cols & Hc & ->). simpl.
  destruct (insert_levels _ _ _ Hc) as (-> & Hnd & Hdis).
  rewrite reverse_involutive. split; [reflexivity|].
  split; [by rewrite reverse_Permutation in Hnd|].
  split; [|done]. intros n Hn. apply Hdis. by apply elem_of_reverse.
Qed.

Lemma level_labels_length df : length (level_labels df) = length (names df).
Proof.
  unfold level_labels. destruct (multi df); [apply length_imap | apply length_fmap].
Qed.

Lemma level_labels_lookup df k n :
  names df !! k = Some (Some n) -> level_labels df !! k = Some n.
Proof.
  intros H. unfold level_labels. destruct (multi df).
  - rewrite list_lookup_imap. unfold label in *. by rewrite H.
  - rewrite list_lookup_fmap. unfold label in *. by rewrite H.
Qed.

Lemma reset_index_aligned df df' :
  reset_index df = Ok df' -> Spec.wf_rows df ->
  Spec.aligned (fun n => n ∈ columns df \/ Some n ∈ names df) df df'
  /\ Spec.wf_rows df'.
Proof.
  intros H Hwf.
  destruct (reset_index_columns _ _ H) as (Hcols & Hnd & Hdis & Hn & _ & Hrows).
  unfold Spec.aligned, Spec.wf_rows in *. rewrite Hrows, Hcols, Hn. split.
  - apply Forall2_imap_self. intros i r Hr n Hlabel.
    apply (proj1 (Forall_forall _ _) Hwf) in Hr as [Hl1 Hl2].
    unfold Spec.labelled. rewrite Hcols, position_app. cbn [snd fst].
    destruct (position n (columns df)) as [p|] eqn:Ep.
    + assert (position n (level_labels df) = None) as ->.
      { apply position_None. intros Hin. apply (Hdis n Hin).
        by eapply list_elem_of_lookup_2, position_lookup. }
      simpl. rewrite lookup_app_r by (rewrite level_labels_length; lia).
      rewrite level_labels_length, Hl1. f_equal. f_equal. lia.
    + destruct Hlabel as [Hc|Hlev]; [by apply position_None in Ep|].
      destruct (position_is_Some _ _ Hlev) as (l & Hl & Hlk). rewrite Hl.
      rewrite (position_NoDup n _ l Hnd (level_labels_lookup _ _ _ Hlk)).
      rewrite lookup_app_l; [reflexivity|].
      rewrite Hl1. by eapply lookup_lt_Some.
  - apply Forall_forall. intros r' Hr'.
    apply list_elem_of_lookup in Hr' as [i Hi].
    rewrite list_lookup_imap in Hi.
    destruct (rows df !! i) as [r|] eqn:Er; [|discriminate]. injection Hi as <-.
    apply list_elem_of_lookup_2 in Er.
    apply (proj1 (Forall_forall _ _) Hwf) in Er as [Hl1 Hl2]. simpl.
    split; [reflexivity|]. rewrite !length_app, level_labels_length. lia.
Qed.

Lemma set_index_aligned df keys df' :
  set_index df keys = Ok df' -> Spec.wf_rows df ->
  Spec.aligned (fun n => n ∈ columns df) df df'
  /\ Spec.wf_rows df' /\ names df' = keys
  /\ columns df' = filter (fun c => is_key keys c = false) (columns df).
Proof.
  intros H Hwf. apply set_index_Ok in H as (_ & Hkeys & ->).
  unfold Spec.aligned, Spec.wf_rows in *. cbn [rows names columns].
  split; [|split; [|done]].
  - apply Forall2_fmap_self. intros r Hr n Hn.
    apply (proj1 (Forall_forall _ _) Hwf) in Hr as [Hl1 Hl2].
    rewrite (labelled_column df r n Hn).
    destruct (is_key keys n) eqn:Ek.
    + unfold is_key in Ek. apply bool_decide_eq_true in Ek.
      destruct (position_is_Some _ _ Ek) as (l & Hl & Hlk).
      rewrite (labelled_level _ _ n l); cbn [names columns fst]; [|
        |assumption].
      * rewrite list_lookup_fmap, Hlk. reflexivity.
      * rewrite list_elem_of_filter. intros [Hf _]. unfold is_key in Hf.
        by rewrite (bool_decide_eq_true_2 _ Ek) in Hf.
    + rewrite labelled_column; cbn [columns snd].
      * apply (pick_keep_cells _ (fun c => negb (is_key keys c)));
          [intros; apply is_key_keep | by rewrite Ek | assumption].
      * by apply list_elem_of_filter.
  - apply Forall_forall. intros r' Hr'.
    apply list_elem_of_fmap in Hr' as (r & -> & Hr).
    apply (proj1 (Forall_forall _ _) Hwf) in Hr as [Hl1 Hl2]. cbn [fst snd].
    split; [apply length_fmap|].
    apply (length_keep_cells _ (fun c => negb (is_key keys c)));
      [intros; apply is_key_keep | assumption].
Qed.

Lemma Forall2_bind_fmap_singletons {A B C} (P : A -> C -> Prop) (g : A -> B)
    (f : B -> list C) (l : list A) :
  (forall x, x ∈ l -> exists y, f (g x) = [y] /\ P x y) ->
  Forall2 P l ((g <$> l) ≫= f).
Proof.
  induction l as [|x l IH]; intros H; [constructor|]. rewrite fmap_cons, bind_cons.
  destruct (H x) as (y & -> & Hy); [left|]. simpl. constructor; [assumption|].
  apply IH. intros z Hz. apply H. by right.
Qed.

Lemma zip_fmap_self {A B} (g : A -> B) (l : list A) :
  zip (g <$> l) l = (fun x => (g x, x)) <$> l.
Proof.
  induction l as [|x l IH]; [reflexivity|].
  rewrite !fmap_cons. cbn [zip zip_with]. f_equal. apply IH.
Qed.

Lemma pick_replicate_NaN cols c n : pick cols c (replicate n NaN) = NaN.
Proof.
  unfold pick. destruct (position c cols) as [p|]; [|reflexivity].
  destruct (replicate n NaN !! p) as [v|] eqn:E; [|reflexivity].
  apply lookup_replicate in E as [-> _]. reflexivity.
Qed.

Lemma pick_fmap_inj (ren : string -> string) cols c cells :
  (forall c', c' ∈ cols -> ren c' = ren c -> c' = c) ->
  pick (ren <$> cols) (ren c) cells = pick cols c cells.
Proof. intros H. unfold pick. by rewrite position_fmap_inj. Qed.

(** What the aggregated table gives a key: the cells of its row, or NaN. *)
Lemma join_match right k :
  Spec.wf_rows right -> NoDup (index_values right) ->
  exists m,
    match filter (fun rr => default NaN (head rr.1) = k) (rows right) with
    | [] => [replicate (length (columns right)) NaN]
    | ms => snd <$> ms
    end = [m]
    /\ length m = length (columns right)
    /\ forall c, pick (columns right) c m = Spec.incoming right k c.
Proof.
  intros Hwf Hnd. unfold Spec.incoming.
  pose proof (filter_NoDup_key (fun rr : list value * list value => default NaN (head rr.1))
                k (rows right) Hnd) as Hle.
  destruct (filter _ (rows right)) as [|rr ms] eqn:E.
  - eexists. split; [reflexivity|]. split; [apply length_replicate|].
    intros c. apply pick_replicate_NaN.
  - destruct ms; [|simpl in Hle; lia]. exists rr.2. split; [reflexivity|].
    split; [|reflexivity].
    assert (rr ∈ rows right) as Hrr.
    { assert (rr ∈ filter (fun rr => default NaN (head rr.1) = k) (rows right)) as H
        by (rewrite E; left).
      by apply list_elem_of_filter in H as [_ ?]. }
    by apply (proj1 (Forall_forall _ _) Hwf) in Hrr as [_ ?].
Qed.

(** The left join, row by row. *)
Lemma join_aligned left right on sfx df' :
  pd.join left right on sfx = Ok df' ->
  Spec.wf_rows left -> Spec.wf_rows right -> NoDup (index_values right) ->
  let ren := fun c => if decide (c ∈ columns left) then String.append c sfx else c in
  names df' = names left /\ multi df' = multi left
  /\ columns df' = columns left ++ (ren <$> columns right)
  /\ (on ∈ columns left \/ Some on ∈ names left)
  /\ Spec.wf_rows df'
  /\ Forall2 (fun r r' =>
        r'.1 = r.1
        /\ (forall n, n ∈ columns left -> Spec.labelled df' r' n = Spec.labelled left r n)
        /\ (forall c, c ∈ columns right -> ren c ∉ columns left ->
              (forall c', c' ∈ columns right -> ren c' = ren c -> c' = c) ->
              Spec.labelled df' r' (ren c)
              = Spec.incoming right (Spec.labelled left r on) c))
       (rows left) (rows df').
Proof.
  intros H Hwf Hwfr Hnd ren.
  apply join_Ok in H as (lkeys & Hk & _ & ->).
  apply resolve_key_labelled in Hk as [-> Hon].
  unfold Spec.wf_rows in *. cbn [names multi columns rows]. fold ren.
  split; [reflexivity|]. split; [reflexivity|]. split; [reflexivity|].
  split; [assumption|].
  rewrite zip_fmap_self.
  assert (forall r, r ∈ rows left ->
            exists m, match filter (fun rr => default NaN (head rr.1) = Spec.labelled left r on)
                              (rows right) with
                      | [] => [(r.1, r.2 ++ replicate (length (columns right)) NaN)]
                      | ms => (fun rr => (r.1, r.2 ++ rr.2)) <$> ms
                      end = [(r.1, r.2 ++ m)]
                      /\ length m = length (columns right)
                      /\ forall c, pick (columns right) c m
                                   = Spec.incoming right (Spec.labelled left r on) c)
    as Hrow.
  { intros r _.
    destruct (join_match right (Spec.labelled left r on) Hwfr Hnd) as (m & Hm & Hlen & Hpick).
    exists m. split; [|auto].
    destruct (filter _ (rows right)) as [|rr ms].
    - by injection Hm as <-.
    - destruct ms; [|discriminate]. by injection Hm as <-. }
  split.
  - apply Forall_forall. intros r' Hr'.
    apply list_elem_of_bind in Hr' as (p & Hr' & Hp).
    apply list_elem_of_fmap in Hp as (r & -> & Hr). cbn [fst snd] in Hr'.
    destruct (Hrow r Hr) as (m & Hm & Hlen & _). rewrite Hm in Hr'.
    apply list_elem_of_singleton in Hr'. subst r'.
    apply (proj1 (Forall_forall _ _) Hwf) in Hr as [Hl1 Hl2]. cbn [fst snd].
    split; [assumption|]. rewrite !length_app, length_fmap. lia.
  - apply Forall2_bind_fmap_singletons. intros r Hr. cbn [fst snd].
    destruct (Hrow r Hr) as (m & Hm & Hlen & Hpick).
    exists (r.1, r.2 ++ m). split; [assumption|].
    apply (proj1 (Forall_forall _ _) Hwf) in Hr as [Hl1 Hl2].
    split; [reflexivity|]. split.
    + intros n Hn. rewrite labelled_column; cbn [columns snd].
      * rewrite pick_app_l by assumption. symmetry. by apply labelled_column.
      * rewrite elem_of_app. by left.
    + intros c Hc Hfresh Hinj. rewrite labelled_column; cbn [columns snd].
      * rewrite pick_app_r by assumption. rewrite pick_fmap_inj by assumption.
        apply Hpick.
      * rewrite elem_of_app. right. by apply list_elem_of_fmap_2.
Qed.

Lemma fillna_from_aligned df old_col new_col df' :
  fillna_from df old_col new_col = Ok df' -> Spec.wf_rows df ->
  old_col ∈ columns df /\ new_col ∈ columns df
  /\ columns df' = columns df /\ names df' = names df /\ multi df' = multi df
  /\ Spec.wf_rows df'
  /\ Forall2 (fun r r' =>
        r'.1 = r.1
        /\ Spec.labelled df' r' old_col
           = Spec.filled (Spec.labelled df r old_col) (Spec.labelled df r new_col)
        /\ forall n, n <> old_col -> Spec.labelled df' r' n = Spec.labelled df r n)
       (rows df) (rows df').
Proof.
  unfold fillna_from. intros H Hwf.
  destruct (position old_col (columns df)) as [p|] eqn:Ep; [|discriminate].
  destruct (position new_col (columns df)) as [q|] eqn:Eq; [|discriminate].
  injection H as <-. unfold Spec.wf_rows in *. cbn [columns names multi rows].
  split; [by eapply list_elem_of_lookup_2, position_lookup|].
  split; [by eapply list_elem_of_lookup_2, position_lookup|].
  split; [reflexivity|]. split; [reflexivity|]. split; [reflexivity|]. split.
  - apply Forall_forall. intros r' Hr'.
    apply list_elem_of_fmap in Hr' as (r & -> & Hr).
    apply (proj1 (Forall_forall _ _) Hwf) in Hr as [Hl1 Hl2]. cbn [fst snd].
    split; [assumption|]. destruct (isna _); [by rewrite length_insert | assumption].
  - apply Forall2_fmap_self. intros r Hr.
    apply (proj1 (Forall_forall _ _) Hwf) in Hr as [Hl1 Hl2].
    assert (p < length r.2) as Hp.
    { rewrite Hl2. by eapply lookup_lt_Some, position_lookup. }
    split; [reflexivity|]. unfold Spec.labelled, Spec.filled. cbn [columns names fst snd].
    rewrite Ep, Eq. split.
    + destruct (isna (default NaN (r.2 !! p))); [|reflexivity].
      by rewrite list_lookup_insert_eq.
    + intros n Hn. destruct (position n (columns df)) as [p'|] eqn:Ep'; [|reflexivity].
      destruct (isna (default NaN (r.2 !! p))); [|reflexivity].
      rewrite list_lookup_insert_ne; [reflexivity|].
      intros ->. apply Hn. apply position_lookup in Ep, Ep'. congruence.
Qed.

Lemma drop_columns_aligned df col df' :
  drop_columns df col = Ok df' -> Spec.wf_rows df ->
  columns df' = filter (fun c => c <> col) (columns df)
  /\ names df' = names df /\ multi df' = multi df
  /\ Spec.wf_rows df'
  /\ Forall2 (fun r r' =>
        r'.1 = r.1
        /\ forall n, n ∈ columns df -> n <> col ->
             Spec.labelled df' r' n = Spec.labelled df r n)
       (rows df) (rows df').
Proof.
  unfold drop_columns. intros H Hwf.
  destruct (decide (col ∈ columns df)); [|discriminate]. injection H as <-.
  unfold Spec.wf_rows in *. cbn [columns names multi rows].
  assert (forall x, x <> col <-> negb (bool_decide (x = col)) = true) as Hkeep.
  { intros x. rewrite negb_true_iff, bool_decide_eq_false. tauto. }
  split; [reflexivity|]. split; [reflexivity|]. split; [reflexivity|]. split.
  - apply Forall_forall. intros r' Hr'.
    apply list_elem_of_fmap in Hr' as (r & -> & Hr).
    apply (proj1 (Forall_forall _ _) Hwf) in Hr as [Hl1 Hl2]. cbn [fst snd].
    split; [assumption|]. by apply length_keep_cells.
  - apply Forall2_fmap_self. intros r Hr.
    apply (proj1 (Forall_forall _ _) Hwf) in Hr as [Hl1 Hl2].
    split; [reflexivity|]. intros n Hn Hne.
    rewrite (labelled_column df r n Hn). rewrite labelled_column; cbn [columns snd].
    + apply (pick_keep_cells _ (fun c => negb (bool_decide (c = col))));
        [assumption | by apply Hkeep | assumption].
    + by apply list_elem_of_filter.
Qed.

End Steps.

(** ** The join of [base.py] *)

Section Join.

Variables (a right : DataFrame) (index : string).
Hypothesis Hwf : pd.wf a.
Hypothesis Hwf_right : Spec.wf_rows right.
Hypothesis Hunique : NoDup (index_values right).
Hypothesis Hclean : forall c, c ∈ columns a -> Spec.clean c.
Hypothesis Hclean_levels : forall n, Some n ∈ names a -> Spec.clean n.
Hypothesis Hclean_right : forall c, c ∈ columns right -> Spec.clean c.
Hypothesis Hindex : index ∉ columns right.

(** The renaming of a shared column is its own. *)
Lemma marked_rename_inj (cols : list string) X :
  (forall c, c ∈ cols -> Spec.clean c) -> X ∈ cols -> X ∈ columns right ->
  let ren := fun c => if decide (c ∈ cols) then String.append c "_" else c in
  ren X = String.append X "_"
  /\ (ren X ∉ cols)
  /\ forall c', c' ∈ columns right -> ren c' = ren X -> c' = X.
Proof.
  intros Hc HX HXr ren. unfold ren. rewrite (decide_True _ _ HX).
  split; [reflexivity|]. split.
  - intros Hin. apply (clean_ne_marker _ X (Hc _ Hin)). reflexivity.
  - intros c' Hc' Heq. destruct (decide (c' ∈ cols)).
    + by apply append_marker_inj.
    + exfalso. by apply (clean_ne_marker _ X (Hclean_right _ Hc')).
Qed.

(** The join on the index of the annotations (lines 288-291). *)
Lemma direct_join_joined a' :
  pd.join a right index "_" = Ok a' -> Spec.joined a right index a'.
Proof.
  intros H. destruct Hwf as [_ Hrows].
  destruct (join_aligned _ _ _ _ _ H Hrows Hwf_right Hunique)
    as (Hn & Hm & Hc & _ & Hwf' & HF).
  unfold Spec.joined. rewrite Hn, Hm, Hc.
  split; [reflexivity|]. split; [reflexivity|]. split; [assumption|]. split; [|split; [|split]].
  - unfold Spec.same_entries. eapply Forall2_impl; [exact HF|]. by intros r r' [? _].
  - intros n Hin. apply elem_of_app in Hin as [?|Hin]; [by left|]. right.
    apply list_elem_of_fmap in Hin as (c & -> & Hcr). exists c. split; [assumption|].
    destruct (decide (c ∈ columns a)); auto.
  - intros X HX HXr. rewrite !elem_of_app. split; [by left|]. right.
    apply list_elem_of_fmap. exists X. split; [|assumption].
    by rewrite decide_True.
  - eapply Forall2_impl; [exact HF|]. simpl. intros r r' (_ & Hold & Hnew) X HX HXr.
    split; [by apply Hold|].
    destruct (marked_rename_inj (columns a) X Hclean HX HXr) as (Hren & Hfresh & Hinj).
    simpl in *. rewrite <- Hren. by apply Hnew.
Qed.

(** The index [annotate_genomics] saves is the list of level names. *)
Lemma old_index_names :
  (if multi a then names a else [index_name a]) = names a.
Proof.
  destruct Hwf as [Hn _]. unfold index_name. destruct (multi a); [reflexivity|].
  destruct (names a) as [|n [|? ?]]; try discriminate. reflexivity.
Qed.

Lemma multi_of_names : (1 <? length (names a)) = multi a.
Proof.
  destruct Hwf as [Hn _]. destruct (multi a).
  - apply Nat.ltb_lt. lia.
  - rewrite Hn. reflexivity.
Qed.

Lemma level_labels_named df :
  (forall k, k ∈ names df -> exists c, k = Some c) ->
  Some <$> level_labels df = names df.
Proof.
  intros Hnamed. apply list_eq. intros j. rewrite list_lookup_fmap.
  unfold label in *.
  destruct (names df !! j) as [k|] eqn:E.
  - destruct (Hnamed k (list_elem_of_lookup_2 _ _ _ E)) as [c ->].
    by rewrite (level_labels_lookup _ _ _ E).
  - rewrite (proj2 (lookup_ge_None _ _)); [symmetry; exact E|].
    rewrite level_labels_length. by apply lookup_ge_None.
Qed.

(** Reading a tuple back level by level gives the tuple. *)
Lemma entry_by_levels (levels : list label) (entry : list value) :
  NoDup levels -> length entry = length levels ->
  (fun k => default NaN (entry !! default 0 (position k levels))) <$> levels = entry.
Proof.
  intros Hnd Hlen. apply list_eq. intros j. rewrite list_lookup_fmap.
  destruct (levels !! j) as [k|] eqn:E; simpl.
  - rewrite (position_NoDup k levels j Hnd E). simpl.
    destruct (entry !! j) eqn:Ee; [reflexivity|].
    apply lookup_ge_None in Ee. apply lookup_lt_Some in E. lia.
  - symmetry. apply lookup_ge_None. apply lookup_ge_None in E. lia.
Qed.

(** The join through a temporary index (lines 292-304). *)
Lemma rekeyed_join_joined a1 a2 a3 a4 a5 :
  reset_index a = Ok a1 ->
  set_index a1 [Some index] = Ok a2 ->
  pd.join a2 right index "_" = Ok a3 ->
  reset_index a3 = Ok a4 ->
  set_index a4 (names a) = Ok a5 ->
  Spec.joined a right index a5.
Proof.
  intros H1 H2 H3 H4 H5. destruct Hwf as [_ Hrows].
  set (S := fun n => n ∈ columns a \/ Some n ∈ names a).
  (* the five frames *)
  destruct (reset_index_columns _ _ H1) as (Hc1 & Hnd1 & Hdis1 & Hn1 & _ & _).
  destruct (reset_index_aligned _ _ H1 Hrows) as (Hal1 & Hwf1).
  destruct (set_index_aligned _ _ _ H2 Hwf1) as (Hal2 & Hwf2 & Hn2 & Hc2).
  pose proof (set_index_Ok _ _ _ H2) as (_ & Hkey2 & Ha2).
  assert (multi a2 = false) as Hm2 by (by rewrite Ha2).
  destruct (Hkey2 (Some index)) as (? & Heq & Hidx1); [left|]. injection Heq as <-.
  destruct (join_aligned _ _ _ _ _ H3 Hwf2 Hwf_right Hunique)
    as (Hn3 & Hm3 & Hc3 & _ & Hwf3 & HF3).
  destruct (reset_index_columns _ _ H4) as (Hc4 & _ & Hdis4 & _ & _ & _).
  destruct (reset_index_aligned _ _ H4 Hwf3) as (Hal4 & Hwf4).
  assert (level_labels a3 = [index]) as Hl3.
  { unfold level_labels. by rewrite Hm3, Hm2, Hn3, Hn2. }
  rewrite Hl3 in Hc4, Hdis4.
  destruct (set_index_aligned _ _ _ H5 Hwf4) as (Hal5 & Hwf5 & Hn5 & Hc5).
  pose proof (set_index_Ok _ _ _ H5) as (_ & Hkey5 & Ha5).
  assert (Forall2 (fun r4 r5 : list value * list value =>
            r5.1 = (fun k => pick (columns a4) (default EmptyString k) r4.2) <$> names a)
            (rows a4) (rows a5)) as Hent5.
  { rewrite Ha5. cbn [rows]. apply Forall2_fmap_self. by intros r4 _. }
  unfold Spec.aligned in Hal1, Hal2, Hal4, Hal5.
  (* the levels of [a] are named, distinct, and no column of [a] *)
  assert (Some <$> level_labels a = names a) as Hlvl.
  { apply level_labels_named. intros k Hk. destruct (Hkey5 k Hk) as (c & -> & _). eauto. }
  assert (forall n, Some n ∈ names a <-> n ∈ level_labels a) as Hlevel.
  { intros n. rewrite <- Hlvl. split.
    - intros Hin. apply list_elem_of_fmap in Hin as (c & Heq & ?). by injection Heq as ->.
    - apply list_elem_of_fmap_2. }
  assert (NoDup (names a)) as Hnd.
  { rewrite <- Hlvl. apply NoDup_fmap_2; [|assumption]. intros x y; congruence. }
  assert (forall n, S n -> n ∈ columns a1) as HS1.
  { intros n [Hn|Hn]; rewrite Hc1, elem_of_app; [by right | left; by apply Hlevel]. }
  assert (forall n, n ∈ columns a2 <-> n ∈ columns a1 /\ n <> index) as Hin2.
  { intros n. rewrite Hc2, list_elem_of_filter, is_key_single, bool_decide_eq_false. tauto. }
  assert (S index) as HSi.
  { rewrite Hc1, elem_of_app in Hidx1. destruct Hidx1 as [Hl|?]; [right|by left].
    by apply Hlevel. }
  assert (forall c, c ∈ columns a2 -> Spec.clean c) as Hclean2.
  { intros c Hc. apply Hin2 in Hc as [Hc _]. rewrite Hc1, elem_of_app in Hc.
    destruct Hc as [Hc|Hc]; [apply Hclean_levels; by apply Hlevel | by apply Hclean]. }
  assert (forall X, X ∈ columns a -> X ∈ columns right -> X ∈ columns a2) as HX2.
  { intros X HX HXr. apply Hin2. split; [apply HS1; by left|]. by intros ->. }
  (* one row through the five frames *)
  assert (Forall2 (fun r r5 =>
            length r.1 = length (names a)
            /\ r5.1 = (fun k => default NaN (r.1 !! default 0 (position k (names a))))
                      <$> names a
            /\ (forall n, S n -> Spec.labelled a5 r5 n = Spec.labelled a r n)
            /\ (forall X, X ∈ columns a -> X ∈ columns right ->
                  Spec.labelled a5 r5 (String.append X "_")
                  = Spec.incoming right (Spec.labelled a r index) X))
            (rows a) (rows a5)) as Hrow.
  { pose proof (Forall2_chain _ _ _ _ _ (Forall2_Forall_and _ _ _ _ Hrows Hal1) Hal2) as C2.
    pose proof (Forall2_chain _ _ _ _ _ C2 HF3) as C3.
    pose proof (Forall2_chain _ _ _ _ _ C3 Hal4) as C4.
    pose proof (Forall2_chain _ _ _ _ _ C4 (Forall2_and _ _ _ _ Hal5 Hent5)) as C5.
    eapply Forall2_impl; [exact C5|]. cbv beta.
    intros r r5 (r4 & (r3 & (r2 & (r1 & [[Hl1 Hl2] H01] & H12) & (Hent & Hold & Hnew))
                       & H34) & H45 & Hr5).
    assert (forall n, S n -> Spec.labelled a2 r2 n = Spec.labelled a r n) as Hlab2.
    { intros n Hn. rewrite (H12 n (HS1 n Hn)). by apply H01. }
    assert (forall n, S n -> Spec.labelled a4 r4 n = Spec.labelled a r n) as Hlab4.
    { intros n Hn. rewrite <- (Hlab2 n Hn). destruct (decide (n = index)) as [->|Hne].
      - rewrite H34 by (right; rewrite Hn3, Hn2; left).
        rewrite (labelled_level a3 r3 index 0), (labelled_level a2 r2 index 0).
        + by rewrite Hent.
        + rewrite Hin2. tauto.
        + rewrite Hn2. simpl. by rewrite decide_True.
        + apply Hdis4. left.
        + rewrite Hn3, Hn2. simpl. by rewrite decide_True.
      - assert (n ∈ columns a2) as Hn2' by (apply Hin2; auto).
        rewrite H34 by (left; rewrite Hc3, elem_of_app; by left). by apply Hold. }
    assert (forall n, n ∈ columns a3 -> Spec.labelled a5 r5 n = Spec.labelled a3 r3 n)
      as Hlab35.
    { intros n Hn. rewrite H45 by (rewrite Hc4; by right). apply H34. by left. }
    split; [assumption|]. split; [|split].
    - rewrite Hr5. apply list_fmap_ext. intros j k Hk. apply list_elem_of_lookup_2 in Hk.
      destruct (Hkey5 k Hk) as (c & -> & Hc4'). simpl.
      rewrite <- (labelled_column a4 r4 c Hc4'), (Hlab4 c (or_intror Hk)).
      destruct (position_is_Some _ _ Hk) as (l & Hl & _).
      rewrite (labelled_level a r c l); [|by apply Hdis1, Hlevel|assumption].
      change (position (Some c) (names a)) with (@position label _ (Some c) (names a)) in Hl.
      unfold label in *. by rewrite Hl.
    - intros n Hn. rewrite <- (Hlab4 n Hn). apply H45.
      rewrite Hc4, Hc3. destruct (decide (n = index)) as [->|Hne]; [left|].
      right. rewrite elem_of_app. left. apply Hin2. auto.
    - intros X HX HXr.
      destruct (marked_rename_inj (columns a2) X Hclean2 (HX2 X HX HXr) HXr)
        as (Hren & Hfresh & Hinj).
      cbv zeta in Hren, Hfresh, Hinj.
      rewrite Hlab35.
      + rewrite <- (Hlab2 index HSi), <- Hren. by apply Hnew.
      + rewrite Hc3, elem_of_app. right. apply list_elem_of_fmap. exists X.
        split; [|assumption]. by rewrite (decide_True _ _ (HX2 X HX HXr)). }
  (* the conclusion *)
  unfold Spec.joined. rewrite Hn5.
  split; [by rewrite Ha5; cbn [multi]; apply multi_of_names|].
  split; [reflexivity|]. split; [assumption|]. split; [|split; [|split]].
  - unfold Spec.same_entries. eapply Forall2_impl; [exact Hrow|]. cbv beta.
    intros r r5 (Hl1 & -> & _). by apply entry_by_levels.
  - intros n Hin. rewrite Hc5, list_elem_of_filter in Hin. destruct Hin as [Hk Hin].
    unfold is_key in Hk. apply bool_decide_eq_false in Hk.
    assert (n ∈ columns a1 -> n ∈ columns a) as H1a.
    { rewrite Hc1, elem_of_app. intros [Hl|?]; [|assumption].
      exfalso. by apply Hk, Hlevel. }
    rewrite Hc4, Hc3 in Hin. apply elem_of_cons in Hin as [->|Hin]; [left; auto|].
    apply elem_of_app in Hin as [Hin|Hin].
    + left. apply H1a. by apply Hin2 in Hin as [? _].
    + right. apply list_elem_of_fmap in Hin as (c & -> & Hcr). exists c.
      split; [assumption|]. destruct (decide (c ∈ columns a2)); auto.
  - intros X HX HXr.
    assert (Some X ∉ names a) as HXl.
    { intros Hl. apply (Hdis1 X); [by apply Hlevel | assumption]. }
    assert (Some (String.append X "_") ∉ names a) as HXml.
    { intros Hl. apply (clean_ne_marker _ X (Hclean_levels _ Hl)). reflexivity. }
    rewrite Hc5, !list_elem_of_filter. unfold is_key.
    rewrite !bool_decide_eq_false. split; (split; [assumption|]).
    + rewrite Hc4, Hc3. right. rewrite elem_of_app. left. by apply HX2.
    + rewrite Hc4, Hc3. right. rewrite elem_of_app. right.
      apply list_elem_of_fmap. exists X. split; [|assumption].
      by rewrite (decide_True _ _ (HX2 X HX HXr)).
  - eapply Forall2_impl; [exact Hrow|]. cbv beta.
    intros r r5 (_ & _ & Hlab & Hnew) X HX HXr. split; [apply Hlab; by left|].
    by apply Hnew.
Qed.

(** [join_on] of [base.py], when it returns. *)
Lemma base_join_on_joined s s' :
  Run.annotations s = a ->
  base.join_on right index s = (s', Ok tt) ->
  Spec.joined a right index (Run.annotations s').
Proof.
  intros Ha H. unfold base.join_on in H.
  apply run_bind_Ok in H as (s0 & a0 & Hread & H).
  unfold Run.read in Hread. injection Hread as <- <-. rewrite Ha in H.
  destruct (decide (Some index = index_name a)).
  - apply run_update_Ok in H as (a' & Hj & ->). cbn [Run.annotations].
    rewrite Ha in Hj. by apply direct_join_joined.
  - rewrite old_index_names in H.
    apply run_bind_Ok in H as (s1 & [] & H1 & H).
    apply run_update_Ok in H1 as (a1 & H1 & ->).
    apply run_bind_Ok in H as (s2 & [] & H2 & H).
    apply run_update_Ok in H2 as (a2 & H2 & ->).
    apply run_bind_Ok in H as (s3 & [] & H3 & H).
    apply run_update_Ok in H3 as (a4 & H3 & ->).
    apply run_update_Ok in H as (a5 & H5 & ->).
    cbn [Run.annotations] in *. rewrite Ha in H1.
    apply bind_ok in H3 as (a3 & H3 & H4).
    by apply (rekeyed_join_joined a1 a2 a3 a4 a5).
Qed.

End Join.

(** ** The aggregated table *)

Section Table.

Lemma reduce_groups_table df by_ spec keys out :
  resolve_key df by_ = Ok keys ->
  reduce_groups df by_ spec = Ok out ->
  Spec.wf_rows out /\ forall c, c ∈ columns out -> c ∈ columns df.
Proof.
  intros Hk H.
  destruct (reduce_groups_shape _ _ _ _ _ Hk H) as (_ & Hn & Hc & _).
  destruct (reduce_groups_rows _ _ _ _ _ Hk H) as [Hhas Hrows]. split.
  - apply Forall_forall. intros [e cells] Hin.
    destruct (Hrows e cells Hin) as (k & _ & -> & Hcells). cbn [fst snd].
    rewrite Hn, Hc, length_fmap. split; [reflexivity|].
    symmetry. by eapply Forall2_length.
  - rewrite Hc. by apply has_columns_spec.
Qed.

Lemma groupby_agg_table df by_ spec keys out :
  resolve_key df by_ = Ok keys ->
  groupby_agg df by_ spec = Ok out ->
  Spec.wf_rows out /\ forall c, c ∈ columns out -> c ∈ columns df.
Proof. intros Hk H. apply groupby_agg_reduce in H. by eapply reduce_groups_table. Qed.

(** The table [base.get_annotations] returns has one cell per column in
    every row, and its columns are requested ones other than the key. *)
Lemma base_get_annotations_table nr (self : base.Dataset) index columns agg out :
  (base.get_annotations nr self index columns agg).2 = Ok out ->
  Spec.wf_rows out /\ (index ∉ pd.columns out)
  /\ forall c, c ∈ pd.columns out -> c ∈ columns.
Proof.
  unfold base.get_annotations.
  destruct (negb (has_columns (base.data self) columns)); [discriminate|]. simpl.
  set (columns' := match position index columns with
                   | Some i => delete i columns | None => columns end).
  intros H. apply bind_ok in H as (df1 & H1 & H).
  apply bind_ok in H as (df2 & H2 & H).
  pose proof (base_grouped_frame self index columns' df1 H1) as Hg.
  destruct (bool_decide (Some index ≠ index_name (base.data self))
            && bool_decide (index ∈ pd.columns (base.data self))).
  - destruct Hg as (df2' & H2' & Hk & Hc2). rewrite H2' in H2. injection H2 as <-.
    assert (Spec.wf_rows out /\ forall c, c ∈ pd.columns out -> c ∈ pd.columns df2')
      as [Hwf Hsub].
    { destruct (decide (agg = "concat")).
      - by eapply groupby_agg_table.
      - unfold groupby_aggregate in H. destruct (nr agg); [|discriminate].
        by eapply reduce_groups_table. }
    assert (forall c, c ∈ pd.columns out -> c <> index /\ c ∈ columns) as Hin.
    { intros c Hc. apply Hsub in Hc. rewrite Hc2 in Hc.
      apply list_elem_of_filter in Hc as [Hkey Hc]. rewrite is_key_single in Hkey.
      apply bool_decide_eq_false in Hkey. split; [assumption|].
      apply elem_of_app in Hc as [Hc|Hc].
      - by eapply popped_subseteq.
      - by apply list_elem_of_singleton in Hc. }
    split; [assumption|]. split.
    + intros Hc. by destruct (Hin _ Hc).
    + intros c Hc. by destruct (Hin _ Hc).
  - injection H2 as <-. exfalso.
    destruct (decide (agg = "concat")).
    + apply groupby_agg_reduce in H. unfold reduce_groups in H. by rewrite Hg in H.
    + unfold groupby_aggregate in H. destruct (nr agg); [|discriminate].
      unfold reduce_groups in H. by rewrite Hg in H.
Qed.

End Table.

(** ** The merge of the marked columns *)

Section Merge.

Lemma duplicate_columns_from (cols : list string) : forall acc L,
  for_each (fun acc col => c ← last_char col;
                           Ok (if Ascii.eqb c "_" then acc ++ [col] else acc))
           cols acc = Ok L ->
  forall c, c ∈ L <-> c ∈ acc \/ (c ∈ cols /\ Spec.marked c).
Proof.
  induction cols as [|col cols IH]; intros acc L H c; simpl in H.
  - injection H as <-. rewrite elem_of_nil. tauto.
  - apply bind_ok in H as (acc' & Hacc & H). apply bind_ok in Hacc as (ch & Hch & Hacc).
    injection Hacc as <-. rewrite (IH _ _ H c), elem_of_cons. unfold Spec.marked.
    destruct (Ascii.eqb ch "_") eqn:E.
    + apply Ascii.eqb_eq in E. subst ch. rewrite elem_of_app, list_elem_of_singleton.
      split; [intros [[?| ->]|[? ?]]; auto | intros [?|[[ ->|?] ?]]; auto].
    + apply Ascii.eqb_neq in E.
      split; [intros [?|[? ?]]; auto | intros [?|[[ ->|?] Hm]]; auto].
      rewrite Hch in Hm. injection Hm as ->. done.
Qed.

(** The labels [duplicate_columns] collects are the marked columns. *)
Lemma duplicate_columns_marked df L :
  base.duplicate_columns df = Ok L ->
  forall c, c ∈ L <-> c ∈ columns df /\ Spec.marked c.
Proof.
  intros H c. rewrite (duplicate_columns_from _ _ _ H c), elem_of_nil. tauto.
Qed.

(** One turn of the loop of lines 308-316, when it returns. *)
Lemma merge_step_Ok new_col s s' u :
  (Run.update (fun a => fillna_from a (strip "_" new_col) new_col) ;;;
   Run.update (fun a => drop_columns a new_col)) s = (s', Ok u) ->
  exists cur1, fillna_from (Run.annotations s) (strip "_" new_col) new_col = Ok cur1
    /\ drop_columns cur1 new_col = Ok (Run.annotations s').
Proof.
  intros H. apply run_bind_Ok in H as (s1 & [] & H1 & H2).
  apply run_update_Ok in H1 as (cur1 & H1 & ->).
  apply run_update_Ok in H2 as (cur2 & H2 & ->). eauto.
Qed.

Lemma merge_step_aligned cur old_col new_col cur1 cur2 :
  Spec.wf_rows cur ->
  fillna_from cur old_col new_col = Ok cur1 ->
  drop_columns cur1 new_col = Ok cur2 ->
  old_col ∈ columns cur /\ new_col ∈ columns cur
  /\ (forall n, n ∈ columns cur2 <-> n ∈ columns cur /\ n <> new_col)
  /\ names cur2 = names cur /\ multi cur2 = multi cur /\ Spec.wf_rows cur2
  /\ Forall2 (fun r r' =>
        r'.1 = r.1
        /\ (old_col <> new_col ->
            Spec.labelled cur2 r' old_col
            = Spec.filled (Spec.labelled cur r old_col) (Spec.labelled cur r new_col))
        /\ forall n, n ∈ columns cur -> n <> old_col -> n <> new_col ->
             Spec.labelled cur2 r' n = Spec.labelled cur r n)
       (rows cur) (rows cur2).
Proof.
  intros Hwf H1 H2.
  destruct (fillna_from_aligned _ _ _ _ H1 Hwf)
    as (Ho & Hnew & Hc1 & Hn1 & Hm1 & Hwf1 & Hr1).
  destruct (drop_columns_aligned _ _ _ H2 Hwf1) as (Hc2 & Hn2 & Hm2 & Hwf2 & Hr2).
  split; [assumption|]. split; [assumption|]. split.
  { intros n. rewrite Hc2, list_elem_of_filter, Hc1. tauto. }
  split; [congruence|]. split; [congruence|]. split; [assumption|].
  eapply Forall2_trans_rel; [|exact Hr1|exact Hr2].
  cbn beta. intros x y z (Hy & Hfill & Hrest) (Hz & Hkeep).
  split; [congruence|]. split.
  - intros Hne. rewrite Hkeep; [assumption| by rewrite Hc1 |assumption].
  - intros n Hin Hno Hnn. rewrite Hkeep; [by apply Hrest| by rewrite Hc1 |assumption].
Qed.

Lemma merge_step_reshaped aj cur old_col new_col cur1 cur2 :
  Spec.reshaped aj cur ->
  fillna_from cur old_col new_col = Ok cur1 ->
  drop_columns cur1 new_col = Ok cur2 ->
  Spec.reshaped aj cur2.
Proof.
  intros (Hwf & Hn & Hm & Hsub & He) H1 H2.
  destruct (merge_step_aligned _ _ _ _ _ Hwf H1 H2)
    as (_ & _ & Hcols & Hn2 & Hm2 & Hwf2 & Hr).
  split; [assumption|]. split; [congruence|]. split; [congruence|]. split.
  - intros n Hin. apply Hsub. by apply Hcols.
  - unfold Spec.same_entries in *.
    eapply Forall2_trans_rel; [|exact He|exact Hr].
    cbn beta. intros x y z -> [-> _]. reflexivity.
Qed.

Lemma merge_loop_reshaped aj (L : list string) : forall s s',
  Run.for_ L (fun new_col =>
    Run.update (fun a => fillna_from a (strip "_" new_col) new_col) ;;;
    Run.update (fun a => drop_columns a new_col)) s = (s', Ok tt) ->
  Spec.reshaped aj (Run.annotations s) ->
  Spec.reshaped aj (Run.annotations s')
  /\ forall n, n ∈ columns (Run.annotations s') ->
       n ∈ columns (Run.annotations s) /\ n ∉ L.
Proof.
  induction L as [|new_col L IH]; intros s s' H Hre.
  - injection H as <-. split; [assumption|]. intros n Hn.
    split; [assumption | apply not_elem_of_nil].
  - cbn [Run.for_] in H. apply run_bind_Ok in H as (s1 & [] & Hstep & H).
    apply merge_step_Ok in Hstep as (cur1 & H1 & H2).
    pose proof (merge_step_reshaped _ _ _ _ _ _ Hre H1 H2) as Hre1.
    destruct (merge_step_aligned _ _ _ _ _ (proj1 Hre) H1 H2) as (_ & _ & Hcols & _).
    destruct (IH _ _ H Hre1) as [Hre' Hsub]. split; [assumption|].
    intros n Hn. destruct (Hsub n Hn) as [Hn1 HnL]. apply Hcols in Hn1 as [? ?].
    split; [assumption|]. rewrite not_elem_of_cons. auto.
Qed.

End Merge.

Section Twin.

Variables (aj : DataFrame) (colsA colsR : list string) (X : string).
Hypothesis HcleanA : forall c, c ∈ colsA -> Spec.clean c.
Hypothesis HcleanR : forall c, c ∈ colsR -> Spec.clean c.
Hypothesis Hcols : forall n, n ∈ columns aj ->
  n ∈ colsA \/ exists c, c ∈ colsR /\ (n = c \/ n = String.append c "_").
Hypothesis HX : Spec.clean X.




End Twin.

Lemma reshaped_refl aj : Spec.wf_rows aj -> Spec.reshaped aj aj.
Proof.
  intros Hwf. split; [assumption|]. split; [reflexivity|]. split; [reflexivity|].
  split; [auto|]. apply Forall_Forall2_diag, Forall_forall. auto.
Qed.

(** The merge of [base.py] keeps the index and leaves no marked column. *)
Lemma base_merge_reshaped s s' :
  Spec.wf_rows (Run.annotations s) ->
  base.merge_duplicate_columns s = (s', Ok tt) ->
  Spec.reshaped (Run.annotations s) (Run.annotations s')
  /\ forall n, n ∈ columns (Run.annotations s') -> ~ Spec.marked n.
Proof.
  intros Hwf H. unfold base.merge_duplicate_columns in H.
  apply run_bind_Ok in H as (s0 & a0 & Hread & H).
  unfold Run.read in Hread. injection Hread as <- <-.
  apply run_bind_Ok in H as (s0 & L & HL & H).
  unfold Run.lift in HL. injection HL as <- HL.
  destruct (merge_loop_reshaped _ _ _ _ H (reshaped_refl _ Hwf)) as [Hre Hsub].
  split; [assumption|]. intros n Hn Hm. destruct (Hsub n Hn) as [Hin Hout].
  apply Hout. by apply (duplicate_columns_marked _ _ HL).
Qed.


(** ** A call of [base.py], step by step *)

Section Annotate.

Variable nr : string -> option (list value -> result value).
Variables (database : base.Dataset) (index agg : string) (s s' : Run.store).
Hypothesis Hcall :
  base.annotate_genomics nr database index agg false s = (s', Ok tt).
Hypothesis Hwf : pd.wf (Run.annotations s).
Hypothesis Hclean : forall c, c ∈ columns (Run.annotations s) -> Spec.clean c.
Hypothesis Hclean_levels :
  forall n, Some n ∈ names (Run.annotations s) -> Spec.clean n.
Hypothesis Hclean_arg : forall c, c ∈ Run.columns_arg s -> Spec.clean c.

(** A call of [base.py] that returns has aggregated a table, joined it and
    merged the marked columns. *)
Lemma base_annotate_genomics_steps :
  exists right sj,
    (base.get_annotations nr database index (Run.columns_arg s) agg).2 = Ok right
    /\ (forall c, c ∈ columns right -> Spec.clean c)
    /\ Spec.joined (Run.annotations s) right index (Run.annotations sj)
    /\ base.merge_duplicate_columns sj = (s', Ok tt).
Proof.
  unfold base.annotate_genomics in Hcall.
  apply run_bind_Ok in Hcall as (s1 & right & H1 & H).
  apply run_bind_Ok in H as (s2 & right' & Hret & H).
  unfold Run.ret in Hret. injection Hret as <- <-.
  apply run_bind_Ok in H as (sj & [] & Hjoin & Hmerge).
  destruct (base_call_get_annotations_indexed _ _ _ _ _ _ _ H1) as (Hnd & _ & _).
  unfold base.call_get_annotations in H1.
  destruct (base.get_annotations nr database index (Run.columns_arg s) agg)
    as [cols r] eqn:E.
  injection H1 as <- ->.
  assert ((base.get_annotations nr database index (Run.columns_arg s) agg).2 = Ok right)
    as Hright by (by rewrite E).
  destruct (base_get_annotations_table _ _ _ _ _ _ Hright) as (Hwfr & Hidx & Hsub).
  exists right, sj. split; [reflexivity|]. split; [by auto|]. split; [|assumption].
  eapply base_join_on_joined; cycle -1; [exact Hjoin|..]; cbn [Run.annotations]; auto.
Qed.

End Annotate.

(** A returning call of [base.py] without fuzzy matching, on tables with
    clean labels, gives the annotations their index back: same kind, same
    names, same entries row by row, single or composite. *)
Lemma base_join_restores_index nr database index agg s s' :
  base.annotate_genomics nr database index agg false s = (s', Ok tt) ->
  pd.wf (Run.annotations s) ->
  (forall c, c ∈ columns (Run.annotations s) -> Spec.clean c) ->
  (forall n, Some n ∈ names (Run.annotations s) -> Spec.clean n) ->
  (forall c, c ∈ Run.columns_arg s -> Spec.clean c) ->
  Spec.same_index (Run.annotations s) (Run.annotations s').
Proof.
  intros H Hwf Hc Hl Ha.
  destruct (base_annotate_genomics_steps _ _ _ _ _ _ H Hwf Hc Hl Ha)
    as (right & sj & _ & _ & Hj & Hm).
  destruct Hj as (Hmulti & Hnames & Hwfj & He & _).
  destruct (base_merge_reshaped _ _ Hwfj Hm) as [(_ & Hn' & Hm' & _ & He') _].
  split; [congruence|]. split; [congruence|].
  unfold Spec.same_entries in *. eapply Forall2_trans_rel; [|exact He|exact He'].
  cbn beta. intros x y z -> ->. reflexivity.
Qed.




(** Why the labels must be clean: [strip] takes the underscores of both
    ends, so the incoming [_go_] is merged into the column [go] and the
    shared column [_go] stays as it was. *)
Lemma merge_strips_leading_underscore :
  let s := base.annotate_genomics Examples.no_reduction
             {| base.data := Examples.underscored_table |} "gene_id" "concat" false
             (Examples.on Examples.underscored_genes ["_go"]) in
  s.2 = Ok tt
  /\ columns (Run.annotations s.1) = ["gene_id"; "go"; "_go"]
  /\ column (Run.annotations s.1) "go" = [Str "GO:1"]
  /\ column (Run.annotations s.1) "_go" = [NaN].
Proof. vm_compute. repeat split. Qed.

(* ===================================================================== *)
(** * Properties of the other functions *)
(* ===================================================================== *)

Import annotation Spec.

(** ** Sequences after U2T *)

Section U2T.

Lemma replace_without (a b : ascii) (s : string) :
  a <> b -> a ∉ list_ascii_of_string (replace a b s).
Proof.
  intros Hab. induction s as [|c s IH]; simpl; [apply not_elem_of_nil|].
  rewrite not_elem_of_cons. split; [|assumption].
  destruct (Ascii.eqb c a) eqn:E; [congruence|]. apply Ascii.eqb_neq in E. congruence.
Qed.

Lemma select_sequences p old s e :
  select p old s = Ok e ->
  forall t, t ∈ Behaviour.sequences e ->
    t = s \/ exists e0, old = Some e0 /\ t ∈ Behaviour.sequences e0.
Proof.
  intros H t Ht. destruct p, old as [e0|]; simpl in H;
    try (injection H as <-; simpl in Ht; apply list_elem_of_singleton in Ht; auto; fail).
  - injection H as <-. destruct (_ <? _); simpl in Ht.
    + apply list_elem_of_singleton in Ht; auto.
    + eauto.
  - injection H as <-. destruct (_ <? _); simpl in Ht.
    + apply list_elem_of_singleton in Ht; auto.
    + eauto.
  - destruct e0 as [s0|l]; [discriminate|]. injection H as <-. simpl in Ht.
    apply elem_of_app in Ht as [Ht|Ht].
    + right. exists (Many l). auto.
    + apply list_elem_of_singleton in Ht; auto.
Qed.

(** Whatever the loop files was normalised, or was there before. *)
Lemma loop_sequences p key_of norm records : forall d0 d,
  for_each (record_step p key_of norm) records d0 = Ok d ->
  forall k e t, d !! k = Some e -> t ∈ Behaviour.sequences e ->
    (exists r, r ∈ records /\ t = norm (seq r))
    \/ exists e0, d0 !! k = Some e0 /\ t ∈ Behaviour.sequences e0.
Proof.
  induction records as [|r records IH]; intros d0 d H k e t Hk Ht; simpl in H.
  - injection H as <-. eauto.
  - apply bind_ok in H as (d1 & Hstep & H).
    destruct (IH _ _ H k e t Hk Ht) as [(r' & Hr' & ->)|(e1 & Hk1 & Ht1)].
    + left. exists r'. split; [by right|reflexivity].
    + unfold record_step in Hstep.
      apply bind_ok in Hstep as (key & _ & Hstep).
      apply bind_ok in Hstep as (e' & He' & Hstep). injection Hstep as <-.
      destruct (decide (key = k)) as [->|Hne].
      * rewrite lookup_insert_eq in Hk1. injection Hk1 as ->.
        destruct (select_sequences _ _ _ _ He' _ Ht1) as [->|Hold]; [|by right].
        left. exists r. split; [by left|reflexivity].
      * rewrite lookup_insert_ne in Hk1 by assumption. eauto.
Qed.

End U2T.

(** With [replace_U2T], no sequence that [GENCODE.get_sequences] or
    [MirBase.get_sequences] returns has a letter U, whatever the
    identifier space and the selection policy. *)
Theorem get_sequences_without_U :
  (forall (self : annotation.GENCODE) (omic index : string) d,
      annotation.gencode_replace_U2T self = true ->
      annotation.GENCODE_get_sequences self omic index = Ok d ->
      forall k e s, d !! k = Some e -> s ∈ Behaviour.sequences e ->
        Behaviour.without_U s)
  /\ (forall (self : annotation.MirBase) (omic index : string) d,
      annotation.mirbase_replace_U2T self = true ->
      annotation.MirBase_get_sequences self omic index = Ok d ->
      forall k e s, d !! k = Some e -> s ∈ Behaviour.sequences e ->
        Behaviour.without_U s).
Proof.
  split.
  - intros self omic index d HU H k e s Hk Hs.
    unfold annotation.GENCODE_get_sequences in H.
    apply bind_ok in H as (records & _ & H).
    rewrite (for_each_ext _ _ _ _ (GENCODE_record_step self index)) in H.
    destruct (loop_sequences _ _ _ _ _ _ H k e s Hk Hs) as [(r & _ & ->)|(e0 & He0 & _)].
    + rewrite HU. by apply replace_without.
    + by rewrite lookup_empty in He0.
  - intros self omic index d HU H k e s Hk Hs.
    unfold annotation.MirBase_get_sequences in H.
    apply bind_ok in H as (records & _ & H).
    rewrite (for_each_ext _ _ _ _ (MirBase_record_step self)) in H.
    destruct (loop_sequences _ _ _ _ _ _ H k e s Hk Hs) as [(r & _ & ->)|(e0 & He0 & _)].
    + rewrite HU. by apply replace_without.
    + by rewrite lookup_empty in He0.
Qed.

Lemma get_sequences_without_U_witness :
  exists d,
    annotation.GENCODE_get_sequences (Examples.gencode "shortest") "GE" "gene_id" = Ok d
    /\ forall k e s, d !! k = Some e -> s ∈ Behaviour.sequences e ->
         Behaviour.without_U s.
Proof.
  eexists. split; [vm_compute; reflexivity|].
  apply (proj1 get_sequences_without_U (Examples.gencode "shortest") "GE" "gene_id").
  - reflexivity.
  - vm_compute. reflexivity.
Defined.

(** ** The arguments of [GENCODE.get_sequences] *)

Section Arguments.

Lemma GENCODE_key_unknown index record_id :
  index ∉ Behaviour.GENCODE_spaces -> GENCODE_key index record_id = Raise Exception.
Proof.
  unfold Behaviour.GENCODE_spaces, GENCODE_key. intros H.
  repeat (destruct (decide _) as [->|?];
          [exfalso; apply H; repeat constructor|]).
  reflexivity.
Qed.

End Arguments.

(** [GENCODE.get_sequences] looks at [omic] before anything else, and at
    [index] only inside its loop: another [omic] than GE and LNC raises;
    an unknown identifier space raises when the FASTA file has a record,
    and gives an empty mapping when it has none. *)
Theorem GENCODE_get_sequences_arguments :
  forall (self : annotation.GENCODE) (omic index : string),
    (omic <> "GE" -> omic <> "LNC" ->
       annotation.GENCODE_get_sequences self omic index = Raise Exception)
    /\ (forall records,
          (omic = "GE"
             /\ annotation.gencode_file_resources self !! "transcripts.fa" = Some records
           \/ omic = "LNC"
             /\ annotation.gencode_file_resources self !! "lncRNA_transcripts.fa"
                = Some records) ->
          index ∉ Behaviour.GENCODE_spaces ->
          annotation.GENCODE_get_sequences self omic index
          = match records with [] => Ok ∅ | _ :: _ => Raise Exception end).
Proof.
  intros self omic index. split.
  - intros H1 H2. unfold annotation.GENCODE_get_sequences.
    rewrite (decide_False _ _ H1), (decide_False _ _ H2). reflexivity.
  - intros records Hfile Hidx. unfold annotation.GENCODE_get_sequences, dict_getitem.
    destruct Hfile as [[-> ->]|[-> ->]]; simpl;
      (destruct records as [|r records]; [reflexivity|]); simpl;
      unfold annotation.GENCODE_record;
      by rewrite (GENCODE_key_unknown _ _ Hidx).
Qed.

Lemma GENCODE_get_sequences_arguments_witness :
  annotation.GENCODE_get_sequences (Examples.gencode "all") "MIR" "gene_id"
  = Raise Exception
  /\ annotation.GENCODE_get_sequences (Examples.gencode "all") "GE" "exon_id"
     = Raise Exception.
Proof.
  split.
  - apply (proj1 (GENCODE_get_sequences_arguments (Examples.gencode "all")
                    "MIR" "gene_id")); discriminate.
  - apply (proj2 (GENCODE_get_sequences_arguments (Examples.gencode "all")
                    "GE" "exon_id") Examples.transcripts).
    + left. split; reflexivity.
    + unfold Behaviour.GENCODE_spaces. rewrite !not_elem_of_cons.
      repeat split; try discriminate. apply not_elem_of_nil.
Defined.

(** ** Assigning a column *)

Section Setitem.

Lemma Forall2_zip_with_both {A B C} (P : A -> C -> Prop) (Q : B -> C -> Prop)
    (f : A -> B -> C) (l : list A) : forall k,
  length k = length l ->
  (forall x y, x ∈ l -> P x (f x y) /\ Q y (f x y)) ->
  Forall2 P l (zip_with f l k) /\ Forall2 Q k (zip_with f l k).
Proof.
  induction l as [|x l IH]; intros [|y k] Hlen Hf; simpl in *;
    try discriminate; [split; constructor|].
  destruct (IH k) as [H1 H2]; [lia | intros; apply Hf; by right |].
  destruct (Hf x y ltac:(left)). split; constructor; assumption.
Qed.

Lemma Forall2_eq_fmap {A B} (f : B -> A) (l : list A) (k : list B) :
  Forall2 (fun v r => f r = v) l k -> f <$> k = l.
Proof.
  induction 1 as [|v r l k H _ IH]; [reflexivity|]. rewrite fmap_cons. by f_equal.
Qed.

Lemma Forall2_fmap_eq {A B} (f g : A -> B) (l k : list A) :
  Forall2 (fun r r' => g r' = f r) l k -> g <$> k = f <$> l.
Proof.
  induction 1 as [|r r' l k H _ IH]; [reflexivity|]. rewrite !fmap_cons. by f_equal.
Qed.

(** The cell under [c'] once the cells labelled [c] have been set to [v]. *)
Lemma pick_set_cells cols c v cells c' :
  length cells = length cols ->
  pick cols c' ((fun p : string * value => if decide (p.1 = c) then v else p.2)
                  <$> zip cols cells)
  = if decide (c' = c) then (if decide (c ∈ cols) then v else NaN)
    else pick cols c' cells.
Proof.
  intros Hlen. unfold pick. destruct (position c' cols) as [p|] eqn:Ep.
  - pose proof (position_lookup _ _ _ Ep) as Hp.
    destruct (lookup_lt_is_Some_2 cells p) as [x Hx].
    { rewrite Hlen. by eapply lookup_lt_Some. }
    rewrite list_lookup_fmap. rewrite lookup_zip_with, Hp, Hx. simpl.
    destruct (decide (c' = c)) as [->|Hne]; [|reflexivity].
    rewrite decide_True; [reflexivity|]. by eapply list_elem_of_lookup_2.
  - apply position_None in Ep.
    destruct (decide (c' = c)) as [->|Hne]; [|reflexivity].
    by rewrite decide_False.
Qed.

Lemma setitem_column_rows df c vals df' :
  pd_more.setitem_column df c vals = Ok df' -> Spec.wf_rows df ->
  length vals = nrows df
  /\ names df' = names df /\ multi df' = multi df
  /\ columns df' = (if decide (c ∈ columns df) then columns df else columns df ++ [c])
  /\ Spec.wf_rows df'
  /\ Forall2 (fun r r' =>
        r'.1 = r.1
        /\ forall c', c' <> c -> pick (columns df') c' r'.2 = pick (columns df) c' r.2)
       (rows df) (rows df')
  /\ Forall2 (fun v r' => pick (columns df') c r'.2 = v) vals (rows df').
Proof.
  unfold pd_more.setitem_column. intros H Hwf.
  destruct (decide (length vals = nrows df)) as [Hlen|]; [|discriminate].
  injection H as <-. cbn [names multi columns rows].
  split; [assumption|]. split; [reflexivity|]. split; [reflexivity|].
  split; [reflexivity|].
  set (f := fun (r : list value * list value) (v : value) =>
              (r.1, if decide (c ∈ columns df)
                    then (fun p : string * value => if decide (p.1 = c) then v else p.2)
                           <$> zip (columns df) r.2
                    else r.2 ++ [v])).
  set (cols' := if decide (c ∈ columns df) then columns df else columns df ++ [c]).
  assert (forall r v, r ∈ rows df ->
            (length (f r v).1 = length (names df)
             /\ length (f r v).2 = length cols')
            /\ ((f r v).1 = r.1
                /\ forall c', c' <> c -> pick cols' c' (f r v).2 = pick (columns df) c' r.2)
            /\ pick cols' c (f r v).2 = v) as Hrow.
  { intros r v Hr. apply (proj1 (Forall_forall _ _) Hwf) in Hr as [Hl1 Hl2].
    unfold f, cols'. cbn [fst snd]. destruct (decide (c ∈ columns df)) as [Hin|Hout].
    - split; [split; [assumption|]|split; [split; [reflexivity|]|]].
      + rewrite length_fmap, length_zip_with. lia.
      + intros c' Hne. rewrite pick_set_cells by assumption. by rewrite decide_False.
      + rewrite pick_set_cells by assumption. rewrite decide_True by reflexivity.
        by rewrite decide_True.
    - split; [split; [assumption|]|split; [split; [reflexivity|]|]].
      + rewrite !length_app. simpl. lia.
      + intros c' Hne. destruct (decide (c' ∈ columns df)).
        * by apply pick_app_l.
        * rewrite pick_app_r by assumption. rewrite (pick_missing (columns df)) by assumption.
          apply pick_missing. rewrite list_elem_of_singleton. congruence.
      + rewrite pick_app_r by assumption. apply pick_cons_eq. }
  destruct (Forall2_zip_with_both
              (fun r r' => (length r'.1 = length (names df) /\ length r'.2 = length cols')
                           /\ r'.1 = r.1
                              /\ forall c', c' <> c ->
                                   pick cols' c' r'.2 = pick (columns df) c' r.2)
              (fun v r' => pick cols' c r'.2 = v) f (rows df) vals Hlen) as [H1 H2].
  { intros r v Hr. destruct (Hrow r v Hr) as (? & ? & ?). auto. }
  split; [|split; [|exact H2]].
  - unfold Spec.wf_rows. cbn [names columns rows]. apply Forall_forall. intros r' Hr'.
    apply list_elem_of_lookup in Hr' as [i Hi].
    destruct (Forall2_lookup_r _ _ _ _ _ H1 Hi) as (r & _ & Hw & _). exact Hw.
  - eapply Forall2_impl; [exact H1|]. cbn beta. intros r r' (_ & ? & ?). auto.
Qed.

(** Assigning a column leaves the index and the other columns as they
    were. *)
Lemma setitem_column_columns df c vals df' :
  pd_more.setitem_column df c vals = Ok df' -> Spec.wf_rows df ->
  index_entries df' = index_entries df
  /\ column df' c = vals
  /\ forall c', c' <> c -> column df' c' = column df c'.
Proof.
  intros H Hwf.
  destruct (setitem_column_rows _ _ _ _ H Hwf) as (_ & _ & _ & _ & _ & Hr & Hv).
  split; [|split].
  - unfold index_entries. apply (Forall2_fmap_eq fst fst).
    eapply Forall2_impl; [exact Hr|]. by intros r r' [? _].
  - unfold column. by apply Forall2_eq_fmap.
  - intros c' Hne. unfold column.
    apply (Forall2_fmap_eq (fun r => pick (columns df) c' r.2)
             (fun r => pick (columns df') c' r.2)).
    eapply Forall2_impl; [exact Hr|]. cbn beta. intros r r' [_ Hc]. by apply Hc.
Qed.

End Setitem.

(** ** Identifiers without their version *)

Section Versions.

Lemma sub_version_inside (s : string) :
  Behaviour.one_line s -> pd_more.sub_version true s = EmptyString.
Proof.
  unfold Behaviour.one_line. induction s as [|c s IH]; [reflexivity|].
  simpl. rewrite not_elem_of_cons. intros [Hc Hs].
  rewrite (proj2 (Ascii.eqb_neq c "010")) by congruence. auto.
Qed.

(** On one line, the regular expression keeps what [split(".")[0]] keeps. *)
Lemma sub_version_split (s : string) :
  Behaviour.one_line s ->
  getitem (split "." s) 0 = Ok (pd_more.sub_version false s).
Proof.
  unfold Behaviour.one_line. induction s as [|c s IH]; [reflexivity|].
  simpl. rewrite not_elem_of_cons. intros [Hc Hs].
  rewrite (proj2 (Ascii.eqb_neq c "010")) by congruence.
  destruct (Ascii.eqb c ".") eqn:E.
  - simpl. unfold getitem. simpl. by rewrite sub_version_inside.
  - specialize (IH Hs). unfold getitem in *.
    destruct (split "." s) as [|piece pieces]; [discriminate|].
    simpl in *. by injection IH as ->.
Qed.

Lemma str_replace_version_columns df c df' :
  pd_more.str_replace_version df c = Ok df' -> Spec.wf_rows df ->
  columns df' = columns df /\ Spec.wf_rows df'
  /\ index_entries df' = index_entries df
  /\ column df' c = Behaviour.unversioned <$> column df c
  /\ forall c', c' <> c -> column df' c' = column df c'.
Proof.
  unfold pd_more.str_replace_version. intros H Hwf.
  destruct (position c (columns df)) as [p|] eqn:Ep; [|discriminate].
  destruct (existsb _ _); [|discriminate].
  apply bind_ok in H as (vals & Hvals & H).
  destruct (setitem_column_rows _ _ _ _ H Hwf) as (_ & _ & _ & Hc & Hwf' & _).
  destruct (setitem_column_columns _ _ _ _ H Hwf) as (He & Hcol & Hrest).
  rewrite decide_True in Hc by (by eapply list_elem_of_lookup_2, position_lookup).
  split; [assumption|]. split; [assumption|]. split; [assumption|].
  split; [|assumption]. rewrite Hcol.
  assert (column df c = (fun r => default NaN (r.2 !! p)) <$> rows df) as ->.
  { unfold column. apply list_fmap_ext. intros _ r _. by apply pick_position. }
  rewrite <- (list_fmap_id vals).
  apply (traverse_fmap _ Datatypes.id Behaviour.unversioned _ _ Hvals).
  intros [|s|z] y Hy; inversion Hy; reflexivity.
Qed.

End Versions.

(** [GENCODE.load_data] and [GENCODE.get_sequences] name genes and
    transcripts alike: the table holds every identifier without what
    follows its first dot, and the key a FASTA record gets under
    [gene_id] or [transcript_id] is its identifier cut in the same way. *)
Theorem GENCODE_identifiers_agree :
  (forall gtf df,
      annotation_more.GENCODE_load_data gtf = Ok df -> Spec.wf_rows gtf ->
      columns df = columns gtf
      /\ index_entries df = index_entries gtf
      /\ column df "gene_id" = Behaviour.unversioned <$> column gtf "gene_id"
      /\ column df "transcript_id"
         = Behaviour.unversioned <$> column gtf "transcript_id"
      /\ forall c, c <> "gene_id" -> c <> "transcript_id" ->
           column df c = column gtf c)
  /\ (forall record_id field,
        Behaviour.one_line field ->
        (getitem (split "|" record_id) 1 = Ok field ->
           annotation.GENCODE_key "gene_id" record_id
           = Ok (pd_more.sub_version false field))
        /\ (getitem (split "|" record_id) 0 = Ok field ->
              annotation.GENCODE_key "transcript_id" record_id
              = Ok (pd_more.sub_version false field))).
Proof.
  split.
  - intros gtf df H Hwf. unfold annotation_more.GENCODE_load_data in H.
    apply bind_ok in H as (df1 & H1 & H2).
    destruct (str_replace_version_columns _ _ _ H1 Hwf) as (Hc1 & Hwf1 & He1 & Hg1 & Hr1).
    destruct (str_replace_version_columns _ _ _ H2 Hwf1) as (Hc2 & _ & He2 & Ht2 & Hr2).
    split; [congruence|]. split; [congruence|]. split; [|split].
    + rewrite Hr2 by discriminate. exact Hg1.
    + rewrite Ht2. by rewrite Hr1 by discriminate.
    + intros c Hg Ht. rewrite Hr2 by assumption. by apply Hr1.
  - intros record_id field Hline. unfold annotation.GENCODE_key. split; intros ->; simpl.
    + by apply sub_version_split.
    + by apply sub_version_split.
Qed.

(** ** A dataset after its construction *)

Section Construction.


End Construction.


(** ** Dictionaries from tables *)

Section Dicts.

Lemma foldl_insert_lookup `{Countable K} {V} (kvs : list (K * V)) : forall (d0 : gmap K V) k,
  foldl (fun d kv => <[kv.1 := kv.2]> d) d0 kvs !! k
  = match last (filter (fun kv => kv.1 = k) kvs) with
    | Some kv => Some kv.2
    | None => d0 !! k
    end.
Proof.
  induction kvs as [|kv kvs IH]; intros d0 k; [reflexivity|].
  cbn [foldl]. rewrite IH, filter_cons. destruct (decide (kv.1 = k)) as [Hk|Hk].
  - rewrite last_cons.
    destruct (last _); [reflexivity|]. rewrite <- Hk. by rewrite lookup_insert_eq.
  - destruct (last _); [reflexivity|]. by rewrite lookup_insert_ne.
Qed.

(** The entry of [k]: the value inserted last under [k]. *)
Lemma to_dict_lookup keys vals d k :
  pd_more.to_dict keys vals = Ok d ->
  (NaN ∉ keys)
  /\ d !! k = snd <$> last (filter (fun kv => kv.1 = k) (zip keys vals)).
Proof.
  unfold pd_more.to_dict. destruct (bool_decide (NaN ∈ keys)) eqn:E; [discriminate|].
  apply bool_decide_eq_false in E. intros H. injection H as <-. split; [assumption|].
  rewrite foldl_insert_lookup, lookup_empty. by destruct (last _).
Qed.

Lemma omap_Forall2 {A B C} (g : A -> option C) (g' : B -> option C) l l' :
  Forall2 (fun x y => g x = g' y) l l' -> omap g l = omap g' l'.
Proof.
  induction 1 as [|x y l l' Hxy _ IH]; [reflexivity|].
  cbn [omap list_omap]. rewrite Hxy. destruct (g' y); by f_equal.
Qed.

Lemma filter_fmap_omap {A B} (f : A -> B * value) (Q : A -> Prop)
    `{!forall x, Decision (Q x)} (k : B) `{EqDecision B} (l : list A) :
  snd <$> filter (fun kv => kv.1 = k) (f <$> filter Q l)
  = omap (fun x => if decide ((f x).1 = k /\ Q x) then Some (f x).2 else None) l.
Proof.
  induction l as [|x l IH]; [reflexivity|]. cbn [omap list_omap].
  rewrite (filter_cons Q). destruct (decide (Q x)) as [HQ|HQ].
  - rewrite fmap_cons, filter_cons.
    destruct (decide ((f x).1 = k)) as [Hk|Hk].
    + rewrite fmap_cons, IH. by rewrite decide_True.
    + rewrite IH. rewrite decide_False; [reflexivity|tauto].
  - rewrite IH. rewrite decide_False; [reflexivity|tauto].
Qed.

Lemma last_fmap_snd {A B} (l : list (A * B)) : snd <$> last l = last (snd <$> l).
Proof. by rewrite fmap_last. Qed.

Lemma notnull_rows_Ok df c df' :
  pd_more.notnull_rows df c = Ok df' ->
  c ∈ columns df /\ columns df' = columns df /\ names df' = names df
  /\ multi df' = multi df
  /\ rows df' = filter (fun r => isna (pick (columns df) c r.2) = false) (rows df).
Proof.
  unfold pd_more.notnull_rows. intros H.
  destruct (position c (columns df)) as [p|] eqn:Ep; [|discriminate].
  injection H as <-. cbn [columns names multi rows].
  split; [by eapply list_elem_of_lookup_2, position_lookup|].
  repeat split. apply list_filter_iff. intros r. by rewrite (pick_position _ _ _ _ Ep).
Qed.

End Dicts.

Section Lookups.

Lemma reset_index_label df df' n :
  reset_index df = Ok df' -> n ∈ columns df \/ Some n ∈ names df -> n ∈ columns df'.
Proof.
  intros H Hn. destruct (reset_index_columns _ _ H) as (-> & _).
  apply elem_of_app. destruct Hn as [Hc|Hl]; [by right|left].
  apply list_elem_of_lookup in Hl as [k Hk].
  by eapply list_elem_of_lookup_2, level_labels_lookup.
Qed.

Lemma labelled_same_labels df df' r n :
  columns df' = columns df -> names df' = names df ->
  Spec.labelled df' r n = Spec.labelled df r n.
Proof. intros Hc Hn. unfold Spec.labelled. by rewrite Hc, Hn. Qed.

(** The values of [val] in the rows of the frame without the rows whose
    [val] is missing, for the key [k]. *)
Lemma lookups_notnull df val d1 key k :
  pd_more.notnull_rows df val = Ok d1 ->
  snd <$> filter (fun kv : value * value => kv.1 = k)
            ((fun r => (Spec.labelled d1 r key, Spec.labelled d1 r val)) <$> rows d1)
  = Behaviour.lookups df key val k.
Proof.
  intros H. destruct (notnull_rows_Ok _ _ _ H) as (Hin & Hc & Hn & _ & Hr).
  rewrite Hr. unfold Behaviour.lookups.
  rewrite (filter_fmap_omap
             (fun r => (Spec.labelled d1 r key, Spec.labelled d1 r val))).
  apply omap_Forall2, Forall_Forall2_diag, Forall_forall. intros r _. cbn [fst snd].
  rewrite !(labelled_same_labels df d1) by assumption.
  rewrite <- (labelled_column df r val Hin).
  assert (isna (Spec.labelled df r val) = false <-> Spec.labelled df r val <> NaN) as Hna.
  { destruct (Spec.labelled df r val); simpl; split; congruence. }
  destruct (decide (Spec.labelled df r key = k /\ isna (Spec.labelled df r val) = false))
    as [[? ?]|Hno].
  - rewrite decide_True; [reflexivity|]. split; [assumption|]. by apply Hna.
  - rewrite decide_False; [reflexivity|]. intros [? ?]. apply Hno.
    split; [assumption|]. by apply Hna.
Qed.

Lemma NoDup_zip_lookup {A B} `{EqDecision A} (R : A -> B -> Prop) ks vs k :
  NoDup ks -> Forall2 R ks vs ->
  (k ∈ ks -> exists v, R k v
     /\ snd <$> last (filter (fun kv : A * B => kv.1 = k) (zip ks vs)) = Some v)
  /\ (k ∉ ks -> filter (fun kv : A * B => kv.1 = k) (zip ks vs) = []).
Proof.
  intros Hnd H. induction H as [|x v ks vs Hxv _ IH]; [split; [by intros ?%elem_of_nil|done]|].
  apply NoDup_cons in Hnd as [Hx Hnd]. destruct (IH Hnd) as [IH1 IH2].
  cbn [zip zip_with]. rewrite filter_cons. cbn [fst].
  destruct (decide (x = k)) as [->|Hne]; split.
  - intros _. exists v. split; [assumption|]. by rewrite (IH2 Hx).
  - rewrite not_elem_of_cons. tauto.
  - intros [?|Hin]%elem_of_cons; [congruence|]. by apply IH1.
  - rewrite not_elem_of_cons. intros [_ Hout]. by apply IH2.
Qed.

Lemma group_values_omap df (key : list value * list value -> value) k c :
  group_values df (key <$> rows df) k c
  = omap (fun r => if decide (key r = k) then Some (pick (columns df) c r.2) else None)
         (rows df).
Proof.
  unfold group_values. generalize (columns df). intros cols.
  induction (rows df) as [|r l IH]; [reflexivity|].
  rewrite fmap_cons. cbn [zip zip_with omap list_omap]. rewrite filter_cons. cbn [fst].
  destruct (decide (key r = k)); [rewrite fmap_cons|]; by rewrite IH.
Qed.

Lemma omap_filter {A B} (g : A -> option B) (Q : A -> Prop)
    `{!forall x, Decision (Q x)} (l : list A) :
  omap g (filter Q l) = omap (fun x => if decide (Q x) then g x else None) l.
Proof.
  induction l as [|x l IH]; [reflexivity|]. rewrite filter_cons.
  cbn [omap list_omap]. destruct (decide (Q x)); cbn [omap list_omap]; by rewrite IH.
Qed.

End Lookups.

(** [Annotatable.get_rename_dict] of [base.py] maps every value of
    [from_index] to the last non-missing value [to_index] has in the rows
    of that value; a value all of whose rows miss [to_index] has no
    entry. *)
Theorem get_rename_dict_keeps_last :
  forall (a : DataFrame) (from_index to_index : string) (d : gmap value value),
    Spec.wf_rows a ->
    (from_index ∈ columns a \/ Some from_index ∈ names a) ->
    (to_index ∈ columns a \/ Some to_index ∈ names a) ->
    Annotatable.get_rename_dict from_index to_index a = Ok d ->
    forall k, d !! k = last (Behaviour.lookups a from_index to_index k).
Proof.
  intros a from_index to_index d Hwf Hfrom Hto H k.
  unfold Annotatable.get_rename_dict in H.
  apply bind_ok in H as (r & Hreset & H). apply bind_ok in H as (r2 & Hnn & H).
  destruct (decide (from_index ∈ columns r2)) as [Hin2|]; [|discriminate].
  destruct (to_dict_lookup _ _ _ k H) as [_ ->].
  destruct (notnull_rows_Ok _ _ _ Hnn) as (Hto2 & Hc2 & Hn2 & _ & _).
  rewrite Hc2 in Hin2.
  assert (forall n, n ∈ columns r -> column r2 n = (fun x => Spec.labelled r2 x n) <$> rows r2)
    as Hcol.
  { intros n Hn. unfold column. apply list_fmap_ext. intros _ x _.
    rewrite labelled_column; [reflexivity|]. by rewrite Hc2. }
  rewrite (Hcol _ Hin2), (Hcol _ Hto2), zip_fmap_diag, <- fmap_last.
  rewrite (lookups_notnull _ _ _ _ _ Hnn). f_equal.
  unfold Behaviour.lookups. symmetry. apply omap_Forall2.
  destruct (reset_index_aligned _ _ Hreset Hwf) as [Hal _].
  eapply Forall2_impl; [exact Hal|]. cbn beta. intros x y Hxy.
  by rewrite (Hxy from_index Hfrom), (Hxy to_index Hto).
Qed.

(** [EnsembleGenes.get_functional_annotations] maps every identifier that
    has a GO term to its distinct terms, in order of first appearance,
    joined with ["|"]; an identifier without any term has no entry. *)
Theorem get_functional_annotations_joins_terms :
  forall (df : DataFrame) (omic index : string) (d : gmap value value),
    annotation_more.get_functional_annotations df omic index = Ok d ->
    forall k,
      (k = NaN \/ Behaviour.lookups df index "go_id" k = [] -> d !! k = None)
      /\ (k <> NaN -> Behaviour.lookups df index "go_id" k <> [] ->
            exists strs,
              unique (Behaviour.lookups df index "go_id" k) = Str <$> strs
              /\ d !! k = Some (Str (Py.join "|" strs))).
Proof.
  intros df omic index d H k. unfold annotation_more.get_functional_annotations in H.
  apply bind_ok in H as (d1 & Hnn & H). apply bind_ok in H as (keys & Hkeys & H).
  apply bind_ok in H as (vals & Hvals & H).
  destruct (to_dict_lookup _ _ _ k H) as [_ ->].
  apply traverse_Forall2 in Hvals.
  destruct (NoDup_zip_lookup _ _ _ k (group_keys_NoDup keys) Hvals) as [Hyes Hno].
  destruct (resolve_key_labelled _ _ _ Hkeys) as [-> _].
  destruct (notnull_rows_Ok _ _ _ Hnn) as (Hgo & Hc & Hn & _ & Hr).
  assert (group_values d1 ((fun r => Spec.labelled d1 r index) <$> rows d1) k "go_id"
          = Behaviour.lookups df index "go_id" k) as Hgroup.
  { rewrite group_values_omap, Hr, omap_filter. unfold Behaviour.lookups.
    apply omap_Forall2, Forall_Forall2_diag, Forall_forall. intros r _.
    rewrite (labelled_same_labels df d1) by assumption.
    rewrite (labelled_column df r "go_id" Hgo), Hc.
    assert (isna (pick (columns df) "go_id" r.2) = false
            <-> pick (columns df) "go_id" r.2 <> NaN) as Hna.
    { destruct (pick (columns df) "go_id" r.2); simpl; split; congruence. }
    repeat destruct (decide _); try reflexivity; exfalso; tauto. }
  assert (k ∈ (fun r => Spec.labelled d1 r index) <$> rows d1
          <-> Behaviour.lookups df index "go_id" k <> []) as Hmem.
  { rewrite <- (lookups_notnull _ _ _ _ _ Hnn). split.
    - intros (r & -> & Hr')%list_elem_of_fmap Hnil.
      apply fmap_nil_inv in Hnil.
      assert ((Spec.labelled d1 r index, Spec.labelled d1 r "go_id")
              ∈ filter (fun kv : value * value => kv.1 = Spec.labelled d1 r index)
                  ((fun r => (Spec.labelled d1 r index, Spec.labelled d1 r "go_id"))
                     <$> rows d1)) as Hin.
      { apply list_elem_of_filter. split; [reflexivity|].
        apply list_elem_of_fmap. eauto. }
      rewrite Hnil in Hin. by apply elem_of_nil in Hin.
    - intros Hne.
      assert (forall l : list (value * value), snd <$> l <> [] -> exists x, x ∈ l) as Hex.
      { intros [|x l] Hl; [done|]. exists x. left. }
      apply Hex in Hne as [kv Hin].
      apply list_elem_of_filter in Hin as [Hk Hin].
      apply list_elem_of_fmap in Hin as (r & -> & Hr'). cbn in Hk. subst k.
      apply list_elem_of_fmap. eauto. }
  split.
  - intros Hk. rewrite Hno; [reflexivity|]. rewrite group_keys_elem.
    intros [Hin Hne]. destruct Hk as [->|Hnil]; [done|]. by apply Hmem in Hin.
  - intros Hne Hterms. destruct Hyes as (v & Hv & ->).
    { apply group_keys_elem. split; [by apply Hmem|assumption]. }
    rewrite Hgroup in Hv. unfold annotation.join_unique in Hv.
    apply bind_ok in Hv as (strs & Hstrs & Hv). injection Hv as <-.
    apply traverse_strings in Hstrs. eauto.
Qed.

(** ** From the identifiers to their annotations *)

Section Initial.




Lemma strings_forallb (l : list value) :
  forallb (fun v => match v with Str _ => true | _ => false end) l = true ->
  Behaviour.strings l.
Proof.
  intros H v Hv. rewrite forallb_forall in H. apply list_elem_of_In in Hv.
  specialize (H v Hv). destruct v; try discriminate. eauto.
Qed.

Lemma empty_frame_keys labels index :
  resolve_key (pd_more.empty_frame labels (Some index)) index = Ok labels.
Proof.
  unfold resolve_key. cbn [pd_more.empty_frame pd.columns names position].
  destruct (decide _) as [_|Hne]; [|by destruct Hne].
  cbn [rows pd_more.empty_frame]. f_equal. rewrite <- list_fmap_compose.
  apply list_fmap_id.
Qed.



End Initial.


(** ** Sequences as a column *)

Section SequenceColumn.

Lemma cell_at_set cols c v cells c' :
  length cells = length cols ->
  annotation_more.cell_at cols c' ((fun p : string * value => if decide (p.1 = c) then v else annotation_more.Plain p.2)
                     <$> zip cols cells)
  = if decide (c' = c) then (if decide (c ∈ cols) then v else annotation_more.Plain NaN)
    else annotation_more.Plain (pick cols c' cells).
Proof.
  intros Hlen. unfold annotation_more.cell_at, pick. destruct (position c' cols) as [p|] eqn:Ep.
  - pose proof (position_lookup _ _ _ Ep) as Hp.
    destruct (lookup_lt_is_Some_2 cells p) as [x Hx].
    { rewrite Hlen. by eapply lookup_lt_Some. }
    rewrite list_lookup_fmap. rewrite lookup_zip_with, Hp, Hx. simpl.
    destruct (decide (c' = c)) as [->|Hne]; [|reflexivity].
    rewrite decide_True; [reflexivity|]. by eapply list_elem_of_lookup_2.
  - apply position_None in Ep.
    destruct (decide (c' = c)) as [->|Hne]; [|reflexivity].
    by rewrite decide_False.
Qed.

Lemma cell_at_appended cols c v cells c' :
  length cells = length cols -> c ∉ cols ->
  annotation_more.cell_at (cols ++ [c]) c' ((annotation_more.Plain <$> cells) ++ [v])
  = if decide (c' = c) then v else annotation_more.Plain (pick cols c' cells).
Proof.
  intros Hlen Hc. unfold annotation_more.cell_at, pick. rewrite position_app.
  destruct (position c' cols) as [p|] eqn:Ep.
  - pose proof (position_lookup _ _ _ Ep) as Hp.
    destruct (lookup_lt_is_Some_2 cells p) as [x Hx].
    { rewrite Hlen. by eapply lookup_lt_Some. }
    rewrite lookup_app_l by (rewrite length_fmap, Hlen; by eapply lookup_lt_Some).
    rewrite list_lookup_fmap, Hx. simpl.
    rewrite decide_False; [reflexivity|]. intros ->. apply Hc.
    by eapply list_elem_of_lookup_2.
  - simpl. destruct (decide (c = c')) as [->|Hne].
    + rewrite decide_True by reflexivity. simpl.
      rewrite lookup_app_r by (rewrite length_fmap; lia).
      rewrite length_fmap, Hlen. replace (length cols + 0 - length cols) with 0 by lia.
      reflexivity.
    + rewrite decide_False by congruence. reflexivity.
Qed.

Lemma setitem_cells_index df c (g : value -> annotation_more.cell) :
  Spec.wf_rows df ->
  exists fr,
    annotation_more.setitem_cells df c (g <$> index_values df) = Ok fr
    /\ annotation_more.frame_multi fr = multi df /\ annotation_more.frame_names fr = names df
    /\ annotation_more.frame_columns fr
       = (if decide (c ∈ columns df) then columns df else columns df ++ [c])
    /\ Forall2 (fun r r' =>
          r'.1 = r.1
          /\ (forall c', c' <> c ->
                annotation_more.cell_at (annotation_more.frame_columns fr) c' r'.2 = annotation_more.Plain (pick (columns df) c' r.2))
          /\ annotation_more.cell_at (annotation_more.frame_columns fr) c r'.2 = g (default NaN (head r.1)))
         (rows df) (annotation_more.frame_rows fr).
Proof.
  intros Hwf. unfold annotation_more.setitem_cells, index_values.
  rewrite decide_True by (unfold nrows; by rewrite !length_fmap).
  eexists. split; [reflexivity|]. cbn [annotation_more.frame_multi annotation_more.frame_names annotation_more.frame_columns annotation_more.frame_rows].
  split; [reflexivity|]. split; [reflexivity|]. split; [reflexivity|].
  rewrite !zip_with_fmap_r, zip_with_diag. apply Forall2_fmap_r.
  apply Forall_Forall2_diag. apply Forall_forall. intros r Hr.
  apply (proj1 (Forall_forall _ _) Hwf) in Hr as [_ Hlen]. cbn [fst snd].
  split; [reflexivity|].
  destruct (decide (c ∈ columns df)) as [Hin|Hout]; cbn [fst snd].
  - split.
    + intros c' Hne. rewrite cell_at_set by assumption. by rewrite decide_False.
    + rewrite cell_at_set by assumption. rewrite decide_True by reflexivity.
      by rewrite decide_True.
  - split.
    + intros c' Hne. rewrite cell_at_appended by assumption. by rewrite decide_False.
    + rewrite cell_at_appended by assumption. by rewrite decide_True.
Qed.

End SequenceColumn.

(** [annotate_sequences] of [annotation.py] on a GENCODE database and
    annotations with a single-level index: it returns whenever
    [get_sequences] does; the index and the other columns stay as they
    were, and the column "Transcript sequence" holds for every
    identifier of the index what [get_sequences] keeps of its records:
    in a gene space the first shortest or the first longest sequence, or
    with "all" the list of all of them; in a transcript space the last
    one; and NaN when it has no record or is no string. *)
Theorem annotate_sequences_selects :
  forall (self : annotation.GENCODE) (omic index : string)
         (records : list annotation.SeqRecord) (a : DataFrame),
    (omic = "GE"
       /\ annotation.gencode_file_resources self !! "transcripts.fa" = Some records
     \/ omic = "LNC"
       /\ annotation.gencode_file_resources self !! "lncRNA_transcripts.fa"
          = Some records) ->
    Spec.wf_rows a ->
    multi a = false ->
    is_ok (annotation.GENCODE_get_sequences self omic index) = true ->
    exists fr,
      annotation_more.annotate_sequences self index omic a = Ok fr
      /\ annotation_more.frame_multi fr = false /\ annotation_more.frame_names fr = names a
      /\ annotation_more.frame_columns fr
         = (if decide ("Transcript sequence" ∈ columns a) then columns a
            else columns a ++ ["Transcript sequence"])
      /\ Forall2 (fun r r' =>
            r'.1 = r.1
            /\ (forall c, c <> "Transcript sequence" ->
                  annotation_more.cell_at (annotation_more.frame_columns fr) c r'.2 = annotation_more.Plain (pick (columns a) c r.2))
            /\ match default NaN (head r.1) with
               | Str g =>
                   Behaviour.selected (annotation.gencode_import_sequences self)
                     (contains "gene" index)
                     (Spec.seqs_for (fun r => annotation.GENCODE_key index (annotation.id r))
                        (Spec.normalise (annotation.gencode_replace_U2T self)) g records)
                     (annotation_more.cell_at (annotation_more.frame_columns fr) "Transcript sequence" r'.2)
               | _ => annotation_more.cell_at (annotation_more.frame_columns fr) "Transcript sequence" r'.2 = annotation_more.Plain NaN
               end)
           (rows a) (annotation_more.frame_rows fr).
Proof.
  intros self omic index records a Hfile Hwf Hm Hok.
  unfold annotation_more.annotate_sequences, annotation_more.get_sequences,
    annotation_more.GENCODE_Database.
  destruct (GENCODE_get_sequences self omic index) as [d|e] eqn:Hget; [|discriminate].
  cbn [mbind result_bind]. rewrite Hm.
  destruct (setitem_cells_index a "Transcript sequence" (annotation_more.sequence_cell d) Hwf)
    as (fr & -> & Hmf & Hnf & Hcf & Hrows).
  exists fr. split; [reflexivity|]. split; [by rewrite Hmf|]. split; [assumption|].
  split; [assumption|].
  eapply Forall2_impl; [exact Hrows|]. cbn beta. intros r r' (He & Hother & Hcell).
  split; [assumption|]. split; [assumption|]. rewrite Hcell.
  destruct (default NaN (head r.1)) as [|g|z]; [reflexivity| |reflexivity].
  rewrite (GENCODE_get_sequences_ok _ _ _ _ Hfile) in Hget.
  unfold Behaviour.selected, annotation_more.sequence_cell. unfold Spec.GENCODE_policy in Hget.
  destruct (contains "gene" index).
  - pose proof (loop_resolved_by_policy _ _ _ _ _ Hget g) as [Hnone Hpol].
    destruct (Spec.seqs_for _ _ g records) as [|s0 l] eqn:Eseqs.
    + by rewrite (Hnone eq_refl).
    + destruct (Hpol ltac:(discriminate)) as (Hs & Hl & Hall).
      split; [|split; [|split]].
      * intros E. destruct (Hs E) as (x & -> & Hfs). eauto.
      * intros E. destruct (Hl E) as (x & -> & Hfs). eauto.
      * intros E. by rewrite (Hall E).
      * intros E1 E2 E3. unfold Spec.policy_of in Hget.
        rewrite !decide_False in Hget by assumption.
        apply loop_resolved_by_last in Hget. rewrite (Hget g), Eseqs.
        destruct (last (s0 :: l)) as [x|] eqn:El; [simpl; eauto|].
        by apply last_None in El.
  - apply loop_resolved_by_last in Hget. rewrite (Hget g).
    destruct (Spec.seqs_for _ _ g records) as [|s0 l] eqn:Eseqs; [reflexivity|].
    destruct (last (s0 :: l)) as [x|] eqn:El; [simpl; eauto|].
    by apply last_None in El.
Qed.

(** ** Expressions over the index of the annotations *)

Section Expressions.

Lemma reduce_groups_resolved df by_ spec out :
  reduce_groups df by_ spec = Ok out -> exists keys, resolve_key df by_ = Ok keys.
Proof. unfold reduce_groups. intros H. apply bind_ok in H as (keys & Hk & _). eauto. Qed.

Lemma bare_index_wf a :
  Spec.wf_rows a ->
  Spec.wf_rows {| multi := multi a; names := names a; columns := [];
                  rows := (fun r => (r.1, [])) <$> rows a |}.
Proof.
  intros Hwf. apply Forall_forall. intros r' Hr'. cbn in Hr'.
  apply list_elem_of_fmap in Hr' as (r & -> & Hr).
  apply (proj1 (Forall_forall _ _) Hwf) in Hr as [Hl _]. by split.
Qed.

End Expressions.

(** Whatever its outcome, [annotate_expressions] leaves in
    [annotation_expressions] a frame over the index of the annotations,
    row by row (so [get_annotation_expressions] returns afterwards, also
    after a failure).  It returns only when [index] is the name of that
    index; under another name, or a MultiIndex, it raises and the frame
    has no column. *)
Theorem annotate_expressions_over_index :
  forall (median : list value -> result value) (database : base.Dataset)
         (index : string) (a : DataFrame),
    Spec.wf_rows a ->
    exists e,
      (Annotatable.annotate_expressions median database index a).1 = Some e
      /\ Annotatable.get_annotation_expressions
           (Annotatable.annotate_expressions median database index a).1 = Ok e
      /\ names e = names a /\ multi e = multi a
      /\ index_entries e = index_entries a
      /\ ((Annotatable.annotate_expressions median database index a).2 = Ok tt ->
            index_name a = Some index)
      /\ (index_name a ≠ Some index ->
            (Annotatable.annotate_expressions median database index a).2 = Raise Exception
            /\ columns e = []).
Proof.
  intros median database index a Hwf. unfold Annotatable.annotate_expressions.
  set (bare := {| multi := multi a; names := names a; columns := [];
                  rows := (fun r => (r.1, [])) <$> rows a |}).
  assert (index_entries bare = index_entries a) as Hbare.
  { unfold index_entries. cbn. rewrite <- list_fmap_compose. by apply list_fmap_ext. }
  destruct (decide (index_name a = Some index)) as [Hname|Hname].
  - destruct (Dataset.get_expressions median database index) as [ex|err] eqn:Eex;
      cbn [mbind result_bind].
    + destruct (pd.join bare ex index "") as [j|err] eqn:Ej.
      * exists j. split; [reflexivity|]. split; [reflexivity|].
        unfold Dataset.get_expressions in Eex.
        destruct (reduce_groups_resolved _ _ _ _ Eex) as [keys Hkeys].
        destruct (reduce_groups_table _ _ _ _ _ Hkeys Eex) as [Hwfe _].
        destruct (reduce_groups_indexed _ _ _ _ _ Hkeys Eex) as (_ & Hnd & _).
        destruct (join_aligned _ _ _ _ _ Ej (bare_index_wf _ Hwf) Hwfe Hnd)
          as (Hnj & Hmj & Hcj & _ & _ & Hrows).
        split; [exact Hnj|]. split; [exact Hmj|]. split; [|split].
        -- rewrite <- Hbare. unfold index_entries. apply (Forall2_fmap_eq fst fst).
           eapply Forall2_impl; [exact Hrows|]. by intros r r' [? _].
        -- intros _. assumption.
        -- done.
      * exists bare. split; [reflexivity|]. split; [reflexivity|].
        split; [reflexivity|]. split; [reflexivity|]. split; [assumption|].
        split; [discriminate|done].
    + exists bare. split; [reflexivity|]. split; [reflexivity|].
      split; [reflexivity|]. split; [reflexivity|]. split; [assumption|].
      split; [discriminate|done].
  - exists bare. split; [reflexivity|]. split; [reflexivity|].
    split; [reflexivity|]. split; [reflexivity|]. split; [assumption|].
    split; [discriminate|]. intros _. split; reflexivity.
Qed.

(** ** Changing the index, and back *)

Section Reindex.

Lemma fillna_from_index_aligned df c df' :
  pd_more.fillna_from_index df c = Ok df' -> Spec.wf_rows df ->
  c ∈ columns df /\ multi df = false
  /\ columns df' = columns df /\ names df' = names df /\ multi df' = multi df
  /\ Spec.wf_rows df'
  /\ Forall2 (fun r r' =>
        r'.1 = r.1
        /\ Spec.labelled df' r' c
           = Spec.filled (Spec.labelled df r c) (default NaN (head r.1))
        /\ forall n, n <> c -> Spec.labelled df' r' n = Spec.labelled df r n)
       (rows df) (rows df').
Proof.
  unfold pd_more.fillna_from_index. intros H Hwf.
  destruct (position c (columns df)) as [p|] eqn:Ep; [|discriminate].
  destruct (multi df) eqn:Em; [discriminate|].
  injection H as <-. unfold Spec.wf_rows in *. cbn [columns names multi rows].
  split; [by eapply list_elem_of_lookup_2, position_lookup|].
  split; [reflexivity|]. split; [reflexivity|]. split; [reflexivity|].
  split; [reflexivity|]. split.
  - apply Forall_forall. intros r' Hr'.
    apply list_elem_of_fmap in Hr' as (r & -> & Hr).
    apply (proj1 (Forall_forall _ _) Hwf) in Hr as [Hl1 Hl2]. cbn [fst snd].
    split; [assumption|]. destruct (isna _); [by rewrite length_insert | assumption].
  - apply Forall2_fmap_self. intros r Hr.
    apply (proj1 (Forall_forall _ _) Hwf) in Hr as [Hl1 Hl2].
    assert (p < length r.2) as Hp.
    { rewrite Hl2. by eapply lookup_lt_Some, position_lookup. }
    split; [reflexivity|]. unfold Spec.labelled, Spec.filled. cbn [columns names fst snd].
    rewrite Ep. split.
    + destruct (isna (default NaN (r.2 !! p))); [|reflexivity].
      by rewrite list_lookup_insert_eq.
    + intros n Hn. destruct (position n (columns df)) as [p'|] eqn:Ep'; [|reflexivity].
      destruct (isna (default NaN (r.2 !! p))); [|reflexivity].
      rewrite list_lookup_insert_ne; [reflexivity|].
      intros ->. apply Hn. apply position_lookup in Ep, Ep'. congruence.
Qed.

(** One call of [set_index], on annotations under a single named index. *)
Lemma set_index_step (o n : string) (s s1 : Run.store) :
  Spec.wf_rows (Run.annotations s) ->
  multi (Run.annotations s) = false -> names (Run.annotations s) = [Some o] ->
  Annotatable.set_index n s = (s1, Ok tt) ->
  let a := Run.annotations s in
  let a1 := Run.annotations s1 in
  Spec.wf_rows a1 /\ multi a1 = false /\ names a1 = [Some n]
  /\ columns a1 = o :: filter (fun c => c <> n) (columns a)
  /\ (o ∉ columns a) /\ n ∈ columns a
  /\ Forall2 (fun r r1 =>
        Spec.labelled a1 r1 n = Spec.filled (Spec.labelled a r n) (Spec.labelled a r o)
        /\ forall c, c ∈ columns a \/ c = o -> c <> n ->
             Spec.labelled a1 r1 c = Spec.labelled a r c)
       (rows a) (rows a1).
Proof.
  intros Hwf Hm Hn H a a1. unfold Annotatable.set_index in H.
  apply run_bind_Ok in H as (sf & [] & Hf & H).
  apply run_update_Ok in Hf as (af & Hf & ->).
  apply run_update_Ok in H as (a1' & H & ->). cbn [Run.annotations] in *.
  subst a1. cbn [Run.annotations]. fold a in Hf, Hwf, Hm, Hn.
  apply bind_ok in H as (ar & Hr & Hs).
  destruct (fillna_from_index_aligned _ _ _ Hf Hwf)
    as (Hnin & _ & Hcf & Hnf & Hmf & Hwff & Hrf).
  destruct (reset_index_columns _ _ Hr) as (Hcr & _ & Hdis & _ & _ & _).
  destruct (reset_index_aligned _ _ Hr Hwff) as [Halr Hwfr].
  destruct (set_index_aligned _ _ _ Hs Hwfr) as (Hals & Hwf1 & Hn1 & Hc1).
  assert (level_labels af = [o]) as Hlev.
  { unfold level_labels. by rewrite Hmf, Hm, Hnf, Hn. }
  rewrite Hlev, Hcf in Hcr. cbn [app] in Hcr.
  assert (o ∉ columns a) as Ho.
  { rewrite <- Hcf. apply Hdis. rewrite Hlev. left. }
  assert (o <> n) as Hon by (intros ->; by apply Ho).
  split; [assumption|]. split.
  { apply set_index_Ok in Hs as (_ & _ & ->). reflexivity. }
  split; [assumption|]. split.
  { rewrite Hc1, Hcr. rewrite filter_cons, is_key_single.
    rewrite decide_True by (by apply bool_decide_eq_false).
    f_equal. apply list_filter_iff. intros c. rewrite is_key_single.
    by rewrite bool_decide_eq_false. }
  split; [assumption|]. split; [assumption|].
  assert (forall r, r ∈ rows a -> default NaN (head r.1) = Spec.labelled a r o) as Hhead.
  { intros r Hr'. symmetry. unfold Spec.labelled.
    rewrite (proj2 (position_None o (columns a)) Ho). fold a. rewrite Hn.
    cbn [position]. rewrite decide_True by reflexivity. by destruct r.1. }
  assert (Forall (fun r => r ∈ rows a) (rows a)) as Hall by (apply Forall_forall; auto).
  pose proof (Forall2_Forall_and _ _ _ _ Hall Hrf) as H1.
  unfold Spec.aligned in Halr, Hals.
  pose proof (Forall2_chain _ _ _ _ _ Halr Hals) as H2.
  pose proof (Forall2_chain _ _ _ _ _ H1 H2) as H3.
  eapply Forall2_impl; [exact H3|].
  cbn beta. intros r r1 (rf & (Hin & _ & Hfill & Hkeep) & (rr & Hxr & Hxs)).
  assert (forall c, c ∈ columns a \/ c = o ->
            Spec.labelled (Run.annotations
              {| Run.annotations := a1'; Run.columns_arg := Run.columns_arg s |}) r1 c
            = Spec.labelled af rf c) as Hvia.
  { intros c Hc. cbn [Run.annotations]. rewrite (Hxs c).
    - apply Hxr. rewrite Hcf, Hnf. fold a. rewrite Hn.
      destruct Hc as [?| ->]; [by left|right; left].
    - rewrite Hcr. destruct Hc as [?| ->]; [by right|left]. }
  cbn [Run.annotations] in Hvia. split.
  - rewrite (Hvia n) by (by left). rewrite Hfill. by rewrite (Hhead r Hin).
  - intros c Hc Hne. rewrite (Hvia c Hc). by apply Hkeep.
Qed.

End Reindex.

Section RoundTrip.

Lemma single_entry df r n :
  names df = [Some n] -> n ∉ columns df -> length r.1 = length (names df) ->
  r.1 = [Spec.labelled df r n].
Proof.
  intros Hn Hc Hl. unfold Spec.labelled.
  rewrite (proj2 (position_None n (columns df)) Hc), Hn. cbn [position].
  rewrite decide_True by reflexivity. rewrite Hn in Hl.
  destruct r.1 as [|v [|w l]]; simpl in *; try discriminate. reflexivity.
Qed.

Lemma filter_ne_absent (x : string) (l : list string) :
  x ∉ l -> filter (fun c => c <> x) l = l.
Proof.
  induction l as [|y l IH]; [reflexivity|]. rewrite not_elem_of_cons. intros [Hxy Hl].
  rewrite filter_cons, decide_True by congruence. by rewrite IH.
Qed.

End RoundTrip.

(** [set_index] of [base.py] to a column and back to the former index:
    when both calls return and the index held no missing value, the
    annotations are under their former index again, entry by entry; the
    column visited stands first and has its missing cells completed with
    the identifiers; every other column holds what it held. *)
Theorem set_index_round_trip :
  forall (o n : string) (s s1 s2 : Run.store),
    Spec.wf_rows (Run.annotations s) ->
    multi (Run.annotations s) = false ->
    names (Run.annotations s) = [Some o] ->
    (NaN ∉ index_values (Run.annotations s)) ->
    Annotatable.set_index n s = (s1, Ok tt) ->
    Annotatable.set_index o s1 = (s2, Ok tt) ->
    let a := Run.annotations s in
    let a2 := Run.annotations s2 in
    multi a2 = false /\ names a2 = [Some o]
    /\ index_entries a2 = index_entries a
    /\ columns a2 = n :: filter (fun c => c <> n) (columns a)
    /\ Forall2 (fun r r2 =>
          Spec.labelled a2 r2 n = Spec.filled (Spec.labelled a r n) (Spec.labelled a r o)
          /\ forall c, c ∈ columns a -> c <> n ->
               Spec.labelled a2 r2 c = Spec.labelled a r c)
         (rows a) (rows a2).
Proof.
  intros o n s s1 s2 Hwf Hm Hn Hna H1 H2 a a2.
  destruct (set_index_step o n s s1 Hwf Hm Hn H1)
    as (Hwf1 & Hm1 & Hn1 & Hc1 & Ho & Hnin & Hr1).
  destruct (set_index_step n o s1 s2 Hwf1 Hm1 Hn1 H2)
    as (Hwf2 & Hm2 & Hn2 & Hc2 & _ & _ & Hr2).
  fold a in Hwf, Hm, Hn, Hna, Hc1, Ho, Hnin, Hr1. fold a2 in Hwf2, Hm2, Hn2, Hc2, Hr2.
  assert (o <> n) as Hon by (intros ->; by apply Ho).
  assert (columns a2 = n :: filter (fun c => c <> n) (columns a)) as Hc2'.
  { rewrite Hc2, Hc1, filter_cons, decide_False by (intros E; by apply E).
    f_equal. apply filter_ne_absent. rewrite list_elem_of_filter. tauto. }
  split; [assumption|]. split; [assumption|].
  assert (Forall (fun r => r ∈ rows a) (rows a)) as Hall by (apply Forall_forall; auto).
  pose proof (Forall2_Forall_and _ _ _ _ Hall Hr1) as Hr1'.
  pose proof (Forall2_chain _ _ _ _ _ Hr1' Hr2) as Hr.
  assert (Forall (fun r2 => r2 ∈ rows a2) (rows a2)) as Hall2
    by (apply Forall_forall; auto).
  assert (Forall2 (fun r r2 =>
            r2.1 = r.1
            /\ Spec.labelled a2 r2 n
               = Spec.filled (Spec.labelled a r n) (Spec.labelled a r o)
            /\ forall c, c ∈ columns a -> c <> n ->
                 Spec.labelled a2 r2 c = Spec.labelled a r c) (rows a) (rows a2)) as Hrows.
  { apply Forall2_flip. apply Forall2_flip in Hr.
    pose proof (Forall2_Forall_and _ _ _ _ Hall2 Hr) as Hr'.
    eapply Forall2_impl; [exact Hr'|]. cbn beta.
    intros r2 r (Hin2 & r1 & (Hin & Hfill1 & Hkeep1) & Hfill2 & Hkeep2).
    apply (proj1 (Forall_forall _ _) Hwf) in Hin as Hlen. destruct Hlen as [Hl _].
    apply (proj1 (Forall_forall _ _) Hwf2) in Hin2 as [Hl2 _].
    split; [|split].
    - rewrite (single_entry a r o Hn Ho Hl).
      rewrite (single_entry a2 r2 o Hn2); [|rewrite Hc2'|assumption].
      + f_equal. rewrite Hfill2. rewrite (Hkeep1 o) by auto.
        unfold Spec.filled.
        destruct (isna (Spec.labelled a r o)) eqn:E; [|reflexivity].
        exfalso. apply Hna. unfold index_values. apply list_elem_of_fmap.
        exists r. split; [|assumption]. rewrite (single_entry a r o Hn Ho Hl). cbn.
        by destruct (Spec.labelled a r o).
      + rewrite not_elem_of_cons, list_elem_of_filter. tauto.
    - rewrite (Hkeep2 n); [assumption| |congruence]. by right.
    - intros c Hc Hne. rewrite (Hkeep2 c).
      + apply Hkeep1; auto.
      + left. rewrite Hc1. right. by apply list_elem_of_filter.
      + intros ->. by apply Ho. }
  split; [|split; [assumption|]].
  - unfold index_entries. apply (Forall2_fmap_eq fst fst).
    eapply Forall2_impl; [exact Hrows|]. by intros r r2 [? _].
  - eapply Forall2_impl; [exact Hrows|]. by intros r r2 (_ & ? & ?).
Qed.

(** ** A requested column the table does not have *)

Section Unknown.

Lemma groupby_agg_unknown df by_ (spec : list (string * (list value -> result value))) c :
  c ∈ spec.*1 -> c ∉ columns df ->
  (position by_ (columns df) = None \/ position (Some by_) (names df) = None) ->
  groupby_agg df by_ spec = Raise KeyError.
Proof.
  intros Hc Hout Hkey.
  rewrite groupby_agg_some by (intros ->; by apply elem_of_nil in Hc).
  unfold reduce_groups, resolve_key.
  assert (has_columns df spec.*1 = false) as Hhas.
  { destruct (has_columns df spec.*1) eqn:E; [|reflexivity].
    exfalso. apply Hout. by apply (proj1 (has_columns_spec _ _) E). }
  destruct (position by_ (columns df)), (position (Some by_) (names df));
    cbn [mbind result_bind]; try reflexivity; try (by rewrite Hhas).
  destruct Hkey; discriminate.
Qed.

End Unknown.

(** When a requested column is not a column of the table,
    [get_annotations] of [base.py] raises [Exception] at its guard and
    leaves the list of the caller as it was; [get_annotations] of
    [annotation.py], which filters the table without a guard, raises
    KeyError from the aggregation, unless the key names both the index
    and a column of the table. *)
Theorem unknown_column_raises :
  forall (c index : string) (columns : list string),
    c ∈ columns ->
    (forall named_reduction (self : base.Dataset) (agg : string),
        c ∉ pd.columns (base.data self) ->
        base.get_annotations named_reduction self index columns agg
        = (columns, Raise Exception))
    /\ (forall self : annotation.Dataset,
          c ∉ pd.columns (annotation.df self) -> c <> index ->
          ~ (Some index = index_name (annotation.df self)
             /\ index ∈ pd.columns (annotation.df self)) ->
          (annotation.get_annotations self index (Some columns)).2 = Raise KeyError).
Proof.
  intros c index columns Hc. split.
  - intros nr self agg Hout. unfold base.get_annotations.
    assert (has_columns (base.data self) columns = false) as ->; [|reflexivity].
    destruct (has_columns (base.data self) columns) eqn:E; [|reflexivity].
    exfalso. apply Hout. by apply (proj1 (has_columns_spec _ _) E).
  - intros self Hout Hne Hamb. rewrite annotation_get_annotations_unfold. cbn [snd].
    destruct (annotation_selected_facts self index columns) as (Hn & Hidx & Hsub & _ & _).
    set (d1 := (Spec.annotation_selected self index columns).1) in *.
    assert (c ∈ ((fun k => (k, concat_uniques_agg))
                   <$> unique (Spec.annotation_selected self index columns).2).*1) as Hspec.
    { rewrite fmap_fst_pair, unique_elem. unfold Spec.annotation_selected.
      pose proof (popped_keeps index c columns Hc Hne) as Hp.
      by destruct (position index columns). }
    assert (c ∉ pd.columns d1) as Hout1 by (intros Hin; by apply Hout, Hsub).
    destruct (bool_decide (Some index ≠ index_name (annotation.df self))) eqn:E1;
      destruct (bool_decide (index ∈ pd.columns (annotation.df self))) eqn:E2;
      cbn [andb].
    + apply bool_decide_eq_true in E2. destruct (Hidx E2) as [Hin1 _].
      destruct (set_index_resolve_key d1 index Hin1) as (d2 & -> & _ & _ & _ & Hc2 & _).
      cbn [mbind result_bind].
      rewrite (groupby_agg_unknown d2 index _ c Hspec); [reflexivity| |].
      * rewrite Hc2, list_elem_of_filter. tauto.
      * left. apply position_None. rewrite Hc2, list_elem_of_filter, is_key_single.
        intros [Hb _]. by apply bool_decide_eq_false in Hb.
    + apply bool_decide_eq_false in E2. cbn [mbind result_bind].
      rewrite (groupby_agg_unknown d1 index _ c Hspec Hout1); [reflexivity|].
      left. apply position_None. intros Hin. by apply E2, Hsub.
    + apply bool_decide_eq_false in E1. apply bool_decide_eq_true in E2.
      exfalso. apply Hamb. split; [|assumption].
      destruct (decide (Some index = index_name (annotation.df self))); [assumption|].
      by exfalso; apply E1.
    + apply bool_decide_eq_false in E2. cbn [mbind result_bind].
      rewrite (groupby_agg_unknown d1 index _ c Hspec Hout1); [reflexivity|].
      left. apply position_None. intros Hin. by apply E2, Hsub.
Qed.

(** ** No column to aggregate *)

Section NoValueColumn.

Lemma groupby_agg_nothing df by_ keys :
  resolve_key df by_ = Ok keys -> groupby_agg df by_ [] = Raise ValueError.
Proof. intros H. unfold groupby_agg. by rewrite H. Qed.

Lemma nothing_popped (index : string) (columns : list string) :
  columns = [] \/ columns = [index] ->
  match position index columns with Some i => delete i columns | None => columns end = [].
Proof.
  intros [->| ->]; [reflexivity|]. cbn [position]. by rewrite decide_True.
Qed.

End NoValueColumn.

(** Without a column other than the key there is nothing to aggregate:
    on a table with distinct labels whose key is a column,
    [get_annotations] of [base.py] with "concat" raises ValueError from
    the aggregation, and so does [get_annotations] of [annotation.py];
    the list of the caller is left empty. *)
Theorem no_value_column_raises :
  forall (index : string) (columns : list string),
    columns = [] \/ columns = [index] ->
    (forall named_reduction (self : base.Dataset),
        NoDup (pd.columns (base.data self)) ->
        index ∈ pd.columns (base.data self) ->
        Some index ≠ index_name (base.data self) ->
        base.get_annotations named_reduction self index columns "concat"
        = ([], Raise ValueError))
    /\ (forall self : annotation.Dataset,
          NoDup (pd.columns (annotation.df self)) ->
          index ∈ pd.columns (annotation.df self) ->
          Some index ≠ index_name (annotation.df self) ->
          annotation.get_annotations self index (Some columns)
          = (Some [], Raise ValueError)).
Proof.
  intros index columns Hcols. pose proof (nothing_popped index columns Hcols) as Hpop.
  split.
  - intros nr self _ Hin Hname. unfold base.get_annotations.
    assert (has_columns (base.data self) columns = true) as ->.
    { apply has_columns_spec. intros c Hc.
      destruct Hcols as [->| ->]; [by apply elem_of_nil in Hc|].
      apply list_elem_of_singleton in Hc. by subst. }
    cbn [negb]. rewrite Hpop. cbv zeta. f_equal.
    destruct (getitem_columns (base.data self) ([] ++ [index])) as [df1|e] eqn:H1;
      cbn [mbind result_bind].
    + pose proof (base_grouped_frame self index [] df1 H1) as Hg.
      rewrite (bool_decide_eq_true_2 _ Hname), (bool_decide_eq_true_2 _ Hin) in Hg |- *.
      cbn [andb] in Hg |- *. destruct Hg as (df2 & -> & Hk & _).
      cbn [mbind result_bind]. rewrite decide_True by reflexivity.
      by apply (groupby_agg_nothing _ _ _ Hk).
    + exfalso. unfold getitem_columns in H1.
      rewrite (proj2 (has_columns_spec _ ([] ++ [index]))) in H1; [discriminate|].
      intros c Hc. apply list_elem_of_singleton in Hc. by subst.
  - intros self _ Hin Hname. rewrite annotation_get_annotations_unfold.
    destruct (annotation_selected_facts self index columns) as (_ & Hidx & _).
    cbv zeta in Hidx. destruct (Hidx Hin) as [Hin1 _].
    assert ((Spec.annotation_selected self index columns).2 = []) as ->.
    { unfold Spec.annotation_selected. rewrite <- Hpop.
      by destruct (position index columns). }
    f_equal.
    rewrite (bool_decide_eq_true_2 _ Hname), (bool_decide_eq_true_2 _ Hin). cbn [andb].
    destruct (set_index_resolve_key _ index Hin1) as (d2 & -> & Hk & _).
    cbn [mbind result_bind].
    change (groupby_agg d2 index _) with (groupby_agg d2 index []).
    rewrite (groupby_agg_nothing _ _ _ Hk). reflexivity.
Qed.

(** ** Identifiers of another type than the keys *)

Section Refused.

Lemma run_update_Raise f s e :
  f (Run.annotations s) = Raise e -> Run.update f s = (s, Raise e).
Proof.
  intros H. unfold Run.update, Run.bind, Run.read, Run.lift. by rewrite H.
Qed.

Lemma numbers_numeric (l : list value) :
  l <> [] -> (forall v, v ∈ l -> exists z, v = Int z) -> numeric_keys l = true.
Proof.
  intros Hne Hall. unfold numeric_keys. apply andb_true_intro. split.
  - destruct l as [|v l]; [done|]. destruct (Hall v ltac:(left)) as [z ->]. reflexivity.
  - apply forallb_forall. intros v Hv. apply list_elem_of_In in Hv.
    by destruct (Hall v Hv) as [z ->].
Qed.

Lemma strings_string (l : list value) :
  l <> [] -> Behaviour.strings l -> string_keys l = true.
Proof.
  intros Hne Hall. unfold string_keys. apply andb_true_intro. split.
  - destruct l as [|v l]; [done|]. destruct (Hall v ltac:(left)) as [s ->]. reflexivity.
  - apply forallb_forall. intros v Hv. apply list_elem_of_In in Hv.
    by destruct (Hall v Hv) as [s ->].
Qed.

End Refused.

(** Identifiers that are numbers cannot be joined with a resource whose
    keys are strings: after [initialize_annotations], [annotate_genomics]
    on the key of the annotations raises ValueError from the join, and
    the annotations stay as they were initialised. *)
Theorem integer_identifiers_refused :
  forall named_reduction get_genes_list (database : base.Dataset)
         (gene_list : option (list value)) (index agg : string)
         (f : list value -> result value) (columns : list string) (a0 : DataFrame),
    Spec.reducer named_reduction agg = Some f ->
    (forall l, is_ok (f l) = true) ->
    NoDup (pd.columns (base.data database)) ->
    has_columns (base.data database) columns = true ->
    NoDup columns ->
    (exists c, c ∈ columns /\ c <> index) ->
    index ∈ pd.columns (base.data database) ->
    Some index ≠ index_name (base.data database) ->
    default get_genes_list gene_list <> [] ->
    (forall g, g ∈ default get_genes_list gene_list -> exists z, g = Int z) ->
    column (base.data database) index <> [] ->
    Behaviour.strings (column (base.data database) index) ->
    (Annotatable.initialize_annotations get_genes_list gene_list index ;;;
     base.annotate_genomics named_reduction database index agg false)
      {| Run.annotations := a0; Run.columns_arg := columns |}
    = ({| Run.annotations :=
            pd_more.empty_frame (default get_genes_list gene_list) (Some index);
          Run.columns_arg :=
            match position index columns with
            | Some i => delete i columns | None => columns end |},
       Raise ValueError).
Proof.
  intros nr get_genes_list database gene_list index agg f columns a0
         Hf Htot _ Hcols Hnd Hval Hin Hname Hne Hgenes Hnek Hkeys.
  set (genes := default get_genes_list gene_list) in *.
  set (ann := pd_more.empty_frame genes (Some index)).
  set (columns' := match position index columns with
                   | Some i => delete i columns | None => columns end).
  assert (agg = "concat" \/ exists f, nr agg = Some f /\ forall l, is_ok (f l) = true)
    as Hagg.
  { unfold Spec.reducer in Hf. destruct (decide (agg = "concat")); [by left|].
    right. eauto. }
  destruct (base_get_annotations_ok nr database index columns agg
              Hcols Hnd Hval Hin Hname Hagg) as [out Hout].
  destruct (base_get_annotations_indexed _ _ _ _ _ _ Hout)
    as ((_ & _ & _ & Hvals) & Hmo & _).
  assert (Behaviour.strings (index_values out)) as Hso.
  { intros v Hv. apply Hvals in Hv as [Hv _]. by apply Hkeys. }
  assert (index_values out <> []) as Hneo.
  { destruct (column (base.data database) index) as [|k ks] eqn:E; [done|].
    intros Hnil. assert (k ∈ index_values out) as Hk.
    { apply Hvals. split; [left|]. destruct (Hkeys k ltac:(left)) as [s ->]. discriminate. }
    rewrite Hnil in Hk. by apply elem_of_nil in Hk. }
  assert (pd.join ann out index "_" = Raise ValueError) as Hj.
  { unfold pd.join, ann. rewrite empty_frame_keys.
    cbn [mbind result_bind]. rewrite Hmo.
    by rewrite (numbers_numeric _ Hne Hgenes), (strings_string _ Hneo Hso). }
  unfold Run.bind at 1. unfold Annotatable.initialize_annotations, Run.write.
  fold genes. fold ann.
  unfold base.annotate_genomics, Run.bind at 1.
  unfold base.call_get_annotations. cbn [Run.columns_arg Run.annotations].
  destruct (base.get_annotations nr database index columns agg) as [cols r] eqn:E.
  assert (cols = columns') as ->.
  { unfold base.get_annotations in E. rewrite Hcols in E. cbn [negb] in E.
    by injection E as <- _. }
  cbn [snd] in Hout. subst r.
  unfold Run.bind at 1, Run.ret. unfold Run.bind at 1.
  unfold base.join_on, Run.bind at 1, Run.read. cbn [Run.annotations].
  rewrite decide_True by reflexivity.
  rewrite (run_update_Raise _ _ ValueError) by exact Hj. reflexivity.
Qed.

(** ** A mapping as a column *)

(** [annotate_sequences] and [annotate_diseases] of [base.py], when they
    return: the index and the other columns stay as they were, and the
    new column holds for every row the entry the mapping of the database
    has for its identifier, NaN when it has none.  Under a plain index
    the identifier is the index value, whatever [index] names; under a
    MultiIndex it is the value of the level [index]. *)
Theorem mapping_becomes_a_column :
  forall (name : string) (index : string) (s s' : Run.store),
    Spec.wf_rows (Run.annotations s) ->
    (forall get_sequences agg_sequences omic,
        Annotatable.annotate_sequences name get_sequences index agg_sequences omic s
        = (s', Ok tt) ->
        exists entries keys,
          get_sequences index (default name omic) agg_sequences = Ok entries
          /\ (if multi (Run.annotations s)
              then pd_more.get_level_values (Run.annotations s) index = Ok keys
              else keys = index_values (Run.annotations s))
          /\ index_entries (Run.annotations s') = index_entries (Run.annotations s)
          /\ column (Run.annotations s') "sequence"
             = (fun k => default NaN (entries !! k)) <$> keys
          /\ forall c, c <> "sequence" ->
               column (Run.annotations s') c = column (Run.annotations s) c)
    /\ (forall get_disease_assocs,
          Annotatable.annotate_diseases get_disease_assocs index s = (s', Ok tt) ->
          exists entries,
            get_disease_assocs index = Ok entries
            /\ multi (Run.annotations s) = false
            /\ index_entries (Run.annotations s') = index_entries (Run.annotations s)
            /\ column (Run.annotations s') "disease_associations"
               = (fun k => default NaN (entries !! k))
                   <$> index_values (Run.annotations s)
            /\ forall c, c <> "disease_associations" ->
                 column (Run.annotations s') c = column (Run.annotations s) c).
Proof.
  intros name index s s' Hwf. split.
  - intros get_sequences agg omic H. unfold Annotatable.annotate_sequences in H.
    apply run_bind_Ok in H as (s1 & entries & Hget & H).
    unfold Run.lift in Hget. injection Hget as <- Hget.
    apply run_update_Ok in H as (a' & Ha' & ->). cbn [Run.annotations].
    apply bind_ok in Ha' as (keys & Hkeys & Hset).
    destruct (setitem_column_columns _ _ _ _ Hset Hwf) as (He & Hcol & Hrest).
    exists entries, keys. split; [assumption|]. split.
    { destruct (multi (Run.annotations s)); [assumption|by injection Hkeys]. }
    split; [assumption|]. split; [assumption|assumption].
  - intros get_disease_assocs H. unfold Annotatable.annotate_diseases in H.
    apply run_bind_Ok in H as (s1 & entries & Hget & H).
    unfold Run.lift in Hget. injection Hget as <- Hget.
    apply run_update_Ok in H as (a' & Ha' & ->). cbn [Run.annotations].
    destruct (multi (Run.annotations s)); [discriminate|].
    destruct (setitem_column_columns _ _ _ _ Ha' Hwf) as (He & Hcol & Hrest).
    exists entries. split; [assumption|]. split; [reflexivity|].
    split; [assumption|]. split; assumption.
Qed.

(** ** The properties on concrete inputs *)

Lemma GENCODE_identifiers_agree_witness :
  exists df,
    annotation_more.GENCODE_load_data Inputs.gtf = Ok df
    /\ column df "gene_id" = [Str "ENSG7"; Str "ENSG7"]
    /\ annotation.GENCODE_key "gene_id" "ENST01.1|ENSG7.2|OTT1|OTT2|G7-201|G7|5|"
       = Ok "ENSG7".
Proof.
  eexists. split; [vm_compute; reflexivity|].
  destruct GENCODE_identifiers_agree as [Hload Hkey]. split.
  - edestruct (Hload Inputs.gtf) as (_ & _ & Hg & _).
    + vm_compute. reflexivity.
    + repeat constructor.
    + rewrite Hg. vm_compute. reflexivity.
  - apply (proj1 (Hkey "ENST01.1|ENSG7.2|OTT1|OTT2|G7-201|G7|5|" "ENSG7.2"
                    ltac:(apply (bool_decide_unpack _); vm_compute; exact I))).
    vm_compute. reflexivity.
Defined.


Lemma get_rename_dict_keeps_last_witness :
  exists d,
    Annotatable.get_rename_dict "gene_name" "go_id" Examples.named_genes = Ok d
    /\ forall k,
         d !! k = last (Behaviour.lookups Examples.named_genes "gene_name" "go_id" k).
Proof.
  destruct (Annotatable.get_rename_dict "gene_name" "go_id" Examples.named_genes)
    as [d|e] eqn:E; [|exfalso; vm_compute in E; discriminate].
  exists d. split; [reflexivity|].
  apply (get_rename_dict_keeps_last Examples.named_genes "gene_name" "go_id" d).
  - repeat constructor.
  - right. repeat constructor.
  - left. repeat constructor.
  - exact E.
Defined.

Lemma get_functional_annotations_joins_terms_witness :
  exists d,
    annotation_more.get_functional_annotations Examples.go_table "GE" "gene_id" = Ok d
    /\ exists strs,
         unique (Behaviour.lookups Examples.go_table "gene_id" "go_id" (Str "G1"))
         = Str <$> strs
         /\ d !! Str "G1" = Some (Str (Py.join "|" strs)).
Proof.
  destruct (annotation_more.get_functional_annotations Examples.go_table "GE" "gene_id")
    as [d|e] eqn:E; [|exfalso; vm_compute in E; discriminate].
  exists d. split; [reflexivity|].
  apply (proj2 (get_functional_annotations_joins_terms Examples.go_table
                  "GE" "gene_id" d E (Str "G1"))).
  - discriminate.
  - vm_compute. discriminate.
Defined.


Lemma annotate_sequences_selects_witness :
  exists fr,
    annotation_more.annotate_sequences (Examples.gencode "all") "gene_id" "GE"
      Inputs.ensembl_genes = Ok fr
    /\ annotation_more.frame_multi fr = false
    /\ annotation_more.frame_names fr = names Inputs.ensembl_genes
    /\ annotation_more.frame_columns fr
       = (if decide ("Transcript sequence" ∈ columns Inputs.ensembl_genes)
          then columns Inputs.ensembl_genes
          else columns Inputs.ensembl_genes ++ ["Transcript sequence"])
    /\ Forall2 (fun r r' =>
          r'.1 = r.1
          /\ (forall c, c <> "Transcript sequence" ->
                annotation_more.cell_at (annotation_more.frame_columns fr) c r'.2
                = annotation_more.Plain (pick (columns Inputs.ensembl_genes) c r.2))
          /\ match default NaN (head r.1) with
             | Str g =>
                 Behaviour.selected "all" (contains "gene" "gene_id")
                   (Spec.seqs_for
                      (fun r => annotation.GENCODE_key "gene_id" (annotation.id r))
                      (Spec.normalise true) g Examples.transcripts)
                   (annotation_more.cell_at (annotation_more.frame_columns fr)
                      "Transcript sequence" r'.2)
             | _ => annotation_more.cell_at (annotation_more.frame_columns fr)
                      "Transcript sequence" r'.2 = annotation_more.Plain NaN
             end)
         (rows Inputs.ensembl_genes) (annotation_more.frame_rows fr).
Proof.
  apply (annotate_sequences_selects (Examples.gencode "all") "GE" "gene_id"
           Examples.transcripts Inputs.ensembl_genes).
  - left. split; reflexivity.
  - repeat constructor.
  - reflexivity.
  - vm_compute. reflexivity.
Defined.

Lemma annotate_expressions_over_index_witness :
  exists e,
    (Annotatable.annotate_expressions Inputs.no_median
       {| base.data := Examples.go_table |} "gene_id" Inputs.ensembl_genes).1 = Some e
    /\ Annotatable.get_annotation_expressions
         (Annotatable.annotate_expressions Inputs.no_median
            {| base.data := Examples.go_table |} "gene_id" Inputs.ensembl_genes).1 = Ok e
    /\ names e = names Inputs.ensembl_genes /\ multi e = multi Inputs.ensembl_genes
    /\ index_entries e = index_entries Inputs.ensembl_genes
    /\ ((Annotatable.annotate_expressions Inputs.no_median
           {| base.data := Examples.go_table |} "gene_id" Inputs.ensembl_genes).2 = Ok tt ->
          index_name Inputs.ensembl_genes = Some "gene_id")
    /\ (index_name Inputs.ensembl_genes ≠ Some "gene_id" ->
          (Annotatable.annotate_expressions Inputs.no_median
             {| base.data := Examples.go_table |} "gene_id" Inputs.ensembl_genes).2
          = Raise Exception
          /\ columns e = []).
Proof.
  apply (annotate_expressions_over_index Inputs.no_median
           {| base.data := Examples.go_table |} "gene_id" Inputs.ensembl_genes).
  repeat constructor.
Defined.

Lemma set_index_round_trip_witness :
  let s := Examples.on Examples.named_genes [] in
  let s1 := (Annotatable.set_index "gene_id" s).1 in
  let s2 := (Annotatable.set_index "gene_name" s1).1 in
  multi (Run.annotations s2) = false /\ names (Run.annotations s2) = [Some "gene_name"]
  /\ index_entries (Run.annotations s2) = index_entries (Run.annotations s)
  /\ columns (Run.annotations s2)
     = "gene_id" :: filter (fun c => c <> "gene_id") (columns (Run.annotations s))
  /\ Forall2 (fun r r2 =>
        Spec.labelled (Run.annotations s2) r2 "gene_id"
        = Spec.filled (Spec.labelled (Run.annotations s) r "gene_id")
            (Spec.labelled (Run.annotations s) r "gene_name")
        /\ forall c, c ∈ columns (Run.annotations s) -> c <> "gene_id" ->
             Spec.labelled (Run.annotations s2) r2 c
             = Spec.labelled (Run.annotations s) r c)
       (rows (Run.annotations s)) (rows (Run.annotations s2)).
Proof.
  apply (set_index_round_trip "gene_name" "gene_id"
           (Examples.on Examples.named_genes [])
           (Annotatable.set_index "gene_id" (Examples.on Examples.named_genes [])).1).
  - repeat constructor.
  - reflexivity.
  - reflexivity.
  - apply (bool_decide_unpack _). vm_compute. exact I.
  - vm_compute. reflexivity.
  - vm_compute. reflexivity.
Defined.

Lemma unknown_column_raises_witness :
  base.get_annotations Examples.no_reduction {| base.data := Examples.go_table |}
    "gene_id" ["family"] "concat" = (["family"], Raise Exception)
  /\ (annotation.get_annotations {| annotation.df := Examples.go_table |}
        "gene_id" (Some ["family"])).2 = Raise KeyError.
Proof.
  destruct (unknown_column_raises "family" "gene_id" ["family"]) as [Hbase Hold].
  { left. }
  split.
  - apply Hbase. apply (bool_decide_unpack _). vm_compute. exact I.
  - apply Hold.
    + apply (bool_decide_unpack _). vm_compute. exact I.
    + discriminate.
    + intros [E _]. discriminate.
Defined.

Lemma mapping_becomes_a_column_witness :
  let s := Examples.on Examples.named_genes [] in
  let s' := (Annotatable.annotate_diseases (fun _ => Ok Inputs.disease_assocs)
               "gene_name" s).1 in
  exists entries,
    Ok Inputs.disease_assocs = Ok entries
    /\ multi (Run.annotations s) = false
    /\ index_entries (Run.annotations s') = index_entries (Run.annotations s)
    /\ column (Run.annotations s') "disease_associations"
       = (fun k => default NaN (entries !! k)) <$> index_values (Run.annotations s)
    /\ forall c, c <> "disease_associations" ->
         column (Run.annotations s') c = column (Run.annotations s) c.
Proof.
  apply (proj2 (mapping_becomes_a_column "MessengerRNA" "gene_name"
                  (Examples.on Examples.named_genes [])
                  (Annotatable.annotate_diseases (fun _ => Ok Inputs.disease_assocs)
                     "gene_name" (Examples.on Examples.named_genes [])).1
                  ltac:(repeat constructor))
           (fun _ => Ok Inputs.disease_assocs)).
  vm_compute. reflexivity.
Defined.

Lemma base_join_restores_index_witness :
  let s := Examples.on Examples.transcripts_of_genes ["go_id"] in
  let s' := (base.annotate_genomics Examples.no_reduction
               {| base.data := Examples.names_table |} "gene_name" "concat" false s).1 in
  Spec.same_index (Run.annotations s) (Run.annotations s').
Proof.
  apply (base_join_restores_index Examples.no_reduction
           {| base.data := Examples.names_table |} "gene_name" "concat"
           (Examples.on Examples.transcripts_of_genes ["go_id"])).
  - vm_compute. reflexivity.
  - split; [simpl; lia|repeat constructor].
  - intros c Hc. apply list_elem_of_singleton in Hc. subst c.
    repeat split; discriminate.
  - intros n Hn. apply elem_of_cons in Hn as [Hn|Hn].
    + injection Hn as ->. repeat split; discriminate.
    + apply list_elem_of_singleton in Hn. injection Hn as ->.
      repeat split; discriminate.
  - intros c Hc. apply list_elem_of_singleton in Hc. subst c.
    repeat split; discriminate.
Defined.

Lemma no_value_column_raises_witness :
  base.get_annotations Examples.no_reduction {| base.data := Examples.go_table |}
    "gene_id" ["gene_id"] "concat" = ([], Raise ValueError).
Proof.
  apply (proj1 (no_value_column_raises "gene_id" ["gene_id"] ltac:(by right))).
  - apply (bool_decide_unpack _). vm_compute. exact I.
  - apply (bool_decide_unpack _). vm_compute. exact I.
  - discriminate.
Defined.

Lemma integer_identifiers_refused_witness :
  (Annotatable.initialize_annotations [] (Some [Int 1; Int 2]) "gene_id" ;;;
   base.annotate_genomics Examples.no_reduction {| base.data := Examples.go_table |}
     "gene_id" "concat" false)
    {| Run.annotations := Examples.named_genes; Run.columns_arg := ["go_id"] |}
  = ({| Run.annotations :=
          pd_more.empty_frame (default [] (Some [Int 1; Int 2])) (Some "gene_id");
        Run.columns_arg :=
          match position "gene_id" ["go_id"] with
          | Some i => delete i ["go_id"] | None => ["go_id"] end |},
     Raise ValueError).
Proof.
  apply (integer_identifiers_refused Examples.no_reduction []
           {| base.data := Examples.go_table |} (Some [Int 1; Int 2])
           "gene_id" "concat" concat_uniques ["go_id"] Examples.named_genes).
  - reflexivity.
  - reflexivity.
  - apply (bool_decide_unpack _). vm_compute. exact I.
  - reflexivity.
  - apply (bool_decide_unpack _). vm_compute. exact I.
  - exists "go_id". split; [left | discriminate].
  - apply (bool_decide_unpack _). vm_compute. exact I.
  - discriminate.
  - discriminate.
  - intros g Hg. cbn in Hg. rewrite !elem_of_cons in Hg.
    destruct Hg as [->|[->|Hg]]; [eauto..|by apply elem_of_nil in Hg].
  - vm_compute. discriminate.
  - apply strings_forallb. vm_compute. reflexivity.
Defined.
